(** * Google Workspace export scripts: retry, pagination and archival

    A shallow embedding of the four export scripts of the repository

    - [gw_groups_backup.py]                 (module [GroupsBackup])
    - [gw_gg_settings_backup.py]            (module [GgSettingsBackup])
    - [gw_export_users_with_forwarding.py]  (module [UsersForwarding])
    - [gw_export_shared_drives_acls.py]     (module [SharedDrivesAcls])

    Every script is sequential code that talks to remote Google services,
    sleeps between retries and writes one CSV file.  The embedding threads
    an explicit [World] through every function: the trace of remote calls
    and sleeps (newest first) and the local disk.  The remote side is an
    oracle [Server]: the reply to a request may depend on the request and
    on how many remote calls were issued before it, which is as general as
    a deterministic client can observe.  Python exceptions are the [Raise]
    outcome of the monad; [try]/[except] is [try_except].  [print] calls
    write to standard output only and are left out.  The credential set-up
    at import time and [googleapiclient]'s [build] are external
    collaborators and are not modelled. *)

From Stdlib Require Import ZArith Lia.
From stdpp Require Import gmap strings list.

Local Open Scope string_scope.
Local Open Scope list_scope.

(** ** Python values and exceptions *)

(** A JSON object with string values, as the API clients return them. *)
Abbreviation Dict := (gmap string string).

(** One CSV record, as passed to [csv.writer.writerow]. *)
Abbreviation Row := (list string).

(** The exception classes the scripts name or can meet. *)
Inductive Exn : Type :=
| HttpError (status : Z)
| SSLEOFError
| TimeoutError
| KeyError (key : string)
| TypeError
| ValueError
| OtherError.

(** Python truthiness of an optional string ([None] and [''] are falsy). *)
Definition truthy (o : option string) : bool :=
  match o with
  | Some s => negb (String.eqb s EmptyString)
  | None => false
  end.

(** [d.get(key, 'N/A')] *)
Definition get_or_na (d : Dict) (key : string) : string :=
  default "N/A" (d !! key).

(** ** Remote requests and replies *)

Record GroupsPage := {
  gp_groups : option (list Dict);
  gp_nextPageToken : option string }.

Record MembersPage := {
  mp_members : option (list Dict);
  mp_nextPageToken : option string }.

Record FilesPage := {
  fp_files : option (list Dict) }.

Record User := {
  primaryEmail : string;
  fullName : string;
  suspended : option bool }.

Record UsersPage := {
  up_users : option (list User);
  up_nextPageToken : option string }.

Record AutoForwarding := {
  enabled : bool;
  emailAddress : option string;
  disposition : option string }.

Record DrivesPage := {
  dp_drives : option (list Dict);
  dp_nextPageToken : option string }.

Record PermissionsPage := {
  pp_permissions : option (list Dict);
  pp_nextPageToken : option string }.

(** The remote calls the four scripts issue with [.execute()]. *)
Inductive Request : Type :=
| GroupsList (maxResults : Z) (pageToken : option string)
| MembersList (groupKey : string)
| GroupsSettingsGet (groupUniqueId : option string)
| FilesList (folder_id : string)
| FilesCreate (name : string) (parent : string) (mimeType : option string)
              (media : list Row)
| UsersList (customer : string) (pageToken : option string)
| GetAutoForwarding (user_email : string)
| DrivesList (pageToken : option string)
| PermissionsList (fileId : string) (pageToken : option string).

Definition Response (r : Request) : Type :=
  match r with
  | GroupsList _ _ => GroupsPage
  | MembersList _ => MembersPage
  | GroupsSettingsGet _ => Dict
  | FilesList _ => FilesPage
  | FilesCreate _ _ _ _ => Dict
  | UsersList _ _ => UsersPage
  | GetAutoForwarding _ => AutoForwarding
  | DrivesList _ => DrivesPage
  | PermissionsList _ _ => PermissionsPage
  end.

Inductive reply (A : Type) : Type :=
| Reply (a : A)
| Fail (e : Exn).
Arguments Reply {A} a.
Arguments Fail {A} e.

(** [srv k r] is the reply to request [r] when [k] remote calls were
    issued before it. *)
Definition Server : Type := nat -> forall r : Request, reply (Response r).

(** ** The world and the effect monad *)

Inductive Event : Type :=
| Call (r : Request)
| Sleep (seconds : Z).

Record World := {
  trace : list Event;                 (* newest event first *)
  disk : gmap string (list Row) }.

Definition world0 : World := {| trace := []; disk := ∅ |}.

Inductive res (A : Type) : Type :=
| Ok (a : A)
| Raise (e : Exn)
| OutOfFuel.
Arguments Ok {A} a.
Arguments Raise {A} e.
Arguments OutOfFuel {A}.

Definition M (A : Type) : Type := World -> res A * World.

Definition ret {A} (a : A) : M A := fun w => (Ok a, w).

Definition bind {A B} (m : M A) (k : A -> M B) : M B :=
  fun w =>
    match m w with
    | (Ok a, w') => k a w'
    | (Raise e, w') => (Raise e, w')
    | (OutOfFuel, w') => (OutOfFuel, w')
    end.

Definition raise {A} (e : Exn) : M A := fun w => (Raise e, w).

Definition out_of_fuel {A} : M A := fun w => (OutOfFuel, w).

Notation "x <- m ;; k" := (bind m (fun x => k))
  (at level 100, m at next level, right associativity).
Notation "m ;;; k" := (bind m (fun _ => k))
  (at level 100, right associativity).

(** [try: body except handler]: [handler e = None] means that no [except]
    clause matches [e], which then propagates. *)
Definition try_except {A} (body : M A) (handler : Exn -> option (M A)) : M A :=
  fun w =>
    match body w with
    | (Raise e, w') =>
        match handler e with
        | Some h => h w'
        | None => (Raise e, w')
        end
    | r => r
    end.

Definition is_call (e : Event) : bool :=
  match e with Call _ => true | Sleep _ => false end.

(** Number of remote calls in a trace. *)
Definition count_calls (t : list Event) : nat := length (filter is_call t).

(** The sleeps of a trace, oldest first. *)
Definition sleeps (t : list Event) : list Z :=
  omap (fun e => match e with Sleep d => Some d | Call _ => None end) (rev t).

(** The requests of a trace, oldest first. *)
Definition calls (t : list Event) : list Request :=
  omap (fun e => match e with Call r => Some r | Sleep _ => None end) (rev t).

Definition log (e : Event) (w : World) : World :=
  {| trace := e :: trace w; disk := disk w |}.

Section Effects.
Variable srv : Server.

(** [request.execute()] *)
Definition execute (r : Request) : M (Response r) :=
  fun w =>
    match srv (count_calls (trace w)) r with
    | Reply a => (Ok a, log (Call r) w)
    | Fail e => (Raise e, log (Call r) w)
    end.
End Effects.

(** [time.sleep(seconds)] *)
Definition sleep (seconds : Z) : M unit :=
  fun w => (Ok tt, log (Sleep seconds) w).

(** [open(path, mode='w')]: creates or truncates the file. *)
Definition open_w (path : string) : M unit :=
  fun w => (Ok tt, {| trace := trace w; disk := <[path := []]> (disk w) |}).

(** [csv.writer(file).writerow(row)] on the file opened at [path]. *)
Definition writerow (path : string) (row : Row) : M unit :=
  fun w => (Ok tt, {| trace := trace w;
                      disk := alter (fun rows => rows ++ [row]) path (disk w) |}).

(** The content [MediaFileUpload(path)] sends: the file as it is on disk. *)
Definition read_file (path : string) : M (list Row) :=
  fun w => match disk w !! path with
           | Some rows => (Ok rows, w)
           | None => (Raise OtherError, w)
           end.

(** ** Loops *)

(** What one iteration of a [for] body does: [return a], or fall through
    to the next iteration with the loop-carried variables [st]. *)
Inductive ctl (A St : Type) : Type :=
| Return (a : A)
| Next (st : St).
Arguments Return {A St} a.
Arguments Next {A St} st.

(** [for x in xs: body], with early [return]; a loop that runs to its end
    yields the final loop-carried variables. *)
Fixpoint for_in {X A St} (xs : list X) (st : St)
    (body : X -> St -> M (ctl A St)) : M (ctl A St) :=
  match xs with
  | [] => ret (Next st)
  | x :: xs' =>
      c <- body x st ;;
      match c with
      | Return a => ret (Return a)
      | Next st' => for_in xs' st' body
      end
  end.

(** [for x in xs: body] without [return] or loop-carried variables. *)
Fixpoint for_each {X} (xs : list X) (body : X -> M unit) : M unit :=
  match xs with
  | [] => ret tt
  | x :: xs' => body x ;;; for_each xs' body
  end.

(** [range(n)] *)
Definition range (n : nat) : list nat := seq 0 n.

(** [list_next(previous_request, previous_response)] of the API client:
    [None] when the response carries no (or an empty) [nextPageToken],
    otherwise the same request with [pageToken] set to it. *)
Definition list_next (nextPageToken : option string) : option (option string) :=
  if truthy nextPageToken then Some nextPageToken else None.

(** ** gw_groups_backup.py *)

Module GroupsBackup.
Section Script.
Variable srv : Server.
(** [datetime.now().strftime('%Y%m%d-%H%M%S')] *)
Variable timestamp : string.

(** The [while request is not None] loop of [get_google_groups];
    [request] is the page token of the pending request, if any. *)
Fixpoint get_google_groups_from (fuel : nat) (request : option (option string))
    (groups : list Dict) {struct fuel} : M (list Dict) :=
  match request with
  | None => ret groups
  | Some pageToken =>
      match fuel with
      | O => out_of_fuel
      | S fuel' =>
          response <- execute srv (GroupsList 200 pageToken) ;;
          get_google_groups_from fuel'
            (list_next (gp_nextPageToken response))
            (groups ++ default [] (gp_groups response))
      end
  end.

Definition get_google_groups (fuel : nat) : M (list Dict) :=
  get_google_groups_from fuel (Some None) [].

Definition check_folder_exists (folder_id : string) : M bool :=
  try_except
    (results <- execute srv (FilesList folder_id) ;;
     let files := default [] (fp_files results) in
     ret true)
    (fun error =>
       match error with
       | HttpError _ => Some (ret false)
       | _ => None
       end).

(** The result is a Python list ([Some]) or [None] (a loop that ends
    without [return], which needs [retries = 0]). *)
Definition get_group_members_attempt (group_email : string) (retries : nat)
    (delay : Z) (attempt : nat) (_ : unit) : M (ctl (option (list Dict)) unit) :=
  try_except
    (members_result <- execute srv (MembersList group_email) ;;
     ret (Return (Some (default [] (mp_members members_result)))))
    (fun error =>
       match error with
       | HttpError status =>
           Some (if (status =? 503)%Z then
                   if (attempt <? retries - 1)%nat then
                     sleep delay ;;; ret (Next tt)
                   else ret (Return (Some []))
                 else raise error)
       | _ => None
       end).

Definition get_group_members (group_email : string) (retries : nat) (delay : Z)
    : M (option (list Dict)) :=
  c <- for_in (range retries) tt
         (get_group_members_attempt group_email retries delay) ;;
  match c with
  | Return v => ret v
  | Next _ => ret None
  end.

(** The result is [file.get("id")]. *)
Definition upload_attempt (filename folder_id : string) (media : list Row)
    (retries : nat) (delay : Z) (attempt : nat) (_ : unit)
    : M (ctl (option string) unit) :=
  try_except
    (file <- execute srv (FilesCreate filename folder_id None media) ;;
     ret (Return (file !! "id")))
    (fun error =>
       match error with
       | SSLEOFError =>
           Some (if (attempt <? retries - 1)%nat then
                   sleep delay ;;; ret (Next tt)
                 else raise error)
       | HttpError _ =>
           Some (if (attempt <? retries - 1)%nat then
                   sleep delay ;;; ret (Next tt)
                 else raise error)
       | _ => None
       end).

Definition upload_file_to_drive (csv_file filename folder_id : string)
    (retries : nat) (delay : Z) : M (option string) :=
  media <- read_file csv_file ;;
  c <- for_in (range retries) tt
         (upload_attempt filename folder_id media retries delay) ;;
  match c with
  | Return v => ret v
  | Next _ => ret None
  end.

Definition header : Row := ["Group Email"; "Member Email"; "Role"; "Status"].

Definition filename : string := "gg_backup_" +:+ timestamp +:+ ".csv".
Definition csv_file : string := "/tmp/" +:+ filename.

(** The body of [for group in groups]. *)
Definition export_group (group : Dict) : M unit :=
  match group !! "email" with
  | None => raise (KeyError "email")
  | Some group_email =>
      try_except
        (members <- get_group_members group_email 3 5 ;;
         match members with
         | None => raise TypeError
         | Some members =>
             for_each members (fun member =>
               writerow csv_file
                 [group_email;
                  get_or_na member "email";
                  get_or_na member "role";
                  get_or_na member "status"])
         end)
        (fun error =>
           match error with
           | HttpError _ => Some (ret tt)
           | _ => None
           end)
  end.

(** The [with open(csv_file, mode='w', ...) as file] block. *)
Definition write_groups_csv (groups : list Dict) : M unit :=
  open_w csv_file ;;;
  writerow csv_file header ;;;
  for_each groups export_group.

Definition export_groups_to_csv (groups : list Dict) (folder_id : string)
    : M unit :=
  write_groups_csv groups ;;;
  upload_file_to_drive csv_file filename folder_id 3 5 ;;;
  ret tt.

Definition main (fuel : nat) (FOLDER_ID : string) : M unit :=
  ok <- check_folder_exists FOLDER_ID ;;
  if ok then
    groups <- get_google_groups fuel ;;
    export_groups_to_csv groups FOLDER_ID
  else ret tt.
End Script.
End GroupsBackup.

(** ** gw_gg_settings_backup.py *)

Module GgSettingsBackup.
Section Script.
Variable srv : Server.
Variable timestamp : string.

Fixpoint get_google_groups_from (fuel : nat) (request : option (option string))
    (groups : list Dict) {struct fuel} : M (list Dict) :=
  match request with
  | None => ret groups
  | Some pageToken =>
      match fuel with
      | O => out_of_fuel
      | S fuel' =>
          response <- execute srv (GroupsList 50 pageToken) ;;
          get_google_groups_from fuel'
            (list_next (gp_nextPageToken response))
            (groups ++ default [] (gp_groups response))
      end
  end.

Definition get_google_groups (fuel : nat) : M (list Dict) :=
  get_google_groups_from fuel (Some None) [].

Definition get_group_settings_attempt (max_retries : nat)
    (group_email : option string) (attempt : nat) (_ : unit)
    : M (ctl (option Dict) unit) :=
  try_except
    (response <- execute srv (GroupsSettingsGet group_email) ;;
     ret (Return (Some response)))
    (fun error =>
       let retry :=
         if (attempt <? max_retries - 1)%nat then
           sleep (5 * (Z.of_nat attempt + 1))%Z ;;; ret (Next tt)
         else ret (Return None) in
       match error with
       | HttpError _ => Some retry
       | TimeoutError => Some retry
       | _ => None
       end).

(** The retry loop of [get_group_settings], for any attempt bound. *)
Definition get_group_settings_with (max_retries : nat)
    (group_email : option string) : M (option Dict) :=
  c <- for_in (range max_retries) tt
         (get_group_settings_attempt max_retries group_email) ;;
  match c with
  | Return v => ret v
  | Next _ => ret None
  end.

Definition get_group_settings (group_email : option string) : M (option Dict) :=
  let max_retries := 3 in
  get_group_settings_with max_retries group_email.

Definition check_folder_exists (folder_id : string) : M bool :=
  try_except
    (results <- execute srv (FilesList folder_id) ;;
     let files := default [] (fp_files results) in
     ret true)
    (fun error =>
       match error with
       | HttpError _ => Some (ret false)
       | _ => None
       end).

Definition upload_attempt (filename folder_id : string) (media : list Row)
    (retries : nat) (delay : Z) (attempt : nat) (_ : unit)
    : M (ctl (option string) unit) :=
  try_except
    (file <- execute srv (FilesCreate filename folder_id None media) ;;
     ret (Return (file !! "id")))
    (fun error =>
       match error with
       | SSLEOFError =>
           Some (if (attempt <? retries - 1)%nat then
                   sleep delay ;;; ret (Next tt)
                 else raise error)
       | HttpError _ =>
           Some (if (attempt <? retries - 1)%nat then
                   sleep delay ;;; ret (Next tt)
                 else raise error)
       | _ => None
       end).

Definition upload_file_to_drive (csv_file filename folder_id : string)
    (retries : nat) (delay : Z) : M (option string) :=
  media <- read_file csv_file ;;
  c <- for_in (range retries) tt
         (upload_attempt filename folder_id media retries delay) ;;
  match c with
  | Return v => ret v
  | Next _ => ret None
  end.

Definition fields : list string :=
  ["email"; "id"; "name"; "description"; "directMembersCount"; "adminCreated";
   "aliases"; "nonEditableAliases"; "allowExternalMembers"; "allowWebPosting";
   "archiveOnly"; "customFooterText"; "customRolesEnabledForSettingsToBeMerged";
   "defaultMessageDenyNotificationText"; "defaultSender"; "enableCollaborativeInbox";
   "includeCustomFooter"; "includeInGlobalAddressList"; "isArchived";
   "membersCanPostAsTheGroup"; "messageModerationLevel"; "primaryLanguage"; "replyTo";
   "sendMessageDenyNotification"; "spamModerationLevel"; "whoCanContactOwner"; "whoCanJoin";
   "whoCanLeaveGroup"; "whoCanPostMessage"; "whoCanViewGroup"; "whoCanViewMembership";
   "whoCanDiscoverGroup"; "showInGroupDirectory"; "whoCanAssistContent"; "whoCanAssignTopics";
   "whoCanEnterFreeFormTags"; "whoCanHideAbuse"; "whoCanMakeTopicsSticky"; "whoCanMarkDuplicate";
   "whoCanMarkFavoriteReplyOnAnyTopic"; "whoCanMarkNoResponseNeeded"; "whoCanModifyTagsAndCategories";
   "whoCanTakeTopics"; "whoCanUnassignTopic"; "whoCanUnmarkFavoriteReplyOnAnyTopic"; "whoCanModerateContent";
   "whoCanApproveMessages"; "whoCanDeleteAnyPost"; "whoCanDeleteTopics"; "whoCanLockTopics";
   "whoCanMoveTopicsIn"; "whoCanMoveTopicsOut"; "whoCanPostAnnouncements"; "whoCanModerateMembers";
   "whoCanAdd"; "whoCanApproveMembers"; "whoCanBanUsers"; "whoCanInvite"; "whoCanModifyMembers";
   "allowGoogleCommunication"; "favoriteRepliesOnTop"; "maxMessageBytes"; "messageDisplayFont";
   "whoCanAddReferences"; "whoCanMarkFavoriteReplyOnOwnTopic"].

Definition filename : string := "gg_settings_backup_" +:+ timestamp +:+ ".csv".
Definition csv_file : string := "/tmp/" +:+ filename.

(** Python truthiness of [settings]: [None] and the empty dict are falsy. *)
Definition settings_truthy (settings : option Dict) : option Dict :=
  match settings with
  | Some d => if decide (d = ∅) then None else Some d
  | None => None
  end.

(** The body of [for group in groups]. *)
Definition export_group_settings (group : Dict) : M unit :=
  let group_email := group !! "email" in
  settings <- get_group_settings group_email ;;
  match settings_truthy settings with
  | Some settings =>
      let row := map (fun field => get_or_na settings field) fields in
      writerow csv_file row
  | None => ret tt
  end.

(** The [with open(csv_file, mode='w', ...) as file] block. *)
Definition write_settings_csv (groups : list Dict) : M unit :=
  open_w csv_file ;;;
  writerow csv_file fields ;;;
  for_each groups export_group_settings.

Definition export_groups_settings_to_csv (groups : list Dict)
    (folder_id : string) : M unit :=
  write_settings_csv groups ;;;
  upload_file_to_drive csv_file filename folder_id 3 5 ;;;
  ret tt.

Definition main (fuel : nat) (FOLDER_ID : string) : M unit :=
  ok <- check_folder_exists FOLDER_ID ;;
  if ok then
    groups <- get_google_groups fuel ;;
    export_groups_settings_to_csv groups FOLDER_ID
  else ret tt.
End Script.
End GgSettingsBackup.

(** ** gw_export_users_with_forwarding.py *)

Module UsersForwarding.
Section Script.
Variable srv : Server.
Variable timestamp : string.

(** The [try] block of [get_active_users].  [users] is extended in
    place, so what was gathered before an exception is what the code
    after the [except Exception] clause sees: the result is [users] as
    it is when the [try] statement is left, either way.  [pageToken] is
    [None] for the first request. *)
Fixpoint get_active_users_pages (fuel : nat) (customer_id : string)
    (pageToken : option string) (users : list User) {struct fuel}
    : M (list User) :=
  match fuel with
  | O => out_of_fuel
  | S fuel' =>
      try_except
        (results <- execute srv (UsersList customer_id pageToken) ;;
         let users := users ++ default [] (up_users results) in
         match up_nextPageToken results with
         | Some token => get_active_users_pages fuel' customer_id (Some token) users
         | None => ret users
         end)
        (fun e => Some (ret users))
  end.

Definition get_active_users (fuel : nat) (customer_id : string) : M (list User) :=
  users <- get_active_users_pages fuel customer_id None [] ;;
  let active_users :=
    filter (fun user => negb (default false (suspended user)) = true) users in
  ret active_users.

(** What [get_forwarding_settings] returns for fetched [settings]. *)
Definition forwarding_of (settings : AutoForwarding)
    : option string * option string :=
  if enabled settings then
    (Some (default "N/A" (emailAddress settings)),
     Some (default "N/A" (disposition settings)))
  else (None, None).

(** One iteration of the retry loop; [delay] is carried from one
    iteration to the next. *)
Definition get_forwarding_settings_attempt (user_email : string)
    (attempt : nat) (delay : Z) : M (ctl (option string * option string) Z) :=
  try_except
    (settings <- execute srv (GetAutoForwarding user_email) ;;
     ret (Return (forwarding_of settings)))
    (fun e =>
       match e with
       | HttpError status =>
           Some (if (status =? 429)%Z then
                   sleep delay ;;;
                   ret (Next (delay * 2)%Z)
                 else ret (Return (None, None)))
       | _ => None
       end).

Definition get_forwarding_settings (user_email : string) (retries : nat)
    (delay : Z) : M (option string * option string) :=
  c <- for_in (range retries) delay
         (get_forwarding_settings_attempt user_email) ;;
  match c with
  | Return v => ret v
  | Next _ => ret (None, None)
  end.

Definition upload_to_drive (filename folder_id : string) : M unit :=
  try_except
    (media <- read_file filename ;;
     execute srv (FilesCreate filename folder_id
                    (Some "application/vnd.google-apps.spreadsheet") media) ;;;
     ret tt)
    (fun e =>
       match e with
       | HttpError _ => Some (ret tt)
       | _ => None
       end).

Definition filename : string :=
  "active_users_with_forwarding_" +:+ timestamp +:+ ".csv".

Definition headers : Row :=
  ["Primary Email"; "Full Name"; "Forwarding Email Address"; "Disposition"].

Definition export_users_with_forwarding_to_csv (users : list User)
    (FOLDER_ID : string) : M unit :=
  open_w filename ;;;
  writerow filename headers ;;;
  for_each users (fun user =>
    fd <- get_forwarding_settings (primaryEmail user) 5 30 ;;
    let (forwarding_email, disposition) := fd in
    if truthy forwarding_email then
      writerow filename
        [primaryEmail user; fullName user;
         default EmptyString forwarding_email;
         default EmptyString disposition]
    else ret tt) ;;;
  upload_to_drive filename FOLDER_ID.

(** The [if __name__ == '__main__'] block. *)
Definition main (fuel : nat) (CUSTOMER_ID : option string) (FOLDER_ID : string)
    : M unit :=
  match CUSTOMER_ID with
  | None => raise ValueError
  | Some customer_id =>
      if negb (truthy CUSTOMER_ID) then raise ValueError
      else
        active_users <- get_active_users fuel customer_id ;;
        match active_users with
        | _ :: _ => export_users_with_forwarding_to_csv active_users FOLDER_ID
        | [] => ret tt
        end
  end.
End Script.
End UsersForwarding.

(** ** gw_export_shared_drives_acls.py *)

Module SharedDrivesAcls.
Section Script.
Variable srv : Server.
Variable timestamp : string.

(** The first [while True] loop: all shared drives. *)
Fixpoint list_shared_drives (fuel : nat) (page_token : option string)
    (shared_drives : list Dict) {struct fuel} : M (list Dict) :=
  match fuel with
  | O => out_of_fuel
  | S fuel' =>
      response <- execute srv (DrivesList page_token) ;;
      let shared_drives := shared_drives ++ default [] (dp_drives response) in
      let page_token := dp_nextPageToken response in
      if negb (truthy page_token) then ret shared_drives
      else list_shared_drives fuel' page_token shared_drives
  end.

(** The inner [while True] loop: the permissions of one drive, written
    page by page. *)
Fixpoint write_drive_acls (fuel : nat) (filename drive_name drive_id : string)
    (acls_page_token : option string) {struct fuel} : M unit :=
  match fuel with
  | O => out_of_fuel
  | S fuel' =>
      acls_response <- execute srv (PermissionsList drive_id acls_page_token) ;;
      let acls := default [] (pp_permissions acls_response) in
      for_each acls (fun acl =>
        writerow filename
          [drive_name; drive_id;
           get_or_na acl "emailAddress";
           get_or_na acl "role";
           get_or_na acl "type";
           get_or_na acl "displayName"]) ;;;
      let acls_page_token := pp_nextPageToken acls_response in
      if negb (truthy acls_page_token) then ret tt
      else write_drive_acls fuel' filename drive_name drive_id acls_page_token
  end.

Definition upload_to_drive (filename folder_id : string) : M unit :=
  try_except
    (media <- read_file filename ;;
     execute srv (FilesCreate filename folder_id
                    (Some "application/vnd.google-apps.spreadsheet") media) ;;;
     ret tt)
    (fun e =>
       match e with
       | HttpError _ => Some (ret tt)
       | _ => None
       end).

Definition filename : string := "shared_drive_acls_" +:+ timestamp +:+ ".csv".

Definition header : Row :=
  ["Shared Drive Name"; "Shared Drive ID"; "Permission Email";
   "Permission Role"; "Permission Type"; "Permission Display Name"].

(** The body of [for drive in shared_drives]. *)
Definition export_drive (fuel : nat) (drive : Dict) : M unit :=
  match drive !! "id" with
  | None => raise (KeyError "id")
  | Some drive_id =>
      match drive !! "name" with
      | None => raise (KeyError "name")
      | Some drive_name =>
          try_except
            (write_drive_acls fuel filename drive_name drive_id None)
            (fun e =>
               match e with
               | HttpError _ => Some (ret tt)
               | _ => None
               end)
      end
  end.

Definition export_shared_drive_acls (fuel : nat) (FOLDER_ID : string) : M unit :=
  try_except
    (shared_drives <- list_shared_drives fuel None [] ;;
     match shared_drives with
     | [] => ret tt
     | _ :: _ =>
         open_w filename ;;;
         writerow filename header ;;;
         for_each shared_drives (export_drive fuel) ;;;
         upload_to_drive filename FOLDER_ID
     end)
    (fun e =>
       match e with
       | HttpError _ => Some (ret tt)
       | _ => None
       end).

(** The [if __name__ == "__main__"] block. *)
Definition main (fuel : nat) (FOLDER_ID : option string) : M unit :=
  match FOLDER_ID with
  | None => raise ValueError
  | Some folder_id => export_shared_drive_acls fuel folder_id
  end.
End Script.
End SharedDrivesAcls.

(** * Concrete servers

    Small remote services on which the scripts are run in the examples
    below. *)

(** Every call succeeds and returns no data; the destination folder is
    accessible and empty. *)
Definition quiet : Server := fun _ r =>
  match r as r0 return reply (Response r0) with
  | GroupsList _ _ => Reply {| gp_groups := None; gp_nextPageToken := None |}
  | MembersList _ => Reply {| mp_members := None; mp_nextPageToken := None |}
  | GroupsSettingsGet _ => Reply ∅
  | FilesList _ => Reply {| fp_files := Some [] |}
  | FilesCreate _ _ _ _ => Reply {[ "id" := "file-1" ]}
  | UsersList _ _ => Reply {| up_users := None; up_nextPageToken := None |}
  | GetAutoForwarding _ =>
      Reply {| enabled := false; emailAddress := None; disposition := None |}
  | DrivesList _ => Reply {| dp_drives := None; dp_nextPageToken := None |}
  | PermissionsList _ _ =>
      Reply {| pp_permissions := None; pp_nextPageToken := None |}
  end.

(** Every detail fetch is refused with a retryable-class error: 503 for
    members and settings, 429 for forwarding. *)
Definition srv_unavailable : Server := fun k r =>
  match r as r0 return reply (Response r0) with
  | MembersList _ => Fail (HttpError 503)
  | GroupsSettingsGet _ => Fail (HttpError 503)
  | GetAutoForwarding _ => Fail (HttpError 429)
  | r0 => quiet k r0
  end.

(** Every detail fetch is refused with 403 (permission denied). *)
Definition srv_forbidden : Server := fun k r =>
  match r as r0 return reply (Response r0) with
  | MembersList _ => Fail (HttpError 403)
  | GroupsSettingsGet _ => Fail (HttpError 403)
  | GetAutoForwarding _ => Fail (HttpError 403)
  | r0 => quiet k r0
  end.

(** The first two remote calls of a run are refused with a
    retryable-class error (503, 429 for forwarding, a broken TLS
    connection for uploads); every later call is answered. *)
Definition srv_flaky : Server := fun k r =>
  match r as r0 return reply (Response r0) with
  | MembersList g =>
      if (k <? 2)%nat then Fail (HttpError 503)
      else Reply {| mp_members := Some [{[ "email" := "x@y.com" ]}];
                    mp_nextPageToken := None |}
  | GroupsSettingsGet g =>
      if (k <? 2)%nat then Fail (HttpError 503)
      else Reply {[ "email" := default EmptyString g ]}
  | GetAutoForwarding u =>
      if (k <? 2)%nat then Fail (HttpError 429)
      else Reply {| enabled := true;
                    emailAddress := Some "elsewhere@example.org";
                    disposition := Some "archive" |}
  | FilesCreate _ _ _ _ =>
      if (k <? 2)%nat then Fail SSLEOFError
      else Reply {[ "id" := "file-1" ]}
  | r0 => quiet k r0
  end.

(** The destination folder does not exist: the probe and every upload
    are answered 404.  There is one shared drive with one permission,
    one group and one user. *)
Definition srv_no_destination : Server := fun k r =>
  match r as r0 return reply (Response r0) with
  | FilesList _ => Fail (HttpError 404)
  | FilesCreate _ _ _ _ => Fail (HttpError 404)
  | DrivesList _ =>
      Reply {| dp_drives := Some [{[ "id" := "d1"; "name" := "Drive 1" ]}];
               dp_nextPageToken := None |}
  | PermissionsList _ _ =>
      Reply {| pp_permissions :=
                 Some [{[ "emailAddress" := "a@example.org"; "role" := "reader" ]}];
               pp_nextPageToken := None |}
  | GroupsList _ _ =>
      Reply {| gp_groups := Some [{[ "email" := "g@example.org" ]}];
               gp_nextPageToken := None |}
  | r0 => quiet k r0
  end.

(** Uploads are answered 503; otherwise as [srv_no_destination], with an
    accessible destination folder. *)
Definition srv_upload_down : Server := fun k r =>
  match r as r0 return reply (Response r0) with
  | FilesList _ => Reply {| fp_files := Some [] |}
  | FilesCreate _ _ _ _ => Fail (HttpError 503)
  | r0 => srv_no_destination k r0
  end.

(** A world whose disk holds one CSV file with a header row. *)
Definition world_with_file : World :=
  {| trace := []; disk := {[ "/tmp/report.csv" := [["Group Email"]] ]} |}.

(** The first field of every record of a CSV file. *)
Definition first_column (rows : list Row) : list string := omap head rows.

(** Ten groups, [g1@example.org] to [g10@example.org]. *)
Definition ten_groups : list Dict :=
  map (fun n => {[ "email" := "g" +:+ n +:+ "@example.org" ]})
    ["1"; "2"; "3"; "4"; "5"; "6"; "7"; "8"; "9"; "10"].

(** The detail fetches of group [g4@example.org] always fail with 503;
    those of every other group succeed. *)
Definition srv_ten : Server := fun k r =>
  match r as r0 return reply (Response r0) with
  | GroupsList _ _ =>
      Reply {| gp_groups := Some ten_groups; gp_nextPageToken := None |}
  | GroupsSettingsGet g =>
      if decide (g = Some "g4@example.org") then Fail (HttpError 503)
      else Reply {[ "email" := default EmptyString g; "name" := "A group" ]}
  | MembersList g =>
      if decide (g = "g4@example.org") then Fail (HttpError 503)
      else Reply {| mp_members :=
                      Some [{[ "email" := "x@y.com"; "role" := "MEMBER";
                               "status" := "ACTIVE" ]}];
                    mp_nextPageToken := None |}
  | r0 => quiet k r0
  end.

(** One group whose member list spans two pages: the reply to
    [members().list] carries one member and a [nextPageToken]. *)
Definition srv_two_pages : Server := fun k r =>
  match r as r0 return reply (Response r0) with
  | GroupsList _ _ =>
      Reply {| gp_groups := Some [{[ "email" := "big@example.org" ]}];
               gp_nextPageToken := None |}
  | MembersList _ =>
      Reply {| mp_members :=
                 Some [{[ "email" := "m1@example.org"; "role" := "MEMBER";
                          "status" := "ACTIVE" ]}];
               mp_nextPageToken := Some "page-2" |}
  | r0 => quiet k r0
  end.

Definition alice : User :=
  {| primaryEmail := "alice@example.org"; fullName := "Alice";
     suspended := None |}.

(** The user listing has two pages: the first holds [alice], the request
    for the second is answered 503.  Every user forwards their mail. *)
Definition srv_listing_breaks : Server := fun k r =>
  match r as r0 return reply (Response r0) with
  | UsersList _ None =>
      Reply {| up_users := Some [alice]; up_nextPageToken := Some "t2" |}
  | UsersList _ (Some _) => Fail (HttpError 503)
  | GetAutoForwarding _ =>
      Reply {| enabled := true;
               emailAddress := Some "elsewhere@example.org";
               disposition := Some "archive" |}
  | r0 => quiet k r0
  end.

(** ** Error classes, as the [except] clauses of each fetcher sort them *)

(** What [get_group_settings] retries: every [HttpError], whatever its
    status, and [TimeoutError]. *)
Definition settings_retryable (e : Exn) : Prop :=
  e = TimeoutError \/ exists status, e = HttpError status.

(** What [upload_file_to_drive] retries. *)
Definition upload_retryable (e : Exn) : Prop :=
  e = SSLEOFError \/ exists status, e = HttpError status.

(** What [get_forwarding_settings] retries. *)
Definition rate_limited (e : Exn) : Prop := e = HttpError 429.

(** What [get_group_members] retries. *)
Definition unavailable (e : Exn) : Prop := e = HttpError 503.

(** The [n] remote calls number [c0], [c0 + 1], ... of request [rq] all
    fail with an error of the class [retryable]. *)
Definition fails_until (srv : Server) (rq : Request) (retryable : Exn -> Prop)
    (c0 n : nat) : Prop :=
  forall k, k < n -> exists e, srv (c0 + k) rq = Fail e /\ retryable e.

(** ** Relations between the worlds before and after a run *)

(** [respects R m]: running [m] takes a world to an [R]-related one,
    whatever the outcome.  For a reflexive and transitive [R] the
    property passes through sequencing, [try]/[except] and loops. *)
Definition respects (R : World -> World -> Prop) {A} (m : M A) : Prop :=
  forall w, R w (snd (m w)).

(** The later world's trace extends the earlier one by events that all
    satisfy [Q]. *)
Definition emits_only (Q : Event -> Prop) (w w' : World) : Prop :=
  exists t, trace w' = t ++ trace w /\ Forall Q t.

(** The local disk is left as it is. *)
Definition same_disk (w w' : World) : Prop := disk w' = disk w.

Definition any_event (e : Event) : Prop := True.

(** An event that is no destination probe ([files().list]). *)
Definition not_probe (e : Event) : Prop :=
  forall folder_id, e <> Call (FilesList folder_id).

(** ** Paged listings *)

(** The world after the requests [rqs] were issued, in that order. *)
Definition called (rqs : list Request) (w : World) : World :=
  fold_left (fun w r => log (Call r) w) rqs w.

(** From remote call number [c] on, the group listing of page size
    [maxResults] is served as the pages [pages]: the request that carries
    the cursor [token] is answered with the first page, every further
    request carries the cursor of the page before it, and the last page
    alone has no cursor (or an empty one). *)
Fixpoint serves_groups (srv : Server) (maxResults : Z) (c : nat)
    (token : option string) (pages : list GroupsPage) : Prop :=
  match pages with
  | [] => False
  | page :: rest =>
      srv c (GroupsList maxResults token) = Reply page /\
      match rest with
      | [] => truthy (gp_nextPageToken page) = false
      | _ :: _ =>
          truthy (gp_nextPageToken page) = true /\
          serves_groups srv maxResults (S c) (gp_nextPageToken page) rest
      end
  end.

(** The requests that fetch [pages], the first with the cursor [token]. *)
Fixpoint groups_requests (maxResults : Z) (token : option string)
    (pages : list GroupsPage) : list Request :=
  match pages with
  | [] => []
  | page :: rest =>
      GroupsList maxResults token
        :: groups_requests maxResults (gp_nextPageToken page) rest
  end.

(** The groups of a listing, page after page. *)
Definition groups_of (pages : list GroupsPage) : list Dict :=
  concat (map (fun page => default [] (gp_groups page)) pages).

(** A group listing of two pages: two groups, then one. *)
Definition groups_page_1 : GroupsPage :=
  {| gp_groups := Some [{[ "email" := "g1@example.org" ]};
                        {[ "email" := "g2@example.org" ]}];
     gp_nextPageToken := Some "p2" |}.

Definition groups_page_2 : GroupsPage :=
  {| gp_groups := Some [{[ "email" := "g3@example.org" ]}];
     gp_nextPageToken := None |}.

Definition srv_paged_groups : Server := fun k r =>
  match r as r0 return reply (Response r0) with
  | GroupsList _ None => Reply groups_page_1
  | GroupsList _ (Some _) => Reply groups_page_2
  | r0 => quiet k r0
  end.

(** The world after [rows] were appended to the file at [path]. *)
Definition appended (path : string) (rows : list Row) (w : World) : World :=
  {| trace := trace w;
     disk := alter (fun old => old ++ rows) path (disk w) |}.

(** The record [export_shared_drive_acls] writes for one permission. *)
Definition acl_row (drive_name drive_id : string) (acl : Dict) : Row :=
  [drive_name; drive_id;
   get_or_na acl "emailAddress";
   get_or_na acl "role";
   get_or_na acl "type";
   get_or_na acl "displayName"].

(** The records for the permissions of a run of pages, in page order. *)
Definition acl_rows (drive_name drive_id : string)
    (pages : list PermissionsPage) : list Row :=
  concat (map (fun page =>
                 map (acl_row drive_name drive_id)
                   (default [] (pp_permissions page))) pages).

(** From remote call number [c] on, the permissions of [drive_id] are
    served as the pages [pages], the last page alone having no cursor. *)
Fixpoint serves_permissions (srv : Server) (c : nat) (drive_id : string)
    (token : option string) (pages : list PermissionsPage) : Prop :=
  match pages with
  | [] => False
  | page :: rest =>
      srv c (PermissionsList drive_id token) = Reply page /\
      match rest with
      | [] => truthy (pp_nextPageToken page) = false
      | _ :: _ =>
          truthy (pp_nextPageToken page) = true /\
          serves_permissions srv (S c) drive_id (pp_nextPageToken page) rest
      end
  end.

(** From remote call number [c] on, the pages [pages] are served, each
    with a cursor, and the request after them fails with [e]. *)
Fixpoint permissions_break (srv : Server) (c : nat) (drive_id : string)
    (token : option string) (pages : list PermissionsPage) (e : Exn) : Prop :=
  match pages with
  | [] => srv c (PermissionsList drive_id token) = Fail e
  | page :: rest =>
      srv c (PermissionsList drive_id token) = Reply page /\
      truthy (pp_nextPageToken page) = true /\
      permissions_break srv (S c) drive_id (pp_nextPageToken page) rest e
  end.

Fixpoint permissions_requests (drive_id : string) (token : option string)
    (pages : list PermissionsPage) : list Request :=
  match pages with
  | [] => []
  | page :: rest =>
      PermissionsList drive_id token
        :: permissions_requests drive_id (pp_nextPageToken page) rest
  end.

(** The cursor that follows the pages [pages]. *)
Definition cursor_after (token : option string)
    (pages : list PermissionsPage) : option string :=
  default token (last (map pp_nextPageToken pages)).

(** The permissions of drive [d1] on two pages: two entries, then one
    that has no e-mail address. *)
Definition permissions_page_1 : PermissionsPage :=
  {| pp_permissions :=
       Some [{[ "emailAddress" := "a@example.org"; "role" := "organizer";
                "type" := "user"; "displayName" := "A" ]};
             {[ "emailAddress" := "b@example.org"; "role" := "reader";
                "type" := "user"; "displayName" := "B" ]}];
     pp_nextPageToken := Some "acl-2" |}.

Definition permissions_page_2 : PermissionsPage :=
  {| pp_permissions := Some [{[ "role" := "reader"; "type" := "domain" ]}];
     pp_nextPageToken := None |}.

Definition srv_paged_permissions : Server := fun k r =>
  match r as r0 return reply (Response r0) with
  | PermissionsList _ None => Reply permissions_page_1
  | PermissionsList _ (Some _) => Reply permissions_page_2
  | r0 => srv_no_destination k r0
  end.

(** As [srv_paged_permissions], but the second page is refused. *)
Definition srv_broken_permissions : Server := fun k r =>
  match r as r0 return reply (Response r0) with
  | PermissionsList _ None => Reply permissions_page_1
  | PermissionsList _ (Some _) => Fail (HttpError 500)
  | r0 => srv_no_destination k r0
  end.

(** A world whose disk holds the opened report of the shared-drive
    script, with its header row. *)
Definition world_with_acl_report : World :=
  {| trace := [];
     disk := {[ SharedDrivesAcls.filename "20240910-000000"
                := [SharedDrivesAcls.header] ]} |}.

Definition drive_1 : Dict := {[ "id" := "d1"; "name" := "Drive 1" ]}.

(** ** The user listing *)

(** From remote call number [c] on, the users of [customer] are served as
    the pages [pages]: every page but the last has a [nextPageToken] key
    (of any value), which the next request carries; the last has none. *)
Fixpoint serves_users (srv : Server) (c : nat) (customer : string)
    (token : option string) (pages : list UsersPage) : Prop :=
  match pages with
  | [] => False
  | page :: rest =>
      srv c (UsersList customer token) = Reply page /\
      match rest with
      | [] => up_nextPageToken page = None
      | _ :: _ =>
          is_Some (up_nextPageToken page) /\
          serves_users srv (S c) customer (up_nextPageToken page) rest
      end
  end.

(** From remote call number [c] on, the pages [pages] are served, each
    with a [nextPageToken] key, and the request after them fails with
    [e]. *)
Fixpoint users_break (srv : Server) (c : nat) (customer : string)
    (token : option string) (pages : list UsersPage) (e : Exn) : Prop :=
  match pages with
  | [] => srv c (UsersList customer token) = Fail e
  | page :: rest =>
      srv c (UsersList customer token) = Reply page /\
      is_Some (up_nextPageToken page) /\
      users_break srv (S c) customer (up_nextPageToken page) rest e
  end.

Fixpoint users_requests (customer : string) (token : option string)
    (pages : list UsersPage) : list Request :=
  match pages with
  | [] => []
  | page :: rest =>
      UsersList customer token
        :: users_requests customer (up_nextPageToken page) rest
  end.

(** The users of a listing that are not suspended, in listing order. *)
Definition active_users_of (pages : list UsersPage) : list User :=
  filter (fun user => negb (default false (suspended user)) = true)
    (concat (map (fun page => default [] (up_users page)) pages)).

Definition bob : User :=
  {| primaryEmail := "bob@example.org"; fullName := "Bob";
     suspended := Some true |}.

Definition carol : User :=
  {| primaryEmail := "carol@example.org"; fullName := "Carol";
     suspended := Some false |}.

Definition users_page_1 : UsersPage :=
  {| up_users := Some [alice; bob]; up_nextPageToken := Some "t2" |}.

Definition users_page_2 : UsersPage :=
  {| up_users := Some [carol]; up_nextPageToken := None |}.

(** A user listing of two pages; [bob] is suspended. *)
Definition srv_paged_users : Server := fun k r =>
  match r as r0 return reply (Response r0) with
  | UsersList _ None => Reply users_page_1
  | UsersList _ (Some _) => Reply users_page_2
  | r0 => quiet k r0
  end.

(** As [srv_paged_users], but the second page times out. *)
Definition srv_users_timeout : Server := fun k r =>
  match r as r0 return reply (Response r0) with
  | UsersList _ None => Reply users_page_1
  | UsersList _ (Some _) => Fail TimeoutError
  | r0 => quiet k r0
  end.

(** ** A group listing that breaks *)

(** From remote call number [c] on, the pages [pages] of the group
    listing are served, each with a cursor, and the request after them
    fails with [e]. *)
Fixpoint groups_break (srv : Server) (maxResults : Z) (c : nat)
    (token : option string) (pages : list GroupsPage) (e : Exn) : Prop :=
  match pages with
  | [] => srv c (GroupsList maxResults token) = Fail e
  | page :: rest =>
      srv c (GroupsList maxResults token) = Reply page /\
      truthy (gp_nextPageToken page) = true /\
      groups_break srv maxResults (S c) (gp_nextPageToken page) rest e
  end.

(** The cursor that follows the pages [pages] of a group listing. *)
Definition groups_cursor_after (token : option string)
    (pages : list GroupsPage) : option string :=
  default token (last (map gp_nextPageToken pages)).

(** The destination is accessible; the group listing has one page with a
    cursor, and the request for the second page is answered 500. *)
Definition srv_groups_listing_breaks : Server := fun k r =>
  match r as r0 return reply (Response r0) with
  | GroupsList _ None => Reply groups_page_1
  | GroupsList _ (Some _) => Fail (HttpError 500)
  | r0 => quiet k r0
  end.

(** The record [export_groups_to_csv] writes for one member. *)
Definition member_row (group_email : string) (member : Dict) : Row :=
  [group_email;
   get_or_na member "email";
   get_or_na member "role";
   get_or_na member "status"].

(** The record [export_groups_settings_to_csv] writes for one group. *)
Definition settings_row (settings : Dict) : Row :=
  map (fun field => get_or_na settings field) GgSettingsBackup.fields.

(** The world in which [export_groups_to_csv] has opened its report and
    written the header. *)
Definition world_with_groups_report : World :=
  {| trace := [];
     disk := {[ GroupsBackup.csv_file "20240828-000000"
                := [GroupsBackup.header] ]} |}.

(** The world in which [export_groups_settings_to_csv] has opened its
    report and written the header. *)
Definition world_with_settings_report : World :=
  {| trace := [];
     disk := {[ GgSettingsBackup.csv_file "20240829-000000"
                := [GgSettingsBackup.fields] ]} |}.

(** Uploads time out; everything else is as in [quiet]. *)
Definition srv_upload_timeout : Server := fun k r =>
  match r as r0 return reply (Response r0) with
  | FilesCreate _ _ _ _ => Fail TimeoutError
  | r0 => quiet k r0
  end.

(** The file at [path] only grows, and by records of [n] fields. *)
Definition grows_by_records (path : string) (n : nat) (w w' : World) : Prop :=
  forall rows, disk w !! path = Some rows ->
    exists more, disk w' !! path = Some (rows ++ more) /\
                 Forall (fun row : Row => length row = n) more.

(** The record the forwarding report is to hold for a user whose
    forwarding settings are [settings]: none when forwarding is disabled
    or the forwarding address is the empty string, else the user's
    primary e-mail and full name followed by the address and the
    disposition, with [N/A] for the one the settings lack. *)
Definition user_row (user : User) (settings : AutoForwarding) : option Row :=
  match enabled settings, emailAddress settings with
  | false, _ => None
  | true, Some EmptyString => None
  | true, address =>
      Some [primaryEmail user; fullName user;
            default "N/A" address;
            default "N/A" (disposition settings)]
  end.

Definition dave : User :=
  {| primaryEmail := "dave@example.org"; fullName := "Dave";
     suspended := None |}.

(** Forwarding settings by user: [alice] forwards to an address, [dave]
    has forwarding enabled without an address, nobody else forwards. *)
Definition forwarding_detail (user_email : string) : AutoForwarding :=
  if decide (user_email = "alice@example.org") then
    {| enabled := true; emailAddress := Some "elsewhere@example.org";
       disposition := Some "archive" |}
  else if decide (user_email = "dave@example.org") then
    {| enabled := true; emailAddress := None; disposition := None |}
  else {| enabled := false; emailAddress := Some "old@example.org";
          disposition := Some "trash" |}.

Definition srv_forwarding : Server := fun k r =>
  match r as r0 return reply (Response r0) with
  | GetAutoForwarding u => Reply (forwarding_detail u)
  | r0 => quiet k r0
  end.

(** ** The shared-drive listing *)

(** From remote call number [c] on, the shared drives are served as the
    pages [pages], the last page alone having no cursor (or an empty
    one). *)
Fixpoint serves_drives (srv : Server) (c : nat) (token : option string)
    (pages : list DrivesPage) : Prop :=
  match pages with
  | [] => False
  | page :: rest =>
      srv c (DrivesList token) = Reply page /\
      match rest with
      | [] => truthy (dp_nextPageToken page) = false
      | _ :: _ =>
          truthy (dp_nextPageToken page) = true /\
          serves_drives srv (S c) (dp_nextPageToken page) rest
      end
  end.

(** From remote call number [c] on, the pages [pages] are served, each
    with a cursor, and the request after them fails with [e]. *)
Fixpoint drives_break (srv : Server) (c : nat) (token : option string)
    (pages : list DrivesPage) (e : Exn) : Prop :=
  match pages with
  | [] => srv c (DrivesList token) = Fail e
  | page :: rest =>
      srv c (DrivesList token) = Reply page /\
      truthy (dp_nextPageToken page) = true /\
      drives_break srv (S c) (dp_nextPageToken page) rest e
  end.

Fixpoint drives_requests (token : option string) (pages : list DrivesPage)
    : list Request :=
  match pages with
  | [] => []
  | page :: rest =>
      DrivesList token :: drives_requests (dp_nextPageToken page) rest
  end.

Definition drives_of (pages : list DrivesPage) : list Dict :=
  concat (map (fun page => default [] (dp_drives page)) pages).

Definition drives_cursor_after (token : option string)
    (pages : list DrivesPage) : option string :=
  default token (last (map dp_nextPageToken pages)).

(** The answer of a domain without shared drives. *)
Definition no_drives_page : DrivesPage :=
  {| dp_drives := None; dp_nextPageToken := None |}.

Definition drives_page_1 : DrivesPage :=
  {| dp_drives := Some [drive_1]; dp_nextPageToken := Some "d-2" |}.

Definition drives_page_2 : DrivesPage :=
  {| dp_drives := Some [{[ "id" := "d2"; "name" := "Drive 2" ]}];
     dp_nextPageToken := Some EmptyString |}.

(** Two pages of shared drives; the second ends the listing with an
    empty cursor. *)
Definition srv_paged_drives : Server := fun k r =>
  match r as r0 return reply (Response r0) with
  | DrivesList None => Reply drives_page_1
  | DrivesList (Some _) => Reply drives_page_2
  | r0 => quiet k r0
  end.

(** As [srv_paged_drives], but the second page is refused with 403. *)
Definition srv_drives_listing_breaks : Server := fun k r =>
  match r as r0 return reply (Response r0) with
  | DrivesList None => Reply drives_page_1
  | DrivesList (Some _) => Fail (HttpError 403)
  | r0 => quiet k r0
  end.

(** The user listing is answered 500. *)
Definition srv_users_down : Server := fun k r =>
  match r as r0 return reply (Response r0) with
  | UsersList _ _ => Fail (HttpError 500)
  | r0 => quiet k r0
  end.

(** The member list of every group times out. *)
Definition srv_members_timeout : Server := fun k r =>
  match r as r0 return reply (Response r0) with
  | MembersList _ => Fail TimeoutError
  | r0 => quiet k r0
  end.

(** ** Whole runs against a service that answers at once *)

(** The records of one drive when its permissions are [perms drive_id]. *)
Definition drive_rows (perms : string -> PermissionsPage) (drive : Dict)
    : list Row :=
  match drive !! "id", drive !! "name" with
  | Some drive_id, Some drive_name =>
      map (acl_row drive_name drive_id)
        (default [] (pp_permissions (perms drive_id)))
  | _, _ => []
  end.

(** The permissions request for one drive. *)
Definition drive_request (drive : Dict) : Request :=
  PermissionsList (default EmptyString (drive !! "id")) None.

(** The records of one group when its members are [members email]. *)
Definition group_rows (members : string -> MembersPage) (group : Dict)
    : list Row :=
  match group !! "email" with
  | Some group_email =>
      map (member_row group_email)
        (default [] (mp_members (members group_email)))
  | None => []
  end.

(** The member request for one group. *)
Definition group_request (group : Dict) : Request :=
  MembersList (default EmptyString (group !! "email")).

(** The members of the groups of [srv_happy]: one member each, whose
    address is derived from the group's. *)
Definition members_detail (group_email : string) : MembersPage :=
  {| mp_members := Some [{[ "email" := "owner-of-" +:+ group_email;
                            "role" := "OWNER" ]}];
     mp_nextPageToken := None |}.

(** The permissions of the drives of [srv_happy]. *)
Definition permissions_detail (drive_id : string) : PermissionsPage :=
  {| pp_permissions := Some [{[ "emailAddress" := "admin@example.org";
                                "role" := "organizer"; "type" := "user" ]}];
     pp_nextPageToken := None |}.

(** A service without failures: two pages of groups, two of drives, and
    every detail fetch and upload answered at once. *)
Definition srv_happy : Server := fun k r =>
  match r as r0 return reply (Response r0) with
  | GroupsList _ None => Reply groups_page_1
  | GroupsList _ (Some _) => Reply groups_page_2
  | MembersList g => Reply (members_detail g)
  | DrivesList None => Reply drives_page_1
  | DrivesList (Some _) => Reply drives_page_2
  | PermissionsList d _ => Reply (permissions_detail d)
  | r0 => quiet k r0
  end.

(** ** Collection over a list of groups *)

(** What the retrying member fetch of one group meets: the page on
    attempt [n], after [n - 1] attempts answered 503; 503 on all three
    attempts; or, after [n - 1] attempts answered 503, an HTTP error of
    another status. *)
Inductive MembersOutcome : Type :=
  | MembersAnswered (n : nat) (page : MembersPage)
  | MembersUnavailable
  | MembersRefused (n : nat) (status : Z).

(** The number of [members().list] calls of an outcome. *)
Definition members_attempts (o : MembersOutcome) : nat :=
  match o with
  | MembersAnswered n _ => n
  | MembersUnavailable => 3
  | MembersRefused n _ => n
  end.

(** From remote call number [c] on, the service treats the groups of
    [plan], one after the other, as the plan says; every group has an
    address. *)
Fixpoint members_served (srv : Server) (c : nat)
    (plan : list (Dict * MembersOutcome)) : Prop :=
  match plan with
  | [] => True
  | (group, o) :: rest =>
      match group !! "email" with
      | None => False
      | Some group_email =>
          match o with
          | MembersAnswered n page =>
              1 <= n <= 3 /\
              fails_until srv (MembersList group_email) unavailable c (n - 1) /\
              srv (c + (n - 1)) (MembersList group_email) = Reply page
          | MembersUnavailable =>
              fails_until srv (MembersList group_email) unavailable c 3
          | MembersRefused n status =>
              1 <= n <= 3 /\ status <> 503%Z /\
              fails_until srv (MembersList group_email) unavailable c (n - 1) /\
              srv (c + (n - 1)) (MembersList group_email)
              = Fail (HttpError status)
          end
      end /\
      members_served srv (c + members_attempts o) rest
  end.

(** The records the report is to hold for one group of a plan: those of
    the members of the page, none for a group whose fetch failed. *)
Definition members_records (entry : Dict * MembersOutcome) : list Row :=
  match fst entry !! "email", snd entry with
  | Some group_email, MembersAnswered _ page =>
      map (member_row group_email) (default [] (mp_members page))
  | _, _ => []
  end.

(** The member requests issued for one group of a plan. *)
Definition members_fetches (entry : Dict * MembersOutcome) : list Request :=
  repeat (group_request (fst entry)) (members_attempts (snd entry)).

(** The number of member requests of a plan. *)
Definition members_calls (plan : list (Dict * MembersOutcome)) : nat :=
  length (concat (map members_fetches plan)).

(** What the retrying settings fetch of one group meets: the settings on
    attempt [n], after [n - 1] attempts that failed with an [HttpError]
    or a [TimeoutError]; or such a failure on all three attempts. *)
Inductive SettingsOutcome : Type :=
  | SettingsAnswered (n : nat) (settings : Dict)
  | SettingsUnavailable.

(** The number of [groups().get] calls of an outcome. *)
Definition settings_attempts (o : SettingsOutcome) : nat :=
  match o with
  | SettingsAnswered n _ => n
  | SettingsUnavailable => 3
  end.

(** From remote call number [c] on, the service treats the groups of
    [plan], one after the other, as the plan says; every group has an
    address. *)
Fixpoint settings_served (srv : Server) (c : nat)
    (plan : list (Dict * SettingsOutcome)) : Prop :=
  match plan with
  | [] => True
  | (group, o) :: rest =>
      is_Some (group !! "email") /\
      match o with
      | SettingsAnswered n settings =>
          1 <= n <= 3 /\
          fails_until srv (GroupsSettingsGet (group !! "email"))
            settings_retryable c (n - 1) /\
          srv (c + (n - 1)) (GroupsSettingsGet (group !! "email"))
          = Reply settings
      | SettingsUnavailable =>
          fails_until srv (GroupsSettingsGet (group !! "email"))
            settings_retryable c 3
      end /\
      settings_served srv (c + settings_attempts o) rest
  end.

(** The record the report is to hold for one group of a plan: one for
    settings that are not the empty object, none otherwise. *)
Definition settings_records (entry : Dict * SettingsOutcome) : list Row :=
  match snd entry with
  | SettingsAnswered _ settings =>
      if decide (settings = ∅) then [] else [settings_row settings]
  | SettingsUnavailable => []
  end.

(** The settings requests issued for one group of a plan. *)
Definition settings_fetches (entry : Dict * SettingsOutcome) : list Request :=
  repeat (GroupsSettingsGet (fst entry !! "email"))
    (settings_attempts (snd entry)).

(** The number of settings requests of a plan. *)
Definition settings_calls (plan : list (Dict * SettingsOutcome)) : nat :=
  length (concat (map settings_fetches plan)).

(** The member page and the settings [srv_ten] answers with. *)
Definition one_member_page : MembersPage :=
  {| mp_members := Some [{[ "email" := "x@y.com"; "role" := "MEMBER";
                            "status" := "ACTIVE" ]}];
     mp_nextPageToken := None |}.

Definition ten_settings (group : Dict) : Dict :=
  {[ "email" := default EmptyString (group !! "email"); "name" := "A group" ]}.

(** How [srv_ten] treats the ten groups: the fourth is unavailable, the
    others are answered at once. *)
Definition ten_members_plan : list (Dict * MembersOutcome) :=
  zip ten_groups
    (replicate 3 (MembersAnswered 1 one_member_page)
     ++ MembersUnavailable :: replicate 6 (MembersAnswered 1 one_member_page)).

Definition ten_settings_plan : list (Dict * SettingsOutcome) :=
  map (fun group => (group, SettingsAnswered 1 (ten_settings group)))
    (take 3 ten_groups)
  ++ ({[ "email" := "g4@example.org" ]}, SettingsUnavailable)
  :: map (fun group => (group, SettingsAnswered 1 (ten_settings group)))
       (drop 4 ten_groups).

(** As [srv_ten], but the detail fetches of group [g4@example.org] fail
    with an error of a class their fetcher does not handle: the member
    list times out, the settings request meets an SSL end-of-file. *)
Definition srv_ten_broken : Server := fun k r =>
  match r as r0 return reply (Response r0) with
  | GroupsSettingsGet g =>
      if decide (g = Some "g4@example.org") then Fail SSLEOFError
      else srv_ten k (GroupsSettingsGet g)
  | MembersList g =>
      if decide (g = "g4@example.org") then Fail TimeoutError
      else srv_ten k (MembersList g)
  | r0 => srv_ten k r0
  end.

(** * Properties *)

(** ** Traces *)

(** The world after [length ds] failed attempts of request [rq], each
    followed by a sleep of the corresponding delay of [ds]. *)
Definition retried (rq : Request) (ds : list Z) (w : World) : World :=
  fold_left (fun w d => log (Sleep d) (log (Call rq) w)) ds w.

(** [delay * 2^0; delay * 2^1; ...; delay * 2^(m-1)] *)
Definition exp_delays (delay : Z) (m : nat) : list Z :=
  map (fun i => (delay * 2 ^ Z.of_nat i)%Z) (seq 0 m).

(** [5 * 1; 5 * 2; ...; 5 * m] *)
Definition linear_delays (m : nat) : list Z :=
  map (fun i => (5 * (Z.of_nat i + 1))%Z) (seq 0 m).

Lemma count_calls_call r t : count_calls (Call r :: t) = S (count_calls t).
Proof. reflexivity. Qed.

Lemma count_calls_sleep d t : count_calls (Sleep d :: t) = count_calls t.
Proof. reflexivity. Qed.

Lemma sleeps_call r t : sleeps (Call r :: t) = sleeps t.
Proof.
  unfold sleeps. simpl. rewrite omap_app. simpl. apply app_nil_r.
Qed.

Lemma sleeps_sleep d t : sleeps (Sleep d :: t) = sleeps t ++ [d].
Proof.
  unfold sleeps. simpl. rewrite omap_app. reflexivity.
Qed.

Lemma calls_call r t : calls (Call r :: t) = calls t ++ [r].
Proof.
  unfold calls. simpl. rewrite omap_app. reflexivity.
Qed.

Lemma calls_sleep d t : calls (Sleep d :: t) = calls t.
Proof.
  unfold calls. simpl. rewrite omap_app. simpl. apply app_nil_r.
Qed.

Lemma retried_cons rq d ds w :
  retried rq (d :: ds) w = retried rq ds (log (Sleep d) (log (Call rq) w)).
Proof. reflexivity. Qed.

Lemma count_calls_retried rq ds : forall w,
  count_calls (trace (retried rq ds w)) = count_calls (trace w) + length ds.
Proof.
  induction ds as [|d ds IH]; intros w.
  - simpl. lia.
  - rewrite retried_cons, IH. cbn [trace log length].
    rewrite count_calls_sleep, count_calls_call. lia.
Qed.

Lemma sleeps_retried rq ds : forall w,
  sleeps (trace (retried rq ds w)) = sleeps (trace w) ++ ds.
Proof.
  induction ds as [|d ds IH]; intros w.
  - simpl. now rewrite app_nil_r.
  - rewrite retried_cons, IH. cbn [trace log].
    rewrite sleeps_sleep, sleeps_call, <- app_assoc. reflexivity.
Qed.

Lemma disk_retried rq ds : forall w, disk (retried rq ds w) = disk w.
Proof.
  induction ds as [|d ds IH]; intros w; [reflexivity|].
  rewrite retried_cons, IH. reflexivity.
Qed.

Lemma exp_delays_S delay m :
  exp_delays delay (S m) = delay :: exp_delays (delay * 2) m.
Proof.
  unfold exp_delays. simpl. f_equal.
  - lia.
  - rewrite <- seq_shift, map_map. apply map_ext. intros i.
    rewrite Nat2Z.inj_succ, Z.pow_succ_r by lia. lia.
Qed.

Lemma exp_delays_lookup delay m i :
  i < m -> exp_delays delay m !! i = Some (delay * 2 ^ Z.of_nat i)%Z.
Proof.
  intros Hi. unfold exp_delays.
  rewrite list_lookup_fmap. rewrite lookup_seq_lt by exact Hi. reflexivity.
Qed.

Lemma exp_delays_double delay m i d d' :
  exp_delays delay m !! i = Some d ->
  exp_delays delay m !! S i = Some d' ->
  d' = (d * 2)%Z.
Proof.
  unfold exp_delays. rewrite !list_lookup_fmap. intros H1 H2.
  destruct (seq 0 m !! i) as [a|] eqn:Ea; [|discriminate].
  destruct (seq 0 m !! S i) as [b|] eqn:Eb; [|discriminate].
  apply lookup_seq in Ea as [-> _]. apply lookup_seq in Eb as [-> _].
  simpl in *. injection H1 as <-. injection H2 as <-.
  rewrite Nat2Z.inj_succ, Z.pow_succ_r by lia. lia.
Qed.

Lemma length_exp_delays delay m : length (exp_delays delay m) = m.
Proof. unfold exp_delays. now rewrite length_map, length_seq. Qed.

Lemma length_linear_delays m : length (linear_delays m) = m.
Proof. unfold linear_delays. now rewrite length_map, length_seq. Qed.

(** ** Remote calls *)

Lemma execute_reply srv r w a :
  srv (count_calls (trace w)) r = Reply a ->
  execute srv r w = (Ok a, log (Call r) w).
Proof. intros H. unfold execute. now rewrite H. Qed.

Lemma execute_fail srv r w e :
  srv (count_calls (trace w)) r = Fail e ->
  execute srv r w = (Raise e, log (Call r) w).
Proof. intros H. unfold execute. now rewrite H. Qed.

Lemma for_in_app {X A St} (body : X -> St -> M (ctl A St)) xs ys : forall st w,
  for_in (xs ++ ys) st body w =
  match for_in xs st body w with
  | (Ok (Next st'), w') => for_in ys st' body w'
  | r => r
  end.
Proof.
  induction xs as [|x xs IH]; intros st w; [reflexivity|].
  simpl. unfold bind.
  destruct (body x st w) as [[[a|st']|e|] w']; try reflexivity.
  apply IH.
Qed.

Lemma for_each_app {X} (body : X -> M unit) xs ys : forall w,
  for_each (xs ++ ys) body w =
  match for_each xs body w with
  | (Ok _, w') => for_each ys body w'
  | r => r
  end.
Proof.
  induction xs as [|x xs IH]; intros w; [reflexivity|].
  simpl. unfold bind.
  destruct (body x w) as [[[]|e|] w']; try reflexivity.
  apply IH.
Qed.

(** ** The retry loop of [get_forwarding_settings] *)

Section ForwardingRetry.
Variable srv : Server.
Variable user_email : string.

Lemma fwd_attempt_429 a d w :
  srv (count_calls (trace w)) (GetAutoForwarding user_email) = Fail (HttpError 429) ->
  UsersForwarding.get_forwarding_settings_attempt srv user_email a d w =
  (Ok (Next (d * 2)%Z),
   log (Sleep d) (log (Call (GetAutoForwarding user_email)) w)).
Proof.
  intros H. unfold UsersForwarding.get_forwarding_settings_attempt, try_except, bind.
  rewrite (execute_fail _ _ _ _ H). reflexivity.
Qed.

Lemma fwd_attempt_ok a d w s :
  srv (count_calls (trace w)) (GetAutoForwarding user_email) = Reply s ->
  UsersForwarding.get_forwarding_settings_attempt srv user_email a d w =
  (Ok (Return (UsersForwarding.forwarding_of s)),
   log (Call (GetAutoForwarding user_email)) w).
Proof.
  intros H. unfold UsersForwarding.get_forwarding_settings_attempt, try_except, bind.
  rewrite (execute_reply _ _ _ _ H). reflexivity.
Qed.

Lemma fwd_attempt_other a d w status :
  status <> 429%Z ->
  srv (count_calls (trace w)) (GetAutoForwarding user_email) = Fail (HttpError status) ->
  UsersForwarding.get_forwarding_settings_attempt srv user_email a d w =
  (Ok (Return (None, None)), log (Call (GetAutoForwarding user_email)) w).
Proof.
  intros Hs H. unfold UsersForwarding.get_forwarding_settings_attempt, try_except, bind.
  rewrite (execute_fail _ _ _ _ H).
  destruct (Z.eqb_spec status 429); [contradiction|reflexivity].
Qed.

Lemma fwd_attempts_429 : forall xs d w,
  (forall k, k < length xs ->
     srv (count_calls (trace w) + k) (GetAutoForwarding user_email)
     = Fail (HttpError 429)) ->
  for_in xs d (UsersForwarding.get_forwarding_settings_attempt srv user_email) w =
  (Ok (Next (d * 2 ^ Z.of_nat (length xs))%Z),
   retried (GetAutoForwarding user_email) (exp_delays d (length xs)) w).
Proof.
  induction xs as [|a xs IH]; intros d w H.
  - cbn [for_in length]. change (Z.of_nat 0) with 0%Z.
    rewrite Z.pow_0_r, Z.mul_1_r. reflexivity.
  - cbn [for_in length]. unfold bind.
    rewrite fwd_attempt_429 by (rewrite <- (H 0); [f_equal; lia | simpl; lia]).
    rewrite IH.
    + rewrite exp_delays_S, retried_cons. do 3 f_equal.
      rewrite Nat2Z.inj_succ, Z.pow_succ_r by lia. lia.
    + intros k Hk. cbn [trace log].
      rewrite count_calls_sleep, count_calls_call.
      rewrite <- (H (S k)); [f_equal; lia | simpl; lia].
Qed.

(** [n - 1] rate-limited attempts, then an answer on attempt [n]. *)
Lemma get_forwarding_settings_retry_ok retries delay w n s :
  1 <= n <= retries ->
  (forall k, k < n - 1 ->
     srv (count_calls (trace w) + k) (GetAutoForwarding user_email)
     = Fail (HttpError 429)) ->
  srv (count_calls (trace w) + (n - 1)) (GetAutoForwarding user_email) = Reply s ->
  UsersForwarding.get_forwarding_settings srv user_email retries delay w =
  (Ok (UsersForwarding.forwarding_of s),
   log (Call (GetAutoForwarding user_email))
     (retried (GetAutoForwarding user_email) (exp_delays delay (n - 1)) w)).
Proof.
  intros Hn Hfail Hok.
  unfold UsersForwarding.get_forwarding_settings, range, bind.
  replace retries with ((n - 1) + S (retries - n)) by lia.
  rewrite seq_app, for_in_app.
  rewrite fwd_attempts_429 by (rewrite length_seq; exact Hfail).
  rewrite length_seq. cbn [seq for_in]. unfold bind.
  rewrite (fwd_attempt_ok _ _ _ s); [reflexivity|].
  rewrite count_calls_retried, length_exp_delays. exact Hok.
Qed.

(** Every attempt is rate-limited. *)
Lemma get_forwarding_settings_exhausted retries delay w :
  (forall k, k < retries ->
     srv (count_calls (trace w) + k) (GetAutoForwarding user_email)
     = Fail (HttpError 429)) ->
  UsersForwarding.get_forwarding_settings srv user_email retries delay w =
  (Ok (None, None),
   retried (GetAutoForwarding user_email) (exp_delays delay retries) w).
Proof.
  intros Hfail.
  unfold UsersForwarding.get_forwarding_settings, range, bind.
  rewrite fwd_attempts_429 by (rewrite length_seq; exact Hfail).
  rewrite length_seq. reflexivity.
Qed.

(** A first error that is an [HttpError] other than 429. *)
Lemma get_forwarding_settings_fatal retries delay w status :
  1 <= retries ->
  status <> 429%Z ->
  srv (count_calls (trace w)) (GetAutoForwarding user_email) = Fail (HttpError status) ->
  UsersForwarding.get_forwarding_settings srv user_email retries delay w =
  (Ok (None, None), log (Call (GetAutoForwarding user_email)) w).
Proof.
  intros Hr Hs H.
  unfold UsersForwarding.get_forwarding_settings, range, bind.
  destruct retries as [|r]; [lia|]. cbn [seq for_in]. unfold bind.
  rewrite (fwd_attempt_other _ _ _ status) by assumption. reflexivity.
Qed.
End ForwardingRetry.

(** ** Retry loops without loop-carried variables *)

(** As long as the attempts below [bound] fail in a way that makes the
    body sleep and go on, the loop issues one call and one sleep per
    attempt. *)
Lemma for_in_retrying {A} (body : nat -> unit -> M (ctl A unit)) (rq : Request)
    (delay_of : nat -> Z) (fails : nat -> Prop) (bound : nat) :
  (forall a w, a < bound -> fails (count_calls (trace w)) ->
     body a tt w = (Ok (Next tt), log (Sleep (delay_of a)) (log (Call rq) w))) ->
  forall m a w,
    a + m <= bound ->
    (forall k, k < m -> fails (count_calls (trace w) + k)) ->
    for_in (seq a m) tt body w =
    (Ok (Next tt), retried rq (map delay_of (seq a m)) w).
Proof.
  intros Hstep. induction m as [|m IH]; intros a w Hb Hf; [reflexivity|].
  cbn [seq for_in map]. unfold bind.
  rewrite Hstep; [|lia|].
  - rewrite IH; [reflexivity|lia|].
    intros k Hk. cbn [trace log]. rewrite count_calls_sleep, count_calls_call.
    replace (S (count_calls (trace w)) + k) with (count_calls (trace w) + S k) by lia.
    apply Hf. lia.
  - replace (count_calls (trace w)) with (count_calls (trace w) + 0) by lia.
    apply Hf. lia.
Qed.

Lemma map_const_seq (d : Z) a m : map (fun _ : nat => d) (seq a m) = repeat d m.
Proof.
  revert a. induction m as [|m IH]; intros a; [reflexivity|].
  simpl. now rewrite IH.
Qed.

(** ** The retry loop of [get_group_settings] *)

Section SettingsRetry.
Variable srv : Server.
Variable group_email : option string.

Lemma settings_attempt_retry max_retries a w :
  a < max_retries - 1 ->
  (exists e, srv (count_calls (trace w)) (GroupsSettingsGet group_email) = Fail e
             /\ settings_retryable e) ->
  GgSettingsBackup.get_group_settings_attempt srv max_retries group_email a tt w =
  (Ok (Next tt),
   log (Sleep (5 * (Z.of_nat a + 1))) (log (Call (GroupsSettingsGet group_email)) w)).
Proof.
  intros Ha (e & H & He).
  unfold GgSettingsBackup.get_group_settings_attempt, try_except, bind.
  rewrite (execute_fail _ _ _ _ H).
  apply Nat.ltb_lt in Ha. cbv zeta. rewrite Ha.
  destruct He as [-> | [status ->]]; reflexivity.
Qed.

Lemma settings_attempt_last max_retries a w :
  ~ a < max_retries - 1 ->
  (exists e, srv (count_calls (trace w)) (GroupsSettingsGet group_email) = Fail e
             /\ settings_retryable e) ->
  GgSettingsBackup.get_group_settings_attempt srv max_retries group_email a tt w =
  (Ok (Return None), log (Call (GroupsSettingsGet group_email)) w).
Proof.
  intros Ha (e & H & He).
  unfold GgSettingsBackup.get_group_settings_attempt, try_except, bind.
  rewrite (execute_fail _ _ _ _ H).
  apply Nat.ltb_nlt in Ha. cbv zeta. rewrite Ha.
  destruct He as [-> | [status ->]]; reflexivity.
Qed.

Lemma settings_attempt_ok max_retries a w s :
  srv (count_calls (trace w)) (GroupsSettingsGet group_email) = Reply s ->
  GgSettingsBackup.get_group_settings_attempt srv max_retries group_email a tt w =
  (Ok (Return (Some s)), log (Call (GroupsSettingsGet group_email)) w).
Proof.
  intros H. unfold GgSettingsBackup.get_group_settings_attempt, try_except, bind.
  rewrite (execute_reply _ _ _ _ H). reflexivity.
Qed.

Lemma settings_attempt_raise max_retries a w e :
  ~ settings_retryable e ->
  srv (count_calls (trace w)) (GroupsSettingsGet group_email) = Fail e ->
  GgSettingsBackup.get_group_settings_attempt srv max_retries group_email a tt w =
  (Raise e, log (Call (GroupsSettingsGet group_email)) w).
Proof.
  intros He H. unfold GgSettingsBackup.get_group_settings_attempt, try_except, bind.
  rewrite (execute_fail _ _ _ _ H).
  destruct e; try reflexivity; exfalso; apply He; unfold settings_retryable; eauto.
Qed.

Lemma settings_attempts_fail max_retries m w :
  m <= max_retries - 1 ->
  (forall k, k < m ->
     exists e, srv (count_calls (trace w) + k) (GroupsSettingsGet group_email) = Fail e
               /\ settings_retryable e) ->
  for_in (seq 0 m) tt
    (GgSettingsBackup.get_group_settings_attempt srv max_retries group_email) w =
  (Ok (Next tt), retried (GroupsSettingsGet group_email) (linear_delays m) w).
Proof.
  intros Hm Hf.
  apply (for_in_retrying _ _ _
           (fun i => exists e, srv i (GroupsSettingsGet group_email) = Fail e
                               /\ settings_retryable e) (max_retries - 1)).
  - intros a w' Ha Hfa. now apply settings_attempt_retry.
  - lia.
  - exact Hf.
Qed.

Lemma get_group_settings_with_retry_ok max_retries w n s :
  1 <= n <= max_retries ->
  (forall k, k < n - 1 ->
     exists e, srv (count_calls (trace w) + k) (GroupsSettingsGet group_email) = Fail e
               /\ settings_retryable e) ->
  srv (count_calls (trace w) + (n - 1)) (GroupsSettingsGet group_email) = Reply s ->
  GgSettingsBackup.get_group_settings_with srv max_retries group_email w =
  (Ok (Some s),
   log (Call (GroupsSettingsGet group_email))
     (retried (GroupsSettingsGet group_email) (linear_delays (n - 1)) w)).
Proof.
  intros Hn Hfail Hok.
  unfold GgSettingsBackup.get_group_settings_with, range, bind.
  replace max_retries with ((n - 1) + S (max_retries - n)) at 1 by lia.
  rewrite seq_app, for_in_app.
  rewrite settings_attempts_fail by (lia || exact Hfail).
  cbn [seq for_in]. unfold bind.
  rewrite (settings_attempt_ok _ _ _ s); [reflexivity|].
  rewrite count_calls_retried, length_linear_delays. exact Hok.
Qed.

Lemma get_group_settings_with_exhausted max_retries w :
  1 <= max_retries ->
  (forall k, k < max_retries ->
     exists e, srv (count_calls (trace w) + k) (GroupsSettingsGet group_email) = Fail e
               /\ settings_retryable e) ->
  GgSettingsBackup.get_group_settings_with srv max_retries group_email w =
  (Ok None,
   log (Call (GroupsSettingsGet group_email))
     (retried (GroupsSettingsGet group_email) (linear_delays (max_retries - 1)) w)).
Proof.
  intros Hmax Hfail.
  unfold GgSettingsBackup.get_group_settings_with, range, bind.
  replace max_retries with ((max_retries - 1) + 1) at 1 by lia.
  rewrite seq_app, for_in_app.
  rewrite settings_attempts_fail by (lia || (intros; apply Hfail; lia)).
  cbn [seq for_in]. unfold bind.
  rewrite settings_attempt_last; [reflexivity|lia|].
  rewrite count_calls_retried, length_linear_delays. apply Hfail. lia.
Qed.

Lemma get_group_settings_with_raise max_retries w e :
  1 <= max_retries ->
  ~ settings_retryable e ->
  srv (count_calls (trace w)) (GroupsSettingsGet group_email) = Fail e ->
  GgSettingsBackup.get_group_settings_with srv max_retries group_email w =
  (Raise e, log (Call (GroupsSettingsGet group_email)) w).
Proof.
  intros Hmax He H.
  unfold GgSettingsBackup.get_group_settings_with, range, bind.
  destruct max_retries as [|r]; [lia|]. cbn [seq for_in]. unfold bind.
  rewrite (settings_attempt_raise _ _ _ e) by assumption. reflexivity.
Qed.
End SettingsRetry.

(** ** The retry loop of [get_group_members] *)

Section MembersRetry.
Variable srv : Server.
Variable group_email : string.

Lemma members_attempt_retry retries delay a w :
  a < retries - 1 ->
  srv (count_calls (trace w)) (MembersList group_email) = Fail (HttpError 503) ->
  GroupsBackup.get_group_members_attempt srv group_email retries delay a tt w =
  (Ok (Next tt), log (Sleep delay) (log (Call (MembersList group_email)) w)).
Proof.
  intros Ha H.
  unfold GroupsBackup.get_group_members_attempt, try_except, bind.
  rewrite (execute_fail _ _ _ _ H).
  apply Nat.ltb_lt in Ha. rewrite Ha. reflexivity.
Qed.

Lemma members_attempt_last retries delay a w :
  ~ a < retries - 1 ->
  srv (count_calls (trace w)) (MembersList group_email) = Fail (HttpError 503) ->
  GroupsBackup.get_group_members_attempt srv group_email retries delay a tt w =
  (Ok (Return (Some [])), log (Call (MembersList group_email)) w).
Proof.
  intros Ha H.
  unfold GroupsBackup.get_group_members_attempt, try_except, bind.
  rewrite (execute_fail _ _ _ _ H).
  apply Nat.ltb_nlt in Ha. rewrite Ha. reflexivity.
Qed.

Lemma members_attempt_ok retries delay a w page :
  srv (count_calls (trace w)) (MembersList group_email) = Reply page ->
  GroupsBackup.get_group_members_attempt srv group_email retries delay a tt w =
  (Ok (Return (Some (default [] (mp_members page)))),
   log (Call (MembersList group_email)) w).
Proof.
  intros H. unfold GroupsBackup.get_group_members_attempt, try_except, bind.
  rewrite (execute_reply _ _ _ _ H). reflexivity.
Qed.

Lemma members_attempt_raise retries delay a w e :
  e <> HttpError 503 ->
  srv (count_calls (trace w)) (MembersList group_email) = Fail e ->
  GroupsBackup.get_group_members_attempt srv group_email retries delay a tt w =
  (Raise e, log (Call (MembersList group_email)) w).
Proof.
  intros He H. unfold GroupsBackup.get_group_members_attempt, try_except, bind.
  rewrite (execute_fail _ _ _ _ H).
  destruct e as [status| | | | | |]; try reflexivity.
  destruct (Z.eqb_spec status 503) as [->|Hne]; [congruence|reflexivity].
Qed.

Lemma members_attempts_fail retries delay m w :
  m <= retries - 1 ->
  (forall k, k < m ->
     srv (count_calls (trace w) + k) (MembersList group_email) = Fail (HttpError 503)) ->
  for_in (seq 0 m) tt
    (GroupsBackup.get_group_members_attempt srv group_email retries delay) w =
  (Ok (Next tt), retried (MembersList group_email) (repeat delay m) w).
Proof.
  intros Hm Hf. rewrite <- (map_const_seq delay 0 m).
  apply (for_in_retrying _ _ _
           (fun i => srv i (MembersList group_email) = Fail (HttpError 503))
           (retries - 1)).
  - intros a w' Ha Hfa. now apply members_attempt_retry.
  - lia.
  - exact Hf.
Qed.

Lemma get_group_members_retry_ok retries delay w n page :
  1 <= n <= retries ->
  (forall k, k < n - 1 ->
     srv (count_calls (trace w) + k) (MembersList group_email) = Fail (HttpError 503)) ->
  srv (count_calls (trace w) + (n - 1)) (MembersList group_email) = Reply page ->
  GroupsBackup.get_group_members srv group_email retries delay w =
  (Ok (Some (default [] (mp_members page))),
   log (Call (MembersList group_email))
     (retried (MembersList group_email) (repeat delay (n - 1)) w)).
Proof.
  intros Hn Hfail Hok.
  unfold GroupsBackup.get_group_members, range, bind.
  replace retries with ((n - 1) + S (retries - n)) at 1 by lia.
  rewrite seq_app, for_in_app.
  rewrite members_attempts_fail by (lia || exact Hfail).
  cbn [seq for_in]. unfold bind.
  rewrite (members_attempt_ok _ _ _ _ page); [reflexivity|].
  rewrite count_calls_retried, repeat_length. exact Hok.
Qed.

Lemma get_group_members_exhausted retries delay w :
  1 <= retries ->
  (forall k, k < retries ->
     srv (count_calls (trace w) + k) (MembersList group_email) = Fail (HttpError 503)) ->
  GroupsBackup.get_group_members srv group_email retries delay w =
  (Ok (Some []),
   log (Call (MembersList group_email))
     (retried (MembersList group_email) (repeat delay (retries - 1)) w)).
Proof.
  intros Hr Hfail.
  unfold GroupsBackup.get_group_members, range, bind.
  replace retries with ((retries - 1) + 1) at 1 by lia.
  rewrite seq_app, for_in_app.
  rewrite members_attempts_fail by (lia || (intros; apply Hfail; lia)).
  cbn [seq for_in]. unfold bind.
  rewrite members_attempt_last; [reflexivity|lia|].
  rewrite count_calls_retried, repeat_length. apply Hfail. lia.
Qed.

Lemma get_group_members_raise retries delay w e :
  1 <= retries ->
  e <> HttpError 503 ->
  srv (count_calls (trace w)) (MembersList group_email) = Fail e ->
  GroupsBackup.get_group_members srv group_email retries delay w =
  (Raise e, log (Call (MembersList group_email)) w).
Proof.
  intros Hr He H.
  unfold GroupsBackup.get_group_members, range, bind.
  destruct retries as [|r]; [lia|]. cbn [seq for_in]. unfold bind.
  rewrite (members_attempt_raise _ _ _ _ e) by assumption. reflexivity.
Qed.
End MembersRetry.

(** ** The retry loop of [upload_file_to_drive] *)

Lemma upload_file_to_drive_same :
  GgSettingsBackup.upload_file_to_drive = GroupsBackup.upload_file_to_drive.
Proof. reflexivity. Qed.

Section UploadRetry.
Variable srv : Server.
Variables filename folder_id : string.
Variable media : list Row.

Lemma upload_attempt_retry retries delay a w :
  a < retries - 1 ->
  (exists e, srv (count_calls (trace w)) (FilesCreate filename folder_id None media)
             = Fail e /\ upload_retryable e) ->
  GroupsBackup.upload_attempt srv filename folder_id media retries delay a tt w =
  (Ok (Next tt),
   log (Sleep delay) (log (Call (FilesCreate filename folder_id None media)) w)).
Proof.
  intros Ha (e & H & He).
  unfold GroupsBackup.upload_attempt, try_except, bind.
  rewrite (execute_fail _ _ _ _ H).
  apply Nat.ltb_lt in Ha. rewrite Ha.
  destruct He as [-> | [status ->]]; reflexivity.
Qed.


Lemma upload_attempt_ok retries delay a w file :
  srv (count_calls (trace w)) (FilesCreate filename folder_id None media) = Reply file ->
  GroupsBackup.upload_attempt srv filename folder_id media retries delay a tt w =
  (Ok (Return (file !! "id")),
   log (Call (FilesCreate filename folder_id None media)) w).
Proof.
  intros H. unfold GroupsBackup.upload_attempt, try_except, bind.
  rewrite (execute_reply _ _ _ _ H). reflexivity.
Qed.

Lemma upload_attempts_fail retries delay m w :
  m <= retries - 1 ->
  (forall k, k < m ->
     exists e, srv (count_calls (trace w) + k)
                 (FilesCreate filename folder_id None media) = Fail e
               /\ upload_retryable e) ->
  for_in (seq 0 m) tt
    (GroupsBackup.upload_attempt srv filename folder_id media retries delay) w =
  (Ok (Next tt),
   retried (FilesCreate filename folder_id None media) (repeat delay m) w).
Proof.
  intros Hm Hf. rewrite <- (map_const_seq delay 0 m).
  apply (for_in_retrying _ _ _
           (fun i => exists e, srv i (FilesCreate filename folder_id None media) = Fail e
                               /\ upload_retryable e)
           (retries - 1)).
  - intros a w' Ha Hfa. now apply upload_attempt_retry.
  - lia.
  - exact Hf.
Qed.

Lemma upload_file_to_drive_retry_ok csv_file retries delay w n file :
  disk w !! csv_file = Some media ->
  1 <= n <= retries ->
  (forall k, k < n - 1 ->
     exists e, srv (count_calls (trace w) + k)
                 (FilesCreate filename folder_id None media) = Fail e
               /\ upload_retryable e) ->
  srv (count_calls (trace w) + (n - 1)) (FilesCreate filename folder_id None media)
  = Reply file ->
  GroupsBackup.upload_file_to_drive srv csv_file filename folder_id retries delay w =
  (Ok (file !! "id"),
   log (Call (FilesCreate filename folder_id None media))
     (retried (FilesCreate filename folder_id None media) (repeat delay (n - 1)) w)).
Proof.
  intros Hd Hn Hfail Hok.
  unfold GroupsBackup.upload_file_to_drive, range, bind, read_file. rewrite Hd.
  replace retries with ((n - 1) + S (retries - n)) at 1 by lia.
  rewrite seq_app, for_in_app.
  rewrite upload_attempts_fail by (lia || exact Hfail).
  cbn [seq for_in]. unfold bind.
  rewrite (upload_attempt_ok _ _ _ _ file); [reflexivity|].
  rewrite count_calls_retried, repeat_length. exact Hok.
Qed.

End UploadRetry.

Lemma calls_retried rq ds : forall w,
  calls (trace (retried rq ds w)) = calls (trace w) ++ repeat rq (length ds).
Proof.
  induction ds as [|d ds IH]; intros w.
  - simpl. now rewrite app_nil_r.
  - rewrite retried_cons, IH. cbn [trace log length repeat].
    rewrite calls_sleep, calls_call, <- app_assoc. reflexivity.
Qed.

Lemma calls_retried_then_call rq ds w :
  calls (trace (log (Call rq) (retried rq ds w))) =
  calls (trace w) ++ repeat rq (S (length ds)).
Proof.
  cbn [trace log]. rewrite calls_call, calls_retried, <- app_assoc.
  f_equal. symmetry. apply repeat_cons.
Qed.

Lemma fails_until_eq srv rq e0 c0 n :
  fails_until srv rq (fun e => e = e0) c0 n ->
  forall k, k < n -> srv (c0 + k) rq = Fail e0.
Proof. intros H k Hk. destruct (H k Hk) as (e & -> & ->). reflexivity. Qed.

(** ** Retrying fetchers: results and number of invocations *)

(** C1, as the code has it.  In [get_forwarding_settings] (retryable:
    HTTP 429) and in [get_group_settings] (retryable: every [HttpError]
    and [TimeoutError], three attempts): when the first [n - 1]
    invocations fail with a retryable error and invocation [n] succeeds,
    [n] within the attempt bound, the fetcher returns the success value
    and has invoked the operation exactly [n] times; when every invocation
    up to the bound fails with a retryable error, the operation is invoked
    exactly that many times and the fetcher returns its missing marker
    ([(None, None)], [None]) instead of raising. *)
Theorem retrying_fetch_result_and_attempts :
  (forall srv user_email retries delay w n s,
     1 <= n <= retries ->
     fails_until srv (GetAutoForwarding user_email) rate_limited
       (count_calls (trace w)) (n - 1) ->
     srv (count_calls (trace w) + (n - 1)) (GetAutoForwarding user_email) = Reply s ->
     let out := UsersForwarding.get_forwarding_settings srv user_email retries delay w in
     fst out = Ok (UsersForwarding.forwarding_of s) /\
     calls (trace (snd out)) =
       calls (trace w) ++ repeat (GetAutoForwarding user_email) n)
  /\ (forall srv user_email retries delay w,
     fails_until srv (GetAutoForwarding user_email) rate_limited
       (count_calls (trace w)) retries ->
     let out := UsersForwarding.get_forwarding_settings srv user_email retries delay w in
     fst out = Ok (None, None) /\
     calls (trace (snd out)) =
       calls (trace w) ++ repeat (GetAutoForwarding user_email) retries)
  /\ (forall srv group_email w n s,
     1 <= n <= 3 ->
     fails_until srv (GroupsSettingsGet group_email) settings_retryable
       (count_calls (trace w)) (n - 1) ->
     srv (count_calls (trace w) + (n - 1)) (GroupsSettingsGet group_email) = Reply s ->
     let out := GgSettingsBackup.get_group_settings srv group_email w in
     fst out = Ok (Some s) /\
     calls (trace (snd out)) =
       calls (trace w) ++ repeat (GroupsSettingsGet group_email) n)
  /\ (forall srv group_email w,
     fails_until srv (GroupsSettingsGet group_email) settings_retryable
       (count_calls (trace w)) 3 ->
     let out := GgSettingsBackup.get_group_settings srv group_email w in
     fst out = Ok None /\
     calls (trace (snd out)) =
       calls (trace w) ++ repeat (GroupsSettingsGet group_email) 3).
Proof.
  repeat split.
  - rewrite (get_forwarding_settings_retry_ok srv user_email retries delay w n s);
      [reflexivity | assumption | | assumption].
    now apply (fails_until_eq _ _ (HttpError 429)).
  - rewrite (get_forwarding_settings_retry_ok srv user_email retries delay w n s);
      [ | assumption | | assumption].
    + cbn [snd]. rewrite calls_retried_then_call, length_exp_delays.
      do 2 f_equal. lia.
    + now apply (fails_until_eq _ _ (HttpError 429)).
  - rewrite get_forwarding_settings_exhausted; [reflexivity|].
    now apply (fails_until_eq _ _ (HttpError 429)).
  - rewrite get_forwarding_settings_exhausted.
    + cbn [snd]. now rewrite calls_retried, length_exp_delays.
    + now apply (fails_until_eq _ _ (HttpError 429)).
  - unfold GgSettingsBackup.get_group_settings.
    rewrite (get_group_settings_with_retry_ok srv group_email 3 w n s);
      [reflexivity | assumption..].
  - unfold GgSettingsBackup.get_group_settings.
    rewrite (get_group_settings_with_retry_ok srv group_email 3 w n s);
      [ | assumption..].
    cbn [snd]. rewrite calls_retried_then_call, length_linear_delays.
    do 2 f_equal. lia.
  - unfold GgSettingsBackup.get_group_settings.
    rewrite get_group_settings_with_exhausted; [reflexivity | lia | assumption].
  - unfold GgSettingsBackup.get_group_settings.
    rewrite get_group_settings_with_exhausted; [ | lia | assumption].
    cbn [snd]. now rewrite calls_retried_then_call, length_linear_delays.
Qed.

Lemma srv_flaky_forwarding_fails_twice :
  fails_until srv_flaky (GetAutoForwarding "u@example.org") rate_limited
    (count_calls (trace world0)) (3 - 1).
Proof.
  intros k Hk. exists (HttpError 429).
  destruct k as [|[|k]]; [split; reflexivity..|simpl in Hk; lia].
Defined.

(** Two rate-limited attempts, then the forwarding settings on the third. *)
Lemma retrying_fetch_result_and_attempts_witness :
  let out := UsersForwarding.get_forwarding_settings srv_flaky "u@example.org" 5 30 world0 in
  fst out = Ok (Some "elsewhere@example.org", Some "archive") /\
  calls (trace (snd out)) = repeat (GetAutoForwarding "u@example.org") 3.
Proof.
  apply (proj1 retrying_fetch_result_and_attempts srv_flaky "u@example.org" 5 30%Z
           world0 3
           {| enabled := true; emailAddress := Some "elsewhere@example.org";
              disposition := Some "archive" |}).
  - lia.
  - exact srv_flaky_forwarding_fails_twice.
  - reflexivity.
Defined.

(** C1 as stated fails: after three refused attempts [get_group_settings]
    returns [None], and after five rate-limited attempts
    [get_forwarding_settings] returns [(None, None)]; neither raises. *)
Lemma exhausted_retries_return_marker :
  let out := GgSettingsBackup.get_group_settings srv_unavailable
               (Some "g@example.org") world0 in
  let out' := UsersForwarding.get_forwarding_settings srv_unavailable
                "u@example.org" 5 30 world0 in
  (fst out = Ok None /\ (forall e, fst out <> Raise e) /\
   count_calls (trace (snd out)) = 3) /\
  (fst out' = Ok (None, None) /\ (forall e, fst out' <> Raise e) /\
   count_calls (trace (snd out')) = 5).
Proof.
  cbv zeta. repeat split; try reflexivity; intros e; vm_compute; discriminate.
Qed.

(** ** Retrying fetchers: errors that are not retried *)

(** C3, as the code has it.  [get_group_members] re-raises any error but
    HTTP 503 after one invocation and no sleep; [get_forwarding_settings]
    turns an [HttpError] other than 429 into [(None, None)] after one
    invocation and no sleep.  [get_group_settings] sorts errors by
    exception class only: an exception that is neither [HttpError] nor
    [TimeoutError] propagates after one invocation, while an [HttpError]
    of any status, 403 included, is retried: three invocations with
    sleeps of 5 and 10 seconds when it persists. *)
Theorem non_retryable_error_single_attempt :
  (forall srv group_email retries delay w e,
     1 <= retries ->
     ~ unavailable e ->
     srv (count_calls (trace w)) (MembersList group_email) = Fail e ->
     GroupsBackup.get_group_members srv group_email retries delay w =
     (Raise e, log (Call (MembersList group_email)) w))
  /\ (forall srv user_email retries delay w status,
     1 <= retries ->
     ~ rate_limited (HttpError status) ->
     srv (count_calls (trace w)) (GetAutoForwarding user_email)
     = Fail (HttpError status) ->
     UsersForwarding.get_forwarding_settings srv user_email retries delay w =
     (Ok (None, None), log (Call (GetAutoForwarding user_email)) w))
  /\ (forall srv group_email w e,
     ~ settings_retryable e ->
     srv (count_calls (trace w)) (GroupsSettingsGet group_email) = Fail e ->
     GgSettingsBackup.get_group_settings srv group_email w =
     (Raise e, log (Call (GroupsSettingsGet group_email)) w))
  /\ (forall srv group_email w,
     fails_until srv (GroupsSettingsGet group_email)
       (fun e => exists status, e = HttpError status) (count_calls (trace w)) 3 ->
     GgSettingsBackup.get_group_settings srv group_email w =
     (Ok None,
      log (Call (GroupsSettingsGet group_email))
        (retried (GroupsSettingsGet group_email) [5; 10]%Z w))).
Proof.
  repeat split.
  - intros srv group_email retries delay w e Hr He H.
    now apply get_group_members_raise.
  - intros srv user_email retries delay w status Hr Hs H.
    apply (get_forwarding_settings_fatal _ _ _ _ _ status); [assumption| |assumption].
    intros ->. now apply Hs.
  - intros srv group_email w e He H.
    apply get_group_settings_with_raise; [lia|assumption..].
  - intros srv group_email w H.
    unfold GgSettingsBackup.get_group_settings.
    apply (get_group_settings_with_exhausted srv group_email 3 w); [lia|].
    intros k Hk. destruct (H k Hk) as (e & He & Hs).
    exists e. split; [assumption|]. now right.
Qed.

(** A 403 on the member list of a group: one call, no sleep, re-raised. *)
Lemma non_retryable_error_single_attempt_witness :
  GroupsBackup.get_group_members srv_forbidden "g@example.org" 3 5 world0 =
  (Raise (HttpError 403), log (Call (MembersList "g@example.org")) world0).
Proof.
  apply (proj1 non_retryable_error_single_attempt srv_forbidden "g@example.org"
           3 5%Z world0 (HttpError 403)).
  - lia.
  - unfold unavailable. discriminate.
  - reflexivity.
Defined.

(** C3 as stated fails: [get_group_settings] meets a 403 on every attempt
    and still invokes the operation three times, sleeping 5 and then 10
    seconds in between. *)
Lemma get_group_settings_retries_403 :
  let out := GgSettingsBackup.get_group_settings srv_forbidden
               (Some "g@example.org") world0 in
  calls (trace (snd out)) = repeat (GroupsSettingsGet (Some "g@example.org")) 3 /\
  count_calls (trace (snd out)) <> 1 /\
  sleeps (trace (snd out)) = [5; 10]%Z.
Proof.
  cbv zeta. repeat split; try reflexivity. vm_compute. discriminate.
Qed.

(** ** Backoff delays *)

(** C4, as the code has it.  The delays [get_forwarding_settings] sleeps
    are [delay * 2^0], [delay * 2^1], ...: one after every rate-limited
    attempt, the last attempt included.  [get_group_settings] sleeps
    [5 * k] seconds after failed attempt [k] (5, then 10: the third
    attempt is the last).  [get_group_members] sleeps the same [delay]
    after every failed attempt but the last. *)
Theorem backoff_delay_sequences :
  (forall srv user_email retries delay w n s,
     1 <= n <= retries ->
     fails_until srv (GetAutoForwarding user_email) rate_limited
       (count_calls (trace w)) (n - 1) ->
     srv (count_calls (trace w) + (n - 1)) (GetAutoForwarding user_email) = Reply s ->
     sleeps (trace (snd (UsersForwarding.get_forwarding_settings
                           srv user_email retries delay w))) =
     sleeps (trace w) ++ exp_delays delay (n - 1))
  /\ (forall srv user_email retries delay w,
     fails_until srv (GetAutoForwarding user_email) rate_limited
       (count_calls (trace w)) retries ->
     sleeps (trace (snd (UsersForwarding.get_forwarding_settings
                           srv user_email retries delay w))) =
     sleeps (trace w) ++ exp_delays delay retries)
  /\ (forall srv group_email w n s,
     1 <= n <= 3 ->
     fails_until srv (GroupsSettingsGet group_email) settings_retryable
       (count_calls (trace w)) (n - 1) ->
     srv (count_calls (trace w) + (n - 1)) (GroupsSettingsGet group_email) = Reply s ->
     sleeps (trace (snd (GgSettingsBackup.get_group_settings srv group_email w))) =
     sleeps (trace w) ++ linear_delays (n - 1))
  /\ (forall srv group_email w,
     fails_until srv (GroupsSettingsGet group_email) settings_retryable
       (count_calls (trace w)) 3 ->
     sleeps (trace (snd (GgSettingsBackup.get_group_settings srv group_email w))) =
     sleeps (trace w) ++ [5; 10]%Z)
  /\ (forall srv group_email retries delay w n page,
     1 <= n <= retries ->
     fails_until srv (MembersList group_email) unavailable
       (count_calls (trace w)) (n - 1) ->
     srv (count_calls (trace w) + (n - 1)) (MembersList group_email) = Reply page ->
     sleeps (trace (snd (GroupsBackup.get_group_members
                           srv group_email retries delay w))) =
     sleeps (trace w) ++ repeat delay (n - 1))
  /\ (forall srv group_email retries delay w,
     1 <= retries ->
     fails_until srv (MembersList group_email) unavailable
       (count_calls (trace w)) retries ->
     sleeps (trace (snd (GroupsBackup.get_group_members
                           srv group_email retries delay w))) =
     sleeps (trace w) ++ repeat delay (retries - 1)).
Proof.
  repeat split.
  - intros srv user_email retries delay w n s Hn Hf Hok.
    rewrite (get_forwarding_settings_retry_ok srv user_email retries delay w n s);
      [ | assumption | | assumption].
    + cbn [snd trace log]. now rewrite sleeps_call, sleeps_retried.
    + now apply (fails_until_eq _ _ (HttpError 429)).
  - intros srv user_email retries delay w Hf.
    rewrite get_forwarding_settings_exhausted.
    + cbn [snd]. now rewrite sleeps_retried.
    + now apply (fails_until_eq _ _ (HttpError 429)).
  - intros srv group_email w n s Hn Hf Hok.
    unfold GgSettingsBackup.get_group_settings.
    rewrite (get_group_settings_with_retry_ok srv group_email 3 w n s);
      [ | assumption..].
    cbn [snd trace log]. now rewrite sleeps_call, sleeps_retried.
  - intros srv group_email w Hf.
    unfold GgSettingsBackup.get_group_settings.
    rewrite get_group_settings_with_exhausted; [ | lia | assumption].
    cbn [snd trace log]. now rewrite sleeps_call, sleeps_retried.
  - intros srv group_email retries delay w n page Hn Hf Hok.
    rewrite (get_group_members_retry_ok srv group_email retries delay w n page);
      [ | assumption | | assumption].
    + cbn [snd trace log]. now rewrite sleeps_call, sleeps_retried.
    + now apply (fails_until_eq _ _ (HttpError 503)).
  - intros srv group_email retries delay w Hr Hf.
    rewrite get_group_members_exhausted; [ | assumption | ].
    + cbn [snd trace log]. now rewrite sleeps_call, sleeps_retried.
    + now apply (fails_until_eq _ _ (HttpError 503)).
Qed.

Lemma srv_unavailable_forwarding_fails :
  fails_until srv_unavailable (GetAutoForwarding "u@example.org") rate_limited
    (count_calls (trace world0)) 5.
Proof. intros k Hk. exists (HttpError 429). split; reflexivity. Defined.

(** Five rate-limited attempts from a base delay of 30 seconds. *)
Lemma backoff_delay_sequences_witness :
  sleeps (trace (snd (UsersForwarding.get_forwarding_settings
                        srv_unavailable "u@example.org" 5 30 world0))) =
  [30; 60; 120; 240; 480]%Z.
Proof.
  apply (proj1 (proj2 backoff_delay_sequences) srv_unavailable "u@example.org"
           5 30%Z world0).
  exact srv_unavailable_forwarding_fails.
Defined.

(** C4 as stated fails: [get_group_members] sleeps 5 seconds and then 5
    seconds again, which is no doubling sequence for any base delay. *)
Lemma get_group_members_fixed_delay :
  let ds := sleeps (trace (snd (GroupsBackup.get_group_members
                                  srv_unavailable "g@example.org" 3 5 world0))) in
  ds = [5; 5]%Z /\ forall base, ds <> exp_delays base 2.
Proof.
  cbv zeta. split; [reflexivity|].
  intros base. vm_compute. intros H. injection H as H1 H2.
  destruct base; try discriminate. subst. destruct p; discriminate.
Qed.

(** ** Relations every step of a run respects *)

Section Respects.
Variable R : World -> World -> Prop.
Hypothesis R_refl : forall w, R w w.
Hypothesis R_trans : forall w1 w2 w3, R w1 w2 -> R w2 w3 -> R w1 w3.

Lemma respects_ret {A} (a : A) : respects R (ret a).
Proof. intros w. apply R_refl. Qed.

Lemma respects_raise {A} e : respects R (@raise A e).
Proof. intros w. apply R_refl. Qed.

Lemma respects_out_of_fuel {A} : respects R (@out_of_fuel A).
Proof. intros w. apply R_refl. Qed.

Lemma respects_bind {A B} (m : M A) (k : A -> M B) :
  respects R m -> (forall a, respects R (k a)) -> respects R (bind m k).
Proof.
  intros Hm Hk w. unfold bind. specialize (Hm w).
  destruct (m w) as [[a|e|] w']; cbn [snd] in *; try assumption.
  eapply R_trans; [exact Hm|apply Hk].
Qed.

Lemma respects_try_except {A} (body : M A) handler :
  respects R body ->
  (forall e h, handler e = Some h -> respects R h) ->
  respects R (try_except body handler).
Proof.
  intros Hb Hh w. unfold try_except. specialize (Hb w).
  destruct (body w) as [[a|e|] w']; cbn [snd] in *; try assumption.
  destruct (handler e) as [h|] eqn:E; [|assumption].
  eapply R_trans; [exact Hb|eapply Hh; exact E].
Qed.

Lemma respects_for_in {X A St} (body : X -> St -> M (ctl A St)) xs :
  (forall x st, respects R (body x st)) ->
  forall st, respects R (for_in xs st body).
Proof.
  intros Hb. induction xs as [|x xs IH]; intros st.
  - apply respects_ret.
  - cbn [for_in]. apply respects_bind; [apply Hb|].
    intros [a|st']; [apply respects_ret|apply IH].
Qed.

Lemma respects_for_each {X} (body : X -> M unit) xs :
  (forall x, respects R (body x)) -> respects R (for_each xs body).
Proof.
  intros Hb. induction xs as [|x xs IH].
  - apply respects_ret.
  - cbn [for_each]. apply respects_bind; [apply Hb|intros _; exact IH].
Qed.
End Respects.

Lemma emits_only_refl Q w : emits_only Q w w.
Proof. exists []. split; [reflexivity|constructor]. Qed.

Lemma emits_only_trans Q w1 w2 w3 :
  emits_only Q w1 w2 -> emits_only Q w2 w3 -> emits_only Q w1 w3.
Proof.
  intros (t1 & E1 & F1) (t2 & E2 & F2). exists (t2 ++ t1). split.
  - rewrite E2, E1. apply app_assoc.
  - apply Forall_app. now split.
Qed.

Lemma emits_only_log Q e w : Q e -> emits_only Q w (log e w).
Proof. intros H. exists [e]. split; [reflexivity|]. now repeat constructor. Qed.

Lemma same_disk_refl w : same_disk w w.
Proof. reflexivity. Qed.

Lemma same_disk_trans w1 w2 w3 :
  same_disk w1 w2 -> same_disk w2 w3 -> same_disk w1 w3.
Proof. unfold same_disk. congruence. Qed.

Lemma emits_execute Q srv r : Q (Call r) -> respects (emits_only Q) (execute srv r).
Proof.
  intros H w. unfold execute.
  destruct (srv _ r); cbn [snd]; now apply emits_only_log.
Qed.

Lemma emits_sleep Q d : Q (Sleep d) -> respects (emits_only Q) (sleep d).
Proof. intros H w. now apply emits_only_log. Qed.

Lemma emits_open_w Q path : respects (emits_only Q) (open_w path).
Proof. intros w. exists []. split; [reflexivity|constructor]. Qed.

Lemma emits_writerow Q path row : respects (emits_only Q) (writerow path row).
Proof. intros w. exists []. split; [reflexivity|constructor]. Qed.

Lemma emits_read_file Q path : respects (emits_only Q) (read_file path).
Proof.
  intros w. unfold read_file. destruct (disk w !! path); apply emits_only_refl.
Qed.

Lemma same_disk_execute srv r : respects same_disk (execute srv r).
Proof. intros w. unfold execute. destruct (srv _ r); reflexivity. Qed.

Lemma same_disk_sleep d : respects same_disk (sleep d).
Proof. intros w. reflexivity. Qed.

Lemma same_disk_read_file path : respects same_disk (read_file path).
Proof. intros w. unfold read_file. destruct (disk w !! path); reflexivity. Qed.

Lemma not_probe_sleep d : not_probe (Sleep d).
Proof. intros f. discriminate. Qed.

(** One step of a proof that a piece of script respects a relation;
    [refl] and [trans] are the proofs that the relation is a preorder. *)
Ltac respects_step refl trans :=
  lazymatch goal with
  | |- respects _ (bind _ _) => apply (respects_bind _ trans)
  | |- respects _ (ret _) => apply (respects_ret _ refl)
  | |- respects _ (raise _) => apply (respects_raise _ refl)
  | |- respects _ out_of_fuel => apply (respects_out_of_fuel _ refl)
  | |- respects _ (try_except _ _) => apply (respects_try_except _ trans)
  | |- respects _ (for_in _ _ _) => apply (respects_for_in _ refl trans)
  | |- respects _ (for_each _ _) => apply (respects_for_each _ refl trans)
  | |- respects (emits_only _) (execute _ _) => apply emits_execute
  | |- respects (emits_only _) (sleep _) => apply emits_sleep
  | |- respects (emits_only _) (open_w _) => apply emits_open_w
  | |- respects (emits_only _) (writerow _ _) => apply emits_writerow
  | |- respects (emits_only _) (read_file _) => apply emits_read_file
  | |- respects same_disk (execute _ _) => apply same_disk_execute
  | |- respects same_disk (sleep _) => apply same_disk_sleep
  | |- respects same_disk (read_file _) => apply same_disk_read_file
  | |- respects _ (match ?x with _ => _ end) => destruct x
  | |- respects _ _ => fail
  | |- forall e h, _ = Some h -> _ =>
      let H := fresh "H" in
      intros e h H; cbv zeta in H; destruct e; try discriminate H;
      injection H as <-
  | |- forall _, _ => intro
  | |- any_event _ => exact I
  | |- not_probe (Sleep _) => apply not_probe_sleep
  | |- not_probe (Call _) => let f := fresh in intros f; discriminate
  end.

Ltac emits_auto Q :=
  repeat respects_step (emits_only_refl Q) (emits_only_trans Q).

Ltac same_disk_auto :=
  repeat respects_step same_disk_refl same_disk_trans.

(** ** What the functions of [gw_groups_backup.py] emit *)

Section GroupsBackupEmits.
Variable srv : Server.
Variable timestamp : string.

Lemma get_google_groups_from_emits fuel : forall request groups,
  respects (emits_only any_event)
    (GroupsBackup.get_google_groups_from srv fuel request groups).
Proof.
  induction fuel as [|fuel IH]; intros request groups;
    destruct request as [pageToken|]; cbn [GroupsBackup.get_google_groups_from];
    emits_auto any_event.
  apply IH.
Qed.

Lemma get_group_members_emits group_email retries delay :
  respects (emits_only any_event)
    (GroupsBackup.get_group_members srv group_email retries delay).
Proof.
  unfold GroupsBackup.get_group_members. emits_auto any_event.
  unfold GroupsBackup.get_group_members_attempt. emits_auto any_event.
Qed.

Lemma upload_attempts_emits filename folder_id media retries delay xs st :
  respects (emits_only any_event)
    (for_in xs st (GroupsBackup.upload_attempt srv filename folder_id media
                     retries delay)).
Proof.
  emits_auto any_event. unfold GroupsBackup.upload_attempt. emits_auto any_event.
Qed.

Lemma upload_file_to_drive_emits csv_file filename folder_id retries delay :
  respects (emits_only any_event)
    (GroupsBackup.upload_file_to_drive srv csv_file filename folder_id retries delay).
Proof.
  unfold GroupsBackup.upload_file_to_drive. emits_auto any_event.
  unfold GroupsBackup.upload_attempt. emits_auto any_event.
Qed.

Lemma export_group_emits group :
  respects (emits_only any_event) (GroupsBackup.export_group srv timestamp group).
Proof.
  unfold GroupsBackup.export_group. emits_auto any_event.
  apply get_group_members_emits.
Qed.

Lemma export_groups_to_csv_emits groups folder_id :
  respects (emits_only any_event)
    (GroupsBackup.export_groups_to_csv srv timestamp groups folder_id).
Proof.
  unfold GroupsBackup.export_groups_to_csv, GroupsBackup.write_groups_csv.
  emits_auto any_event.
  - apply export_group_emits.
  - apply upload_file_to_drive_emits.
Qed.

Lemma upload_file_to_drive_same_disk csv_file filename folder_id retries delay :
  respects same_disk
    (GroupsBackup.upload_file_to_drive srv csv_file filename folder_id retries delay).
Proof.
  unfold GroupsBackup.upload_file_to_drive. same_disk_auto.
  unfold GroupsBackup.upload_attempt. same_disk_auto.
Qed.
End GroupsBackupEmits.

(** ** What the functions of the other three scripts emit *)

Section OtherScriptsEmit.
Variable srv : Server.
Variable timestamp : string.

Lemma gg_get_google_groups_from_emits fuel : forall request groups,
  respects (emits_only any_event)
    (GgSettingsBackup.get_google_groups_from srv fuel request groups).
Proof.
  induction fuel as [|fuel IH]; intros request groups;
    destruct request as [pageToken|];
    cbn [GgSettingsBackup.get_google_groups_from];
    emits_auto any_event.
  apply IH.
Qed.

Lemma export_groups_settings_to_csv_emits groups folder_id :
  respects (emits_only any_event)
    (GgSettingsBackup.export_groups_settings_to_csv srv timestamp groups folder_id).
Proof.
  unfold GgSettingsBackup.export_groups_settings_to_csv,
    GgSettingsBackup.write_settings_csv.
  emits_auto any_event.
  - unfold GgSettingsBackup.export_group_settings,
      GgSettingsBackup.get_group_settings,
      GgSettingsBackup.get_group_settings_with.
    emits_auto any_event.
    unfold GgSettingsBackup.get_group_settings_attempt. emits_auto any_event.
  - rewrite upload_file_to_drive_same. apply upload_file_to_drive_emits.
Qed.

Lemma list_shared_drives_emits fuel : forall page_token shared_drives,
  respects (emits_only not_probe)
    (SharedDrivesAcls.list_shared_drives srv fuel page_token shared_drives).
Proof.
  induction fuel as [|fuel IH]; intros page_token shared_drives;
    cbn [SharedDrivesAcls.list_shared_drives]; emits_auto not_probe.
  apply IH.
Qed.

Lemma write_drive_acls_emits fuel : forall filename drive_name drive_id token,
  respects (emits_only not_probe)
    (SharedDrivesAcls.write_drive_acls srv fuel filename drive_name drive_id token).
Proof.
  induction fuel as [|fuel IH]; intros filename drive_name drive_id token;
    cbn [SharedDrivesAcls.write_drive_acls]; emits_auto not_probe.
  apply IH.
Qed.

Lemma export_shared_drive_acls_emits fuel folder_id :
  respects (emits_only not_probe)
    (SharedDrivesAcls.export_shared_drive_acls srv timestamp fuel folder_id).
Proof.
  unfold SharedDrivesAcls.export_shared_drive_acls. emits_auto not_probe.
  - apply list_shared_drives_emits.
  - unfold SharedDrivesAcls.export_drive. emits_auto not_probe.
    apply write_drive_acls_emits.
  - unfold SharedDrivesAcls.upload_to_drive. emits_auto not_probe.
Qed.

Lemma get_active_users_pages_emits fuel : forall customer_id pageToken users,
  respects (emits_only not_probe)
    (UsersForwarding.get_active_users_pages srv fuel customer_id pageToken users).
Proof.
  induction fuel as [|fuel IH]; intros customer_id pageToken users;
    cbn [UsersForwarding.get_active_users_pages]; emits_auto not_probe.
  apply IH.
Qed.

Lemma forwarding_main_emits fuel CUSTOMER_ID FOLDER_ID :
  respects (emits_only not_probe)
    (UsersForwarding.main srv timestamp fuel CUSTOMER_ID FOLDER_ID).
Proof.
  unfold UsersForwarding.main, UsersForwarding.get_active_users,
    UsersForwarding.export_users_with_forwarding_to_csv.
  emits_auto not_probe.
  - apply get_active_users_pages_emits.
  - unfold UsersForwarding.get_forwarding_settings. emits_auto not_probe.
    unfold UsersForwarding.get_forwarding_settings_attempt. emits_auto not_probe.
  - unfold UsersForwarding.upload_to_drive. emits_auto not_probe.
Qed.
End OtherScriptsEmit.

(** ** The destination probe *)

Lemma check_folder_exists_same :
  GgSettingsBackup.check_folder_exists = GroupsBackup.check_folder_exists.
Proof. reflexivity. Qed.

Lemma check_folder_exists_eval srv folder_id w :
  GroupsBackup.check_folder_exists srv folder_id w =
  (match srv (count_calls (trace w)) (FilesList folder_id) with
   | Reply _ => Ok true
   | Fail (HttpError _) => Ok false
   | Fail e => Raise e
   end,
   log (Call (FilesList folder_id)) w).
Proof.
  unfold GroupsBackup.check_folder_exists, try_except, bind, execute.
  destruct (srv _ (FilesList folder_id)) as [page|e]; [reflexivity|].
  destruct e; reflexivity.
Qed.

(** C10.  In both group scripts [check_folder_exists] returns [True]
    exactly when the file-listing call raises no error, whatever the
    listing holds (no file, or no [files] key at all, included), and it
    returns [False] only when the call raised an error (an [HttpError]). *)
Theorem check_folder_exists_true_iff_no_error :
  forall srv folder_id w,
    let outcome := srv (count_calls (trace w)) (FilesList folder_id) in
    (fst (GroupsBackup.check_folder_exists srv folder_id w) = Ok true
     <-> exists page, outcome = Reply page)
    /\ (fst (GroupsBackup.check_folder_exists srv folder_id w) = Ok false
        <-> exists status, outcome = Fail (HttpError status))
    /\ GgSettingsBackup.check_folder_exists srv folder_id w
       = GroupsBackup.check_folder_exists srv folder_id w.
Proof.
  intros srv folder_id w outcome. rewrite check_folder_exists_same.
  rewrite check_folder_exists_eval.
  fold outcome. cbn [fst]. repeat split.
  - destruct outcome as [page|e]; [eauto|]. destruct e; discriminate.
  - intros [page ->]. reflexivity.
  - destruct outcome as [page|e]; [discriminate|].
    destruct e; try discriminate. eauto.
  - intros [status ->]. reflexivity.
Qed.

(** An accessible folder that holds no file passes the probe. *)
Lemma check_folder_exists_true_iff_no_error_witness :
  fst (GroupsBackup.check_folder_exists quiet "folder" world0) = Ok true.
Proof.
  apply (proj1 (check_folder_exists_true_iff_no_error quiet "folder" world0)).
  exists {| fp_files := Some [] |}. reflexivity.
Defined.

Lemma groups_main_after_probe srv ts fuel F w :
  exists t, trace (snd (GroupsBackup.main srv ts fuel F w))
            = t ++ Call (FilesList F) :: trace w.
Proof.
  unfold GroupsBackup.main, bind at 1. rewrite check_folder_exists_eval.
  destruct (srv _ (FilesList F)) as [page|e].
  - assert (H : respects (emits_only any_event)
                  (groups <- GroupsBackup.get_google_groups srv fuel ;;
                   GroupsBackup.export_groups_to_csv srv ts groups F)).
    { unfold GroupsBackup.get_google_groups. emits_auto any_event.
      - apply get_google_groups_from_emits.
      - apply export_groups_to_csv_emits. }
    destruct (H (log (Call (FilesList F)) w)) as (t & Ht & _).
    exists t. exact Ht.
  - exists []. destruct e; reflexivity.
Qed.

Lemma settings_main_after_probe srv ts fuel F w :
  exists t, trace (snd (GgSettingsBackup.main srv ts fuel F w))
            = t ++ Call (FilesList F) :: trace w.
Proof.
  unfold GgSettingsBackup.main, bind at 1.
  rewrite check_folder_exists_same, check_folder_exists_eval.
  destruct (srv _ (FilesList F)) as [page|e].
  - assert (H : respects (emits_only any_event)
                  (groups <- GgSettingsBackup.get_google_groups srv fuel ;;
                   GgSettingsBackup.export_groups_settings_to_csv srv ts groups F)).
    { unfold GgSettingsBackup.get_google_groups. emits_auto any_event.
      - apply gg_get_google_groups_from_emits.
      - apply export_groups_settings_to_csv_emits. }
    destruct (H (log (Call (FilesList F)) w)) as (t & Ht & _).
    exists t. exact Ht.
  - exists []. destruct e; reflexivity.
Qed.

(** C8, as the code has it.  In the two group scripts the destination
    probe is the first remote call of every run, and when the probe meets
    an [HttpError] the run ends there: the probe is its only remote call
    (no listing, no detail fetch, no upload) and nothing is written.  The
    shared-drive and the forwarding scripts have no probe: none of the
    calls of a run is a [files().list] on the destination. *)
Theorem destination_probe_first_and_fail_fast :
  (forall srv ts fuel F w,
     exists t, trace (snd (GroupsBackup.main srv ts fuel F w))
               = t ++ Call (FilesList F) :: trace w)
  /\ (forall srv ts fuel F w status,
     srv (count_calls (trace w)) (FilesList F) = Fail (HttpError status) ->
     GroupsBackup.main srv ts fuel F w = (Ok tt, log (Call (FilesList F)) w))
  /\ (forall srv ts fuel F w,
     exists t, trace (snd (GgSettingsBackup.main srv ts fuel F w))
               = t ++ Call (FilesList F) :: trace w)
  /\ (forall srv ts fuel F w status,
     srv (count_calls (trace w)) (FilesList F) = Fail (HttpError status) ->
     GgSettingsBackup.main srv ts fuel F w = (Ok tt, log (Call (FilesList F)) w))
  /\ (forall srv ts fuel F w,
     emits_only not_probe w (snd (SharedDrivesAcls.main srv ts fuel F w)))
  /\ (forall srv ts fuel C F w,
     emits_only not_probe w (snd (UsersForwarding.main srv ts fuel C F w))).
Proof.
  split; [exact groups_main_after_probe|].
  split.
  { intros srv ts fuel F w status H.
    unfold GroupsBackup.main, bind. rewrite check_folder_exists_eval, H.
    reflexivity. }
  split; [exact settings_main_after_probe|].
  split.
  { intros srv ts fuel F w status H.
    unfold GgSettingsBackup.main, bind.
    rewrite check_folder_exists_same, check_folder_exists_eval, H.
    reflexivity. }
  split.
  - intros srv ts fuel F w. revert w.
    change (respects (emits_only not_probe) (SharedDrivesAcls.main srv ts fuel F)).
    unfold SharedDrivesAcls.main. emits_auto not_probe.
    apply export_shared_drive_acls_emits.
  - intros srv ts fuel C F w. apply forwarding_main_emits.
Qed.

(** The destination answers 404: the probe is the only call of the run. *)
Lemma destination_probe_first_and_fail_fast_witness :
  GroupsBackup.main srv_no_destination "20240828-000000" 5 "missing" world0 =
  (Ok tt, log (Call (FilesList "missing")) world0).
Proof.
  apply (proj1 (proj2 destination_probe_first_and_fail_fast)
           srv_no_destination "20240828-000000" 5 "missing" world0 404%Z).
  reflexivity.
Defined.

(** C8 as stated fails: the shared-drive script runs against a
    destination that does not exist, and still lists the drives, fetches
    the permissions and attempts the upload; no probe is ever issued. *)
Lemma shared_drives_run_without_probe :
  calls (trace (snd (SharedDrivesAcls.main srv_no_destination "20240910-000000"
                       5 (Some "missing") world0))) =
  [DrivesList None;
   PermissionsList "d1" None;
   FilesCreate "shared_drive_acls_20240910-000000.csv" "missing"
     (Some "application/vnd.google-apps.spreadsheet")
     [SharedDrivesAcls.header;
      ["Drive 1"; "d1"; "a@example.org"; "reader"; "N/A"; "N/A"]]].
Proof. vm_compute. reflexivity. Qed.

(** ** Uploading the archive *)

Lemma bind_ok {A B} (m : M A) (k : A -> M B) w a w' :
  m w = (Ok a, w') -> bind m k w = k a w'.
Proof. intros H. unfold bind. now rewrite H. Qed.

Lemma bind_raise {A B} (m : M A) (k : A -> M B) w e w' :
  m w = (Raise e, w') -> bind m k w = (Raise e, w').
Proof. intros H. unfold bind. now rewrite H. Qed.







(** ** Collection: a fetch that exhausts its retries *)

Lemma export_group_settings_exhausted srv ts g w :
  fails_until srv (GroupsSettingsGet (g !! "email")) settings_retryable
    (count_calls (trace w)) 3 ->
  GgSettingsBackup.export_group_settings srv ts g w =
  (Ok tt,
   log (Call (GroupsSettingsGet (g !! "email")))
     (retried (GroupsSettingsGet (g !! "email")) [5; 10]%Z w)).
Proof.
  intros Hf. unfold GgSettingsBackup.export_group_settings.
  cbv zeta. unfold GgSettingsBackup.get_group_settings.
  rewrite (bind_ok _ _ _ _ _
             (get_group_settings_with_exhausted srv (g !! "email") 3 w
                ltac:(lia) Hf)).
  reflexivity.
Qed.

Lemma export_group_exhausted srv ts g group_email w :
  g !! "email" = Some group_email ->
  fails_until srv (MembersList group_email) unavailable (count_calls (trace w)) 3 ->
  GroupsBackup.export_group srv ts g w =
  (Ok tt,
   log (Call (MembersList group_email))
     (retried (MembersList group_email) [5; 5]%Z w)).
Proof.
  intros Hg Hf. unfold GroupsBackup.export_group. rewrite Hg.
  unfold try_except.
  rewrite (bind_ok _ _ _ _ _
             (get_group_members_exhausted srv group_email 3 5 w ltac:(lia)
                (fails_until_eq _ _ (HttpError 503) _ _ Hf))).
  reflexivity.
Qed.

(** ** Inner pagination of the member list *)

(** C5 at a group with two pages of members: [get_group_members] issues
    [members().list] once, without a page token, and the CSV file holds
    the member of the first page only, although the reply carried the
    cursor [page-2]. *)
Theorem group_members_first_page_only :
  let out := GroupsBackup.main srv_two_pages "20240828-000000" 5 "folder" world0 in
  srv_two_pages 2 (MembersList "big@example.org") =
    Reply {| mp_members :=
               Some [{[ "email" := "m1@example.org"; "role" := "MEMBER";
                        "status" := "ACTIVE" ]}];
             mp_nextPageToken := Some "page-2" |} /\
  fst out = Ok tt /\
  calls (trace (snd out)) =
    [FilesList "folder";
     GroupsList 200 None;
     MembersList "big@example.org";
     FilesCreate "gg_backup_20240828-000000.csv" "folder" None
       [["Group Email"; "Member Email"; "Role"; "Status"];
        ["big@example.org"; "m1@example.org"; "MEMBER"; "ACTIVE"]]].
Proof. cbv zeta. repeat split; vm_compute; reflexivity. Qed.

(** ** A listing page that fails *)

(** C6 at a user listing whose second page fails: [get_active_users]
    absorbs the error and returns the users of the first page, and the
    run goes on to fetch their settings, write the CSV file and upload
    it. *)
Theorem users_listing_failure_continues_with_partial_list :
  let out := UsersForwarding.main srv_listing_breaks "20240909-000000" 5
               (Some "C0") "folder" world0 in
  fst out = Ok tt /\
  calls (trace (snd out)) =
    [UsersList "C0" None;
     UsersList "C0" (Some "t2");
     GetAutoForwarding "alice@example.org";
     FilesCreate "active_users_with_forwarding_20240909-000000.csv" "folder"
       (Some "application/vnd.google-apps.spreadsheet")
       [["Primary Email"; "Full Name"; "Forwarding Email Address"; "Disposition"];
        ["alice@example.org"; "Alice"; "elsewhere@example.org"; "archive"]]].
Proof. cbv zeta. split; vm_compute; reflexivity. Qed.

(** ** The file that is written when no row is *)

Lemma get_group_members_retry_raise srv group_email retries delay w n e :
  1 <= n <= retries ->
  (forall k, k < n - 1 ->
     srv (count_calls (trace w) + k) (MembersList group_email) = Fail (HttpError 503)) ->
  srv (count_calls (trace w) + (n - 1)) (MembersList group_email) = Fail e ->
  e <> HttpError 503 ->
  GroupsBackup.get_group_members srv group_email retries delay w =
  (Raise e,
   log (Call (MembersList group_email))
     (retried (MembersList group_email) (repeat delay (n - 1)) w)).
Proof.
  intros Hn Hfail He Hne.
  unfold GroupsBackup.get_group_members, range, bind.
  replace retries with ((n - 1) + S (retries - n)) at 1 by lia.
  rewrite seq_app, for_in_app.
  rewrite members_attempts_fail by (lia || exact Hfail).
  cbn [seq for_in]. unfold bind.
  rewrite (members_attempt_raise _ _ _ _ _ _ e); [reflexivity|assumption|].
  rewrite count_calls_retried, repeat_length. exact He.
Qed.



Lemma write_groups_csv_eq srv ts groups w :
  GroupsBackup.write_groups_csv srv ts groups w =
  for_each groups (GroupsBackup.export_group srv ts)
    {| trace := trace w;
       disk := alter (fun rows => rows ++ [GroupsBackup.header])
                 (GroupsBackup.csv_file ts)
                 (<[GroupsBackup.csv_file ts := []]> (disk w)) |}.
Proof. reflexivity. Qed.


(** The first thing [upload_file_to_drive] does is to issue the create
    call with the file as it is on disk. *)
Lemma upload_file_to_drive_first_call srv csv_file filename F retries delay w media :
  1 <= retries ->
  disk w !! csv_file = Some media ->
  exists t,
    trace (snd (GroupsBackup.upload_file_to_drive srv csv_file filename F
                  retries delay w))
    = t ++ Call (FilesCreate filename F None media) :: trace w.
Proof.
  intros Hr Hd.
  unfold GroupsBackup.upload_file_to_drive. unfold bind at 1, read_file.
  rewrite Hd. destruct retries as [|r]; [lia|].
  unfold range. cbn [seq for_in].
  assert (H1 : exists w1,
            snd (GroupsBackup.upload_attempt srv filename F media (S r) delay 0 tt w)
            = w1 /\ emits_only any_event (log (Call (FilesCreate filename F None media)) w) w1).
  { eexists. split; [reflexivity|].
    unfold GroupsBackup.upload_attempt, try_except, bind, execute.
    destruct (srv _ (FilesCreate filename F None media)) as [file|e].
    - apply emits_only_refl.
    - destruct e; try apply emits_only_refl;
        destruct (0 <? S r - 1)%nat; cbn [snd];
        try apply emits_only_refl;
        apply (emits_only_log any_event (Sleep delay)); exact I. }
  destruct H1 as (w1 & Hw1 & (t1 & Ht1 & _)).
  assert (H2 : forall (c : ctl (option string) unit),
            respects (emits_only any_event)
              (c' <- match c with
                     | Return a => ret (Return a)
                     | Next st' =>
                         for_in (seq 1 r) st'
                           (GroupsBackup.upload_attempt srv filename F media (S r) delay)
                     end ;;
               match c' with
               | Return v => ret v
               | Next _ => ret None
               end)).
  { intros c. emits_auto any_event.
    unfold GroupsBackup.upload_attempt. emits_auto any_event. }
  unfold bind at 1. unfold bind at 1.
  destruct (GroupsBackup.upload_attempt srv filename F media (S r) delay 0 tt w)
    as [[c|e|] w1'] eqn:E; cbn [snd] in Hw1; subst w1'.
  - destruct (H2 c w1) as (t2 & Ht2 & _).
    unfold bind at 1 in Ht2.
    exists (t2 ++ t1). rewrite <- app_assoc. cbn [trace log] in Ht1.
    rewrite <- Ht1. exact Ht2.
  - exists t1. exact Ht1.
  - exists t1. exact Ht1.
Qed.




Lemma shared_drives_upload_world (srv : Server) filename F w media :
  disk w !! filename = Some media ->
  snd (SharedDrivesAcls.upload_to_drive srv filename F w) =
  log (Call (FilesCreate filename F
               (Some "application/vnd.google-apps.spreadsheet") media)) w.
Proof.
  intros Hd.
  unfold SharedDrivesAcls.upload_to_drive, try_except, bind, read_file, execute.
  rewrite Hd. destruct (srv _ _) as [file|e]; [reflexivity|].
  destruct e; reflexivity.
Qed.









(** * Further properties of the scripts *)

(** ** Listing all groups *)

Lemma called_cons r rqs w : called (r :: rqs) w = called rqs (log (Call r) w).
Proof. reflexivity. Qed.

Lemma calls_called rqs : forall w,
  calls (trace (called rqs w)) = calls (trace w) ++ rqs.
Proof.
  induction rqs as [|r rqs IH]; intros w.
  - simpl. now rewrite app_nil_r.
  - rewrite called_cons, IH. cbn [trace log].
    rewrite calls_call, <- app_assoc. reflexivity.
Qed.

Lemma disk_called rqs : forall w, disk (called rqs w) = disk w.
Proof.
  induction rqs as [|r rqs IH]; intros w; [reflexivity|].
  rewrite called_cons, IH. reflexivity.
Qed.

Lemma sleeps_called rqs : forall w,
  sleeps (trace (called rqs w)) = sleeps (trace w).
Proof.
  induction rqs as [|r rqs IH]; intros w; [reflexivity|].
  rewrite called_cons, IH. cbn [trace log]. apply sleeps_call.
Qed.

Lemma groups_get_google_groups_from_pages (srv : Server) pages :
  forall fuel token groups w,
    serves_groups srv 200 (count_calls (trace w)) token pages ->
    length pages <= fuel ->
    GroupsBackup.get_google_groups_from srv fuel (Some token) groups w =
    (Ok (groups ++ groups_of pages), called (groups_requests 200 token pages) w).
Proof.
  induction pages as [|page rest IH]; intros fuel token groups w Hs Hfuel;
    [destruct Hs|].
  destruct Hs as [Hpage Hrest].
  destruct fuel as [|fuel]; [simpl in Hfuel; lia|].
  cbn [GroupsBackup.get_google_groups_from].
  rewrite (bind_ok _ _ _ _ _ (execute_reply _ _ _ _ Hpage)).
  unfold groups_of. cbn [map concat groups_requests]. rewrite called_cons.
  destruct rest as [|page' rest'].
  - unfold list_next. rewrite Hrest.
    destruct fuel; cbn [GroupsBackup.get_google_groups_from map concat];
      rewrite app_nil_r; reflexivity.
  - destruct Hrest as [Htok Hrest]. unfold list_next. rewrite Htok.
    rewrite (IH fuel (gp_nextPageToken page)); [|exact Hrest|simpl in *; lia].
    unfold groups_of. now rewrite app_assoc.
Qed.

Lemma settings_get_google_groups_from_pages (srv : Server) pages :
  forall fuel token groups w,
    serves_groups srv 50 (count_calls (trace w)) token pages ->
    length pages <= fuel ->
    GgSettingsBackup.get_google_groups_from srv fuel (Some token) groups w =
    (Ok (groups ++ groups_of pages), called (groups_requests 50 token pages) w).
Proof.
  induction pages as [|page rest IH]; intros fuel token groups w Hs Hfuel;
    [destruct Hs|].
  destruct Hs as [Hpage Hrest].
  destruct fuel as [|fuel]; [simpl in Hfuel; lia|].
  cbn [GgSettingsBackup.get_google_groups_from].
  rewrite (bind_ok _ _ _ _ _ (execute_reply _ _ _ _ Hpage)).
  unfold groups_of. cbn [map concat groups_requests]. rewrite called_cons.
  destruct rest as [|page' rest'].
  - unfold list_next. rewrite Hrest.
    destruct fuel; cbn [GgSettingsBackup.get_google_groups_from map concat];
      rewrite app_nil_r; reflexivity.
  - destruct Hrest as [Htok Hrest]. unfold list_next. rewrite Htok.
    rewrite (IH fuel (gp_nextPageToken page)); [|exact Hrest|simpl in *; lia].
    unfold groups_of. now rewrite app_assoc.
Qed.

(** X1.  When the directory serves the group listing as a finite run of
    pages, [get_google_groups] of both group scripts returns the groups
    of all pages, page after page and in response order (nothing is
    dropped at a page boundary and nothing is deduplicated), with one
    request per page, each carrying the cursor of the page before it.
    Fuel of at least the number of pages is enough for the loop to end. *)
Theorem get_google_groups_collects_all_pages :
  forall (srv : Server) fuel w pages,
    length pages <= fuel ->
    (serves_groups srv 200 (count_calls (trace w)) None pages ->
     GroupsBackup.get_google_groups srv fuel w =
     (Ok (groups_of pages), called (groups_requests 200 None pages) w))
    /\ (serves_groups srv 50 (count_calls (trace w)) None pages ->
        GgSettingsBackup.get_google_groups srv fuel w =
        (Ok (groups_of pages), called (groups_requests 50 None pages) w)).
Proof.
  intros srv fuel w pages Hfuel. split; intros Hs.
  - unfold GroupsBackup.get_google_groups.
    now rewrite (groups_get_google_groups_from_pages srv pages fuel None [] w).
  - unfold GgSettingsBackup.get_google_groups.
    now rewrite (settings_get_google_groups_from_pages srv pages fuel None [] w).
Qed.

(** Two pages, three groups, two requests. *)
Lemma get_google_groups_collects_all_pages_witness :
  GroupsBackup.get_google_groups srv_paged_groups 2 world0 =
  (Ok [{[ "email" := "g1@example.org" ]}; {[ "email" := "g2@example.org" ]};
       {[ "email" := "g3@example.org" ]}],
   called [GroupsList 200 None; GroupsList 200 (Some "p2")] world0).
Proof.
  apply (proj1 (get_google_groups_collects_all_pages srv_paged_groups 2 world0
                  [groups_page_1; groups_page_2] ltac:(simpl; lia))).
  simpl. repeat split; reflexivity.
Defined.

(** ** Rows appended to the report *)

Lemma appended_nil path w : appended path [] w = w.
Proof.
  destruct w as [t d]. unfold appended. cbn [trace disk]. f_equal.
  apply alter_id. intros rows _. apply app_nil_r.
Qed.

Lemma appended_app path rows1 rows2 w :
  appended path rows2 (appended path rows1 w) = appended path (rows1 ++ rows2) w.
Proof.
  unfold appended. cbn [trace disk]. f_equal.
  rewrite alter_alter_eq. apply alter_ext. intros rows _.
  cbn. now rewrite app_assoc.
Qed.

Lemma appended_called path rows rqs : forall w,
  called rqs (appended path rows w) = appended path rows (called rqs w).
Proof.
  induction rqs as [|r rqs IH]; intros w; [reflexivity|].
  rewrite !called_cons. rewrite <- IH. reflexivity.
Qed.

Lemma appended_lookup path rows w old :
  disk w !! path = Some old ->
  disk (appended path rows w) !! path = Some (old ++ rows).
Proof. intros H. cbn [appended disk]. now rewrite lookup_alter_eq, H. Qed.

Lemma for_each_writerow {X} path (f : X -> Row) xs : forall w,
  for_each xs (fun x => writerow path (f x)) w =
  (Ok tt, appended path (map f xs) w).
Proof.
  induction xs as [|x xs IH]; intros w.
  - cbn [for_each map]. now rewrite appended_nil.
  - cbn [for_each map]. unfold bind at 1.
    change (writerow path (f x) w) with (Ok tt, appended path [f x] w).
    cbv iota beta. rewrite IH, appended_app. reflexivity.
Qed.

(** ** The permissions of a shared drive *)

Lemma write_drive_acls_pages (srv : Server) filename drive_name drive_id pages :
  forall fuel token w,
    serves_permissions srv (count_calls (trace w)) drive_id token pages ->
    length pages <= fuel ->
    SharedDrivesAcls.write_drive_acls srv fuel filename drive_name drive_id token w =
    (Ok tt,
     appended filename (acl_rows drive_name drive_id pages)
       (called (permissions_requests drive_id token pages) w)).
Proof.
  induction pages as [|page rest IH]; intros fuel token w Hs Hfuel;
    [destruct Hs|].
  destruct Hs as [Hpage Hrest].
  destruct fuel as [|fuel]; [simpl in Hfuel; lia|].
  cbn [SharedDrivesAcls.write_drive_acls].
  rewrite (bind_ok _ _ _ _ _ (execute_reply _ _ _ _ Hpage)).
  rewrite (bind_ok _ _ _ _ _
             (for_each_writerow filename (acl_row drive_name drive_id)
                (default [] (pp_permissions page))
                (log (Call (PermissionsList drive_id token)) w))).
  unfold acl_rows. cbn [map concat permissions_requests]. rewrite called_cons.
  destruct rest as [|page' rest'].
  - rewrite Hrest. cbn [negb map concat called fold_left].
    rewrite app_nil_r. reflexivity.
  - destruct Hrest as [Htok Hrest]. rewrite Htok. cbn [negb].
    rewrite (IH fuel (pp_nextPageToken page)); [|exact Hrest|simpl in *; lia].
    rewrite appended_called, appended_app. reflexivity.
Qed.

Lemma cursor_after_cons token page rest :
  cursor_after token (page :: rest) = cursor_after (pp_nextPageToken page) rest.
Proof.
  unfold cursor_after. cbn [map]. rewrite last_cons.
  destruct (last (map pp_nextPageToken rest)); reflexivity.
Qed.

Lemma write_drive_acls_break (srv : Server) filename drive_name drive_id e pages :
  forall fuel token w,
    permissions_break srv (count_calls (trace w)) drive_id token pages e ->
    length pages < fuel ->
    SharedDrivesAcls.write_drive_acls srv fuel filename drive_name drive_id token w =
    (Raise e,
     appended filename (acl_rows drive_name drive_id pages)
       (called (permissions_requests drive_id token pages
                ++ [PermissionsList drive_id (cursor_after token pages)]) w)).
Proof.
  induction pages as [|page rest IH]; intros fuel token w Hs Hfuel.
  - destruct fuel as [|fuel]; [simpl in Hfuel; lia|].
    cbn [SharedDrivesAcls.write_drive_acls].
    rewrite (bind_raise _ _ _ _ _ (execute_fail _ _ _ _ Hs)).
    unfold acl_rows. cbn [map concat]. now rewrite appended_nil.
  - destruct Hs as (Hpage & Htok & Hrest).
    destruct fuel as [|fuel]; [simpl in Hfuel; lia|].
    cbn [SharedDrivesAcls.write_drive_acls].
    rewrite (bind_ok _ _ _ _ _ (execute_reply _ _ _ _ Hpage)).
    rewrite (bind_ok _ _ _ _ _
               (for_each_writerow filename (acl_row drive_name drive_id)
                  (default [] (pp_permissions page))
                  (log (Call (PermissionsList drive_id token)) w))).
    rewrite Htok. cbn [negb].
    rewrite (IH fuel (pp_nextPageToken page)); [|exact Hrest|simpl in *; lia].
    unfold acl_rows. cbn [map concat permissions_requests app].
    rewrite called_cons, appended_called, appended_app.
    now rewrite cursor_after_cons.
Qed.

(** X2.  For a drive with [id] and [name] whose permissions are served as
    a finite run of pages, [export_drive] re-issues the permissions
    request with each returned cursor until a page has none, and appends
    to the report one record per permission of every page, in page and
    response order, with [N/A] for a missing field. *)
Theorem export_drive_writes_every_page :
  forall (srv : Server) ts fuel drive drive_id drive_name w pages,
    drive !! "id" = Some drive_id ->
    drive !! "name" = Some drive_name ->
    serves_permissions srv (count_calls (trace w)) drive_id None pages ->
    length pages <= fuel ->
    SharedDrivesAcls.export_drive srv ts fuel drive w =
    (Ok tt,
     appended (SharedDrivesAcls.filename ts) (acl_rows drive_name drive_id pages)
       (called (permissions_requests drive_id None pages) w)).
Proof.
  intros srv ts fuel drive drive_id drive_name w pages Hid Hname Hs Hfuel.
  unfold SharedDrivesAcls.export_drive. rewrite Hid, Hname.
  unfold try_except.
  now rewrite (write_drive_acls_pages srv _ drive_name drive_id pages fuel None w).
Qed.

Lemma srv_paged_permissions_serves :
  serves_permissions srv_paged_permissions
    (count_calls (trace world_with_acl_report)) "d1" None
    [permissions_page_1; permissions_page_2].
Proof. simpl. repeat split; reflexivity. Defined.

(** Two pages of permissions: three records follow the header, the last
    with [N/A] for the address and the display name it lacks. *)
Lemma export_drive_writes_every_page_witness :
  let out := SharedDrivesAcls.export_drive srv_paged_permissions
               "20240910-000000" 2 drive_1 world_with_acl_report in
  out = (Ok tt,
         appended (SharedDrivesAcls.filename "20240910-000000")
           (acl_rows "Drive 1" "d1" [permissions_page_1; permissions_page_2])
           (called [PermissionsList "d1" None; PermissionsList "d1" (Some "acl-2")]
              world_with_acl_report)) /\
  disk (snd out) !! "shared_drive_acls_20240910-000000.csv" =
  Some [SharedDrivesAcls.header;
        ["Drive 1"; "d1"; "a@example.org"; "organizer"; "user"; "A"];
        ["Drive 1"; "d1"; "b@example.org"; "reader"; "user"; "B"];
        ["Drive 1"; "d1"; "N/A"; "reader"; "domain"; "N/A"]].
Proof.
  cbv zeta. split.
  - assert (Hid : drive_1 !! "id" = Some "d1") by (vm_compute; reflexivity).
    assert (Hname : drive_1 !! "name" = Some "Drive 1") by (vm_compute; reflexivity).
    exact (export_drive_writes_every_page srv_paged_permissions "20240910-000000"
             2 drive_1 "d1" "Drive 1" world_with_acl_report
             [permissions_page_1; permissions_page_2] Hid Hname
             srv_paged_permissions_serves ltac:(simpl; lia)).
  - vm_compute. reflexivity.
Defined.

(** X3.  When a request for a further page of a drive's permissions
    fails with an [HttpError], [export_drive] absorbs the error and ends
    normally, and the records of the pages fetched before the failure
    stay in the report: the drive is left with part of its permissions,
    not skipped as a whole.  (With no page before the failure the drive
    contributes no record.) *)
Theorem export_drive_keeps_rows_before_failure :
  forall (srv : Server) ts fuel drive drive_id drive_name w pages status,
    drive !! "id" = Some drive_id ->
    drive !! "name" = Some drive_name ->
    permissions_break srv (count_calls (trace w)) drive_id None pages
      (HttpError status) ->
    length pages < fuel ->
    SharedDrivesAcls.export_drive srv ts fuel drive w =
    (Ok tt,
     appended (SharedDrivesAcls.filename ts) (acl_rows drive_name drive_id pages)
       (called (permissions_requests drive_id None pages
                ++ [PermissionsList drive_id (cursor_after None pages)]) w)).
Proof.
  intros srv ts fuel drive drive_id drive_name w pages status Hid Hname Hs Hfuel.
  unfold SharedDrivesAcls.export_drive. rewrite Hid, Hname.
  unfold try_except.
  now rewrite (write_drive_acls_break srv _ drive_name drive_id (HttpError status)
                 pages fuel None w).
Qed.

Lemma srv_broken_permissions_breaks :
  permissions_break srv_broken_permissions
    (count_calls (trace world_with_acl_report)) "d1" None
    [permissions_page_1] (HttpError 500).
Proof. simpl. repeat split; reflexivity. Defined.

(** The second page is refused: the two records of the first page stay. *)
Lemma export_drive_keeps_rows_before_failure_witness :
  let out := SharedDrivesAcls.export_drive srv_broken_permissions
               "20240910-000000" 2 drive_1 world_with_acl_report in
  out = (Ok tt,
         appended (SharedDrivesAcls.filename "20240910-000000")
           (acl_rows "Drive 1" "d1" [permissions_page_1])
           (called [PermissionsList "d1" None; PermissionsList "d1" (Some "acl-2")]
              world_with_acl_report)) /\
  disk (snd out) !! "shared_drive_acls_20240910-000000.csv" =
  Some [SharedDrivesAcls.header;
        ["Drive 1"; "d1"; "a@example.org"; "organizer"; "user"; "A"];
        ["Drive 1"; "d1"; "b@example.org"; "reader"; "user"; "B"]].
Proof.
  cbv zeta. split.
  - assert (Hid : drive_1 !! "id" = Some "d1") by (vm_compute; reflexivity).
    assert (Hname : drive_1 !! "name" = Some "Drive 1") by (vm_compute; reflexivity).
    exact (export_drive_keeps_rows_before_failure srv_broken_permissions
             "20240910-000000" 2 drive_1 "d1" "Drive 1" world_with_acl_report
             [permissions_page_1] 500%Z Hid Hname
             srv_broken_permissions_breaks ltac:(simpl; lia)).
  - vm_compute. reflexivity.
Defined.

(** ** Listing the active users *)

Lemma get_active_users_pages_serves (srv : Server) customer pages :
  forall fuel token users w,
    serves_users srv (count_calls (trace w)) customer token pages ->
    length pages <= fuel ->
    UsersForwarding.get_active_users_pages srv fuel customer token users w =
    (Ok (users ++ concat (map (fun page => default [] (up_users page)) pages)),
     called (users_requests customer token pages) w).
Proof.
  induction pages as [|page rest IH]; intros fuel token users w Hs Hfuel;
    [destruct Hs|].
  destruct Hs as [Hpage Hrest].
  destruct fuel as [|fuel]; [simpl in Hfuel; lia|].
  cbn [UsersForwarding.get_active_users_pages]. unfold try_except.
  rewrite (bind_ok _ _ _ _ _ (execute_reply _ _ _ _ Hpage)).
  cbn [map concat users_requests]. rewrite called_cons.
  destruct rest as [|page' rest'].
  - rewrite Hrest. cbn [map concat called fold_left].
    rewrite app_nil_r. reflexivity.
  - destruct Hrest as [[tok Htok] Hrest]. rewrite Htok in *.
    rewrite (IH fuel (Some tok)); [|exact Hrest|simpl in *; lia].
    now rewrite app_assoc.
Qed.

Lemma get_active_users_pages_break (srv : Server) customer e pages :
  forall fuel token users w,
    users_break srv (count_calls (trace w)) customer token pages e ->
    length pages < fuel ->
    fst (UsersForwarding.get_active_users_pages srv fuel customer token users w) =
    Ok (users ++ concat (map (fun page => default [] (up_users page)) pages)) /\
    calls (trace (snd (UsersForwarding.get_active_users_pages srv fuel customer
                         token users w))) =
    calls (trace w) ++ users_requests customer token pages
      ++ [UsersList customer
            (default token (last (map up_nextPageToken pages)))] /\
    disk (snd (UsersForwarding.get_active_users_pages srv fuel customer
                 token users w)) = disk w.
Proof.
  induction pages as [|page rest IH]; intros fuel token users w Hs Hfuel.
  - destruct fuel as [|fuel]; [simpl in Hfuel; lia|].
    cbn [UsersForwarding.get_active_users_pages]. unfold try_except.
    rewrite (bind_raise _ _ _ _ _ (execute_fail _ _ _ _ Hs)).
    unfold ret.
    cbn [fst snd map concat users_requests last default trace log disk app].
    rewrite app_nil_r, calls_call. repeat split.
  - destruct Hs as (Hpage & [tok Htok] & Hrest).
    destruct fuel as [|fuel]; [simpl in Hfuel; lia|].
    cbn [UsersForwarding.get_active_users_pages]. unfold try_except.
    rewrite (bind_ok _ _ _ _ _ (execute_reply _ _ _ _ Hpage)).
    rewrite Htok in *.
    destruct (IH fuel (Some tok) (users ++ default [] (up_users page))
                (log (Call (UsersList customer token)) w) Hrest
                ltac:(simpl in *; lia)) as (Hr & Hc & Hd).
    destruct (UsersForwarding.get_active_users_pages srv fuel customer (Some tok)
                (users ++ default [] (up_users page))
                (log (Call (UsersList customer token)) w)) as [[us|e'|] w1];
      cbn [fst snd] in *; try discriminate.
    injection Hr as ->. repeat split.
    + cbn [map concat]. now rewrite app_assoc.
    + rewrite Hc. cbn [trace log users_requests map]. rewrite calls_call.
      rewrite Htok, last_cons, <- !app_assoc. cbn [app].
      destruct (last (map up_nextPageToken rest)); reflexivity.
    + exact Hd.
Qed.

(** X4.  When the directory serves the user listing as a finite run of
    pages, [get_active_users] returns the users of all pages that are not
    suspended, in listing order, with one request per page; a user
    without a [suspended] field counts as active. *)
Theorem get_active_users_filters_all_pages :
  forall (srv : Server) fuel customer w pages,
    serves_users srv (count_calls (trace w)) customer None pages ->
    length pages <= fuel ->
    UsersForwarding.get_active_users srv fuel customer w =
    (Ok (active_users_of pages), called (users_requests customer None pages) w).
Proof.
  intros srv fuel customer w pages Hs Hfuel.
  unfold UsersForwarding.get_active_users.
  rewrite (bind_ok _ _ _ _ _
             (get_active_users_pages_serves srv customer pages fuel None [] w
                Hs Hfuel)).
  reflexivity.
Qed.

Lemma srv_paged_users_serves :
  serves_users srv_paged_users (count_calls (trace world0)) "C0" None
    [users_page_1; users_page_2].
Proof. simpl. repeat split; eauto. Defined.

(** Two pages, three users, one of them suspended. *)
Lemma get_active_users_filters_all_pages_witness :
  UsersForwarding.get_active_users srv_paged_users 2 "C0" world0 =
  (Ok [alice; carol],
   called [UsersList "C0" None; UsersList "C0" (Some "t2")] world0).
Proof.
  exact (get_active_users_filters_all_pages srv_paged_users 2 "C0" world0
           [users_page_1; users_page_2] srv_paged_users_serves
           ltac:(simpl; lia)).
Defined.

(** X5.  [get_active_users] absorbs a failure of any exception class on
    any page of the listing: it returns, as a normal result, the active
    users of the pages fetched before the failure (none when the first
    request fails), issues no request after the failed one and leaves the
    disk alone. *)
Theorem get_active_users_absorbs_listing_failure :
  forall (srv : Server) fuel customer w pages e,
    users_break srv (count_calls (trace w)) customer None pages e ->
    length pages < fuel ->
    let out := UsersForwarding.get_active_users srv fuel customer w in
    fst out = Ok (active_users_of pages) /\
    calls (trace (snd out)) =
      calls (trace w) ++ users_requests customer None pages
        ++ [UsersList customer (default None (last (map up_nextPageToken pages)))] /\
    disk (snd out) = disk w.
Proof.
  intros srv fuel customer w pages e Hs Hfuel.
  destruct (get_active_users_pages_break srv customer e pages fuel None [] w
              Hs Hfuel) as (Hr & Hc & Hd).
  cbv zeta. unfold UsersForwarding.get_active_users, bind.
  destruct (UsersForwarding.get_active_users_pages srv fuel customer None [] w)
    as [[us|e'|] w1]; cbn [fst snd] in *; try discriminate.
  injection Hr as ->. repeat split; assumption.
Qed.

Lemma srv_users_timeout_breaks :
  users_break srv_users_timeout (count_calls (trace world0)) "C0" None
    [users_page_1] TimeoutError.
Proof. simpl. repeat split; eauto. Defined.

(** The second page times out: the active user of the first page is the
    result. *)
Lemma get_active_users_absorbs_listing_failure_witness :
  let out := UsersForwarding.get_active_users srv_users_timeout 2 "C0" world0 in
  fst out = Ok [alice] /\
  calls (trace (snd out)) = [UsersList "C0" None; UsersList "C0" (Some "t2")] /\
  disk (snd out) = disk world0.
Proof.
  exact (get_active_users_absorbs_listing_failure srv_users_timeout 2 "C0" world0
           [users_page_1] TimeoutError srv_users_timeout_breaks
           ltac:(simpl; lia)).
Defined.

(** ** A group listing that fails *)

Lemma groups_cursor_after_cons token page rest :
  groups_cursor_after token (page :: rest)
  = groups_cursor_after (gp_nextPageToken page) rest.
Proof.
  unfold groups_cursor_after. cbn [map]. rewrite last_cons.
  destruct (last (map gp_nextPageToken rest)); reflexivity.
Qed.

Lemma called_app rqs1 rqs2 w :
  called (rqs1 ++ rqs2) w = called rqs2 (called rqs1 w).
Proof. unfold called. apply fold_left_app. Qed.

Lemma groups_get_google_groups_from_break (srv : Server) e pages :
  forall fuel token groups w,
    groups_break srv 200 (count_calls (trace w)) token pages e ->
    length pages < fuel ->
    GroupsBackup.get_google_groups_from srv fuel (Some token) groups w =
    (Raise e,
     called (groups_requests 200 token pages
             ++ [GroupsList 200 (groups_cursor_after token pages)]) w).
Proof.
  induction pages as [|page rest IH]; intros fuel token groups w Hs Hfuel.
  - destruct fuel as [|fuel]; [simpl in Hfuel; lia|].
    cbn [GroupsBackup.get_google_groups_from].
    now rewrite (bind_raise _ _ _ _ _ (execute_fail _ _ _ _ Hs)).
  - destruct Hs as (Hpage & Htok & Hrest).
    destruct fuel as [|fuel]; [simpl in Hfuel; lia|].
    cbn [GroupsBackup.get_google_groups_from].
    rewrite (bind_ok _ _ _ _ _ (execute_reply _ _ _ _ Hpage)).
    unfold list_next. rewrite Htok.
    rewrite (IH fuel (gp_nextPageToken page)); [|exact Hrest|simpl in *; lia].
    now rewrite groups_cursor_after_cons.
Qed.

Lemma settings_get_google_groups_from_break (srv : Server) e pages :
  forall fuel token groups w,
    groups_break srv 50 (count_calls (trace w)) token pages e ->
    length pages < fuel ->
    GgSettingsBackup.get_google_groups_from srv fuel (Some token) groups w =
    (Raise e,
     called (groups_requests 50 token pages
             ++ [GroupsList 50 (groups_cursor_after token pages)]) w).
Proof.
  induction pages as [|page rest IH]; intros fuel token groups w Hs Hfuel.
  - destruct fuel as [|fuel]; [simpl in Hfuel; lia|].
    cbn [GgSettingsBackup.get_google_groups_from].
    now rewrite (bind_raise _ _ _ _ _ (execute_fail _ _ _ _ Hs)).
  - destruct Hs as (Hpage & Htok & Hrest).
    destruct fuel as [|fuel]; [simpl in Hfuel; lia|].
    cbn [GgSettingsBackup.get_google_groups_from].
    rewrite (bind_ok _ _ _ _ _ (execute_reply _ _ _ _ Hpage)).
    unfold list_next. rewrite Htok.
    rewrite (IH fuel (gp_nextPageToken page)); [|exact Hrest|simpl in *; lia].
    now rewrite groups_cursor_after_cons.
Qed.

(** X6.  In both group scripts a group-listing request that fails, on
    the first page or on a later one and with any exception class, ends
    the run of [main] in that exception: the groups of the pages fetched
    before are dropped, the remote calls of the run are the probe and the
    listing requests up to the failed one (no detail fetch, no upload),
    and the disk is left as it was. *)
Theorem group_listing_failure_aborts_run :
  forall (srv : Server) ts fuel F w probe pages e,
    srv (count_calls (trace w)) (FilesList F) = Reply probe ->
    length pages < fuel ->
    (groups_break srv 200 (S (count_calls (trace w))) None pages e ->
     let out := GroupsBackup.main srv ts fuel F w in
     fst out = Raise e /\
     calls (trace (snd out)) =
       calls (trace w) ++ FilesList F :: groups_requests 200 None pages
         ++ [GroupsList 200 (groups_cursor_after None pages)] /\
     disk (snd out) = disk w)
    /\ (groups_break srv 50 (S (count_calls (trace w))) None pages e ->
        let out := GgSettingsBackup.main srv ts fuel F w in
        fst out = Raise e /\
        calls (trace (snd out)) =
          calls (trace w) ++ FilesList F :: groups_requests 50 None pages
            ++ [GroupsList 50 (groups_cursor_after None pages)] /\
        disk (snd out) = disk w).
Proof.
  intros srv ts fuel F w probe pages e Hprobe Hfuel. split; intros Hs.
  - assert (E : GroupsBackup.main srv ts fuel F w =
                (Raise e,
                 called (groups_requests 200 None pages
                         ++ [GroupsList 200 (groups_cursor_after None pages)])
                   (log (Call (FilesList F)) w))).
    { unfold GroupsBackup.main. unfold bind at 1.
      rewrite check_folder_exists_eval, Hprobe.
      unfold GroupsBackup.get_google_groups.
      now rewrite (bind_raise _ _ _ _ _
                     (groups_get_google_groups_from_break srv e pages fuel None []
                        (log (Call (FilesList F)) w) Hs Hfuel)). }
    cbv zeta. rewrite E. cbn [fst snd]. split; [reflexivity|]. split.
    + rewrite calls_called. cbn [trace log]. rewrite calls_call, <- app_assoc.
      reflexivity.
    + now rewrite disk_called.
  - assert (E : GgSettingsBackup.main srv ts fuel F w =
                (Raise e,
                 called (groups_requests 50 None pages
                         ++ [GroupsList 50 (groups_cursor_after None pages)])
                   (log (Call (FilesList F)) w))).
    { unfold GgSettingsBackup.main. unfold bind at 1.
      rewrite check_folder_exists_same, check_folder_exists_eval, Hprobe.
      unfold GgSettingsBackup.get_google_groups.
      now rewrite (bind_raise _ _ _ _ _
                     (settings_get_google_groups_from_break srv e pages fuel None []
                        (log (Call (FilesList F)) w) Hs Hfuel)). }
    cbv zeta. rewrite E. cbn [fst snd]. split; [reflexivity|]. split.
    + rewrite calls_called. cbn [trace log]. rewrite calls_call, <- app_assoc.
      reflexivity.
    + now rewrite disk_called.
Qed.

Lemma srv_groups_listing_breaks_after_one :
  groups_break srv_groups_listing_breaks 200 (S (count_calls (trace world0)))
    None [groups_page_1] (HttpError 500).
Proof. simpl. repeat split; reflexivity. Defined.

(** The second page of the listing is answered 500: the run raises it
    after the probe and two listing requests, with an empty disk. *)
Lemma group_listing_failure_aborts_run_witness :
  let out := GroupsBackup.main srv_groups_listing_breaks "20240828-000000" 5
               "folder" world0 in
  fst out = Raise (HttpError 500) /\
  calls (trace (snd out)) =
    [FilesList "folder"; GroupsList 200 None; GroupsList 200 (Some "p2")] /\
  disk (snd out) = disk world0.
Proof.
  exact (proj1 (group_listing_failure_aborts_run srv_groups_listing_breaks
                  "20240828-000000" 5 "folder" world0 {| fp_files := Some [] |}
                  [groups_page_1] (HttpError 500) eq_refl ltac:(simpl; lia))
           srv_groups_listing_breaks_after_one).
Defined.

(** ** A group without an e-mail address *)

(** X7.  In [export_groups_to_csv] a listed group that has no [email] key
    raises [KeyError], which the [except HttpError] clause of the loop
    does not catch: the export ends in that error at this group, the
    groups after it are not fetched, the file keeps the records written
    so far and no upload is attempted. *)
Theorem group_without_email_aborts_export :
  forall (srv : Server) ts before g after F w w1,
    GroupsBackup.write_groups_csv srv ts before w = (Ok tt, w1) ->
    g !! "email" = None ->
    GroupsBackup.export_groups_to_csv srv ts (before ++ g :: after) F w =
    (Raise (KeyError "email"), w1).
Proof.
  intros srv ts before g after F w w1 Hb Hg.
  unfold GroupsBackup.export_groups_to_csv.
  apply bind_raise. rewrite write_groups_csv_eq in *.
  rewrite for_each_app, Hb. cbn [for_each]. apply bind_raise.
  unfold GroupsBackup.export_group. now rewrite Hg.
Qed.

(** After one group with members, a group without address stops the
    export: only the first group was fetched, nothing was uploaded. *)
Lemma group_without_email_aborts_export_witness :
  let out := GroupsBackup.export_groups_to_csv srv_ten "20240828-000000"
               ([{[ "email" := "g1@example.org" ]}]
                ++ {[ "name" := "no address" ]} :: drop 1 ten_groups)
               "folder" world0 in
  fst out = Raise (KeyError "email") /\
  calls (trace (snd out)) = [MembersList "g1@example.org"].
Proof.
  cbv zeta.
  rewrite (group_without_email_aborts_export srv_ten "20240828-000000"
             [{[ "email" := "g1@example.org" ]}] {[ "name" := "no address" ]}
             (drop 1 ten_groups) "folder" world0
             (snd (GroupsBackup.write_groups_csv srv_ten "20240828-000000"
                     [{[ "email" := "g1@example.org" ]}] world0))).
  - split; vm_compute; reflexivity.
  - vm_compute. reflexivity.
  - vm_compute. reflexivity.
Defined.

(** ** The records of a group *)

(** X8.  When the member list of a group is answered on attempt [n]
    (after [n - 1] attempts answered 503, [n] at most 3), the loop body
    of [export_groups_to_csv] appends one record per member of the
    answer, in response order: the group address, then the member's
    [email], [role] and [status], each replaced by [N/A] when the member
    lacks it.  An answer without a [members] key appends nothing. *)
Theorem export_group_writes_member_rows :
  forall (srv : Server) ts g group_email w n page,
    g !! "email" = Some group_email ->
    1 <= n <= 3 ->
    fails_until srv (MembersList group_email) unavailable
      (count_calls (trace w)) (n - 1) ->
    srv (count_calls (trace w) + (n - 1)) (MembersList group_email) = Reply page ->
    GroupsBackup.export_group srv ts g w =
    (Ok tt,
     appended (GroupsBackup.csv_file ts)
       (map (member_row group_email) (default [] (mp_members page)))
       (log (Call (MembersList group_email))
          (retried (MembersList group_email) (repeat 5%Z (n - 1)) w))).
Proof.
  intros srv ts g group_email w n page Hg Hn Hf Hok.
  unfold GroupsBackup.export_group. rewrite Hg. unfold try_except.
  rewrite (bind_ok _ _ _ _ _
             (get_group_members_retry_ok srv group_email 3 5 w n page Hn
                (fails_until_eq _ _ (HttpError 503) _ _ Hf) Hok)).
  now rewrite (for_each_writerow (GroupsBackup.csv_file ts) (member_row group_email)).
Qed.

Lemma srv_flaky_members_fail_twice :
  fails_until srv_flaky (MembersList "b@example.org") unavailable
    (count_calls (trace world0)) (3 - 1).
Proof.
  intros k Hk. exists (HttpError 503).
  destruct k as [|[|k]]; [split; reflexivity..|simpl in Hk; lia].
Defined.

(** The report holds its header; the member list fails twice and is
    answered on the third attempt with one member that has an address
    only: the report then holds the header and that member's record. *)
Lemma export_group_writes_member_rows_witness :
  let out := GroupsBackup.export_group srv_flaky "20240828-000000"
               {[ "email" := "b@example.org" ]} world_with_groups_report in
  fst out = Ok tt /\
  disk (snd out) !! "/tmp/gg_backup_20240828-000000.csv" =
    Some [["Group Email"; "Member Email"; "Role"; "Status"];
          ["b@example.org"; "x@y.com"; "N/A"; "N/A"]] /\
  calls (trace (snd out)) =
    [MembersList "b@example.org"; MembersList "b@example.org";
     MembersList "b@example.org"] /\
  sleeps (trace (snd out)) = [5; 5]%Z.
Proof.
  assert (Hg : ({[ "email" := "b@example.org" ]} : Dict) !! "email"
               = Some "b@example.org") by (vm_compute; reflexivity).
  cbv zeta.
  rewrite (export_group_writes_member_rows srv_flaky "20240828-000000"
             {[ "email" := "b@example.org" ]} "b@example.org"
             world_with_groups_report 3
             {| mp_members := Some [{[ "email" := "x@y.com" ]}];
                mp_nextPageToken := None |}
             Hg ltac:(lia) srv_flaky_members_fail_twice eq_refl).
  repeat split; vm_compute; reflexivity.
Defined.

Lemma length_settings_row settings :
  length (settings_row settings) = length GgSettingsBackup.fields.
Proof. unfold settings_row. apply length_map. Qed.

(** X9.  When the settings of a group are answered on attempt [n] (after
    [n - 1] retried failures, [n] at most 3), the loop body of
    [export_groups_settings_to_csv] appends exactly one record, which
    has one field per column of the header: the setting of that name, or
    [N/A] when the answer lacks it.  An answer that is an empty object
    is falsy and appends nothing, like a failed fetch. *)
Theorem export_group_settings_writes_one_row :
  forall (srv : Server) ts g w n settings,
    1 <= n <= 3 ->
    fails_until srv (GroupsSettingsGet (g !! "email")) settings_retryable
      (count_calls (trace w)) (n - 1) ->
    srv (count_calls (trace w) + (n - 1)) (GroupsSettingsGet (g !! "email"))
    = Reply settings ->
    GgSettingsBackup.export_group_settings srv ts g w =
    (Ok tt,
     appended (GgSettingsBackup.csv_file ts)
       (if decide (settings = ∅) then [] else [settings_row settings])
       (log (Call (GroupsSettingsGet (g !! "email")))
          (retried (GroupsSettingsGet (g !! "email")) (linear_delays (n - 1)) w)))
    /\ length (settings_row settings) = 65.
Proof.
  intros srv ts g w n settings Hn Hf Hok. split; [|apply length_settings_row].
  unfold GgSettingsBackup.export_group_settings. cbv zeta.
  unfold GgSettingsBackup.get_group_settings.
  rewrite (bind_ok _ _ _ _ _
             (get_group_settings_with_retry_ok srv (g !! "email") 3 w n settings
                Hn Hf Hok)).
  unfold GgSettingsBackup.settings_truthy.
  repeat case_decide; try contradiction.
  - unfold ret. now rewrite appended_nil.
  - reflexivity.
Qed.

Lemma srv_flaky_settings_fail_twice :
  fails_until srv_flaky (GroupsSettingsGet (Some "b@example.org"))
    settings_retryable (count_calls (trace world0)) (3 - 1).
Proof.
  intros k Hk. exists (HttpError 503).
  destruct k as [|[|k]];
    [split; [reflexivity|right; exists 503%Z; reflexivity]..|simpl in Hk; lia].
Defined.

(** The report holds its header; the settings are answered on the third
    attempt with the address only: the report then holds the header and
    one record of 65 fields, the address followed by 64 times [N/A]. *)
Lemma export_group_settings_writes_one_row_witness :
  let out := GgSettingsBackup.export_group_settings srv_flaky "20240829-000000"
               {[ "email" := "b@example.org" ]} world_with_settings_report in
  fst out = Ok tt /\
  disk (snd out) !! "/tmp/gg_settings_backup_20240829-000000.csv" =
    Some [GgSettingsBackup.fields; "b@example.org" :: repeat "N/A" 64] /\
  calls (trace (snd out)) =
    [GroupsSettingsGet (Some "b@example.org");
     GroupsSettingsGet (Some "b@example.org");
     GroupsSettingsGet (Some "b@example.org")] /\
  sleeps (trace (snd out)) = [5; 10]%Z.
Proof.
  cbv zeta.
  destruct (export_group_settings_writes_one_row srv_flaky
              "20240829-000000" {[ "email" := "b@example.org" ]}
              world_with_settings_report 3
              {[ "email" := "b@example.org" ]} ltac:(lia)
              srv_flaky_settings_fail_twice eq_refl) as [H _].
  rewrite H. repeat split; vm_compute; reflexivity.
Defined.

(** ** Attempts are bounded, whatever the service answers *)

Lemma for_in_bound {X A St} (m : World -> nat) (body : X -> St -> M (ctl A St)) xs :
  (forall x st w, m (snd (body x st w)) <= S (m w)) ->
  forall st w, m (snd (for_in xs st body w)) <= m w + length xs.
Proof.
  intros Hb. induction xs as [|x xs IH]; intros st w.
  - cbn. lia.
  - cbn [for_in length]. unfold bind. specialize (Hb x st w).
    destruct (body x st w) as [[[a|st']|e|] w1]; unfold ret; cbn [snd] in *;
      [lia| |lia..].
    specialize (IH st' w1). lia.
Qed.

Lemma length_sleeps_call r t : length (sleeps (Call r :: t)) = length (sleeps t).
Proof. now rewrite sleeps_call. Qed.

Lemma length_sleeps_sleep d t :
  length (sleeps (Sleep d :: t)) = S (length (sleeps t)).
Proof. rewrite sleeps_sleep, length_app. simpl. lia. Qed.

(** One attempt of any of the four retry loops issues exactly one call
    and sleeps at most once. *)
Ltac one_attempt :=
  intros; unfold try_except, bind, execute;
  match goal with
  | |- context [?srv _ ?r] =>
      match type of srv with Server => destruct (srv _ r) as [?|[]] end
  end;
  cbv zeta; cbn [snd];
  repeat match goal with
    | |- context [if ?b then _ else _] => destruct b
    end;
  cbn [snd sleep ret raise log trace];
  rewrite ?count_calls_sleep, ?count_calls_call,
    ?length_sleeps_sleep, ?length_sleeps_call; lia.

Section AttemptBounds.
Variable srv : Server.

Lemma fwd_attempt_calls user_email a d w :
  count_calls (trace (snd (UsersForwarding.get_forwarding_settings_attempt
                             srv user_email a d w)))
  <= S (count_calls (trace w)).
Proof. unfold UsersForwarding.get_forwarding_settings_attempt. one_attempt. Qed.

Lemma fwd_attempt_sleeps user_email a d w :
  length (sleeps (trace (snd (UsersForwarding.get_forwarding_settings_attempt
                                srv user_email a d w))))
  <= S (length (sleeps (trace w))).
Proof. unfold UsersForwarding.get_forwarding_settings_attempt. one_attempt. Qed.

Lemma settings_attempt_calls max_retries group_email a u w :
  count_calls (trace (snd (GgSettingsBackup.get_group_settings_attempt
                             srv max_retries group_email a u w)))
  <= S (count_calls (trace w)).
Proof. unfold GgSettingsBackup.get_group_settings_attempt. one_attempt. Qed.

Lemma settings_attempt_sleeps max_retries group_email a u w :
  length (sleeps (trace (snd (GgSettingsBackup.get_group_settings_attempt
                                srv max_retries group_email a u w))))
  <= S (length (sleeps (trace w))).
Proof. unfold GgSettingsBackup.get_group_settings_attempt. one_attempt. Qed.

Lemma members_attempt_calls group_email retries delay a u w :
  count_calls (trace (snd (GroupsBackup.get_group_members_attempt
                             srv group_email retries delay a u w)))
  <= S (count_calls (trace w)).
Proof. unfold GroupsBackup.get_group_members_attempt. one_attempt. Qed.

Lemma members_attempt_sleeps group_email retries delay a u w :
  length (sleeps (trace (snd (GroupsBackup.get_group_members_attempt
                                srv group_email retries delay a u w))))
  <= S (length (sleeps (trace w))).
Proof. unfold GroupsBackup.get_group_members_attempt. one_attempt. Qed.

Lemma upload_attempt_calls filename F media retries delay a u w :
  count_calls (trace (snd (GroupsBackup.upload_attempt
                             srv filename F media retries delay a u w)))
  <= S (count_calls (trace w)).
Proof. unfold GroupsBackup.upload_attempt. one_attempt. Qed.

Lemma upload_attempt_sleeps filename F media retries delay a u w :
  length (sleeps (trace (snd (GroupsBackup.upload_attempt
                                srv filename F media retries delay a u w))))
  <= S (length (sleeps (trace w))).
Proof. unfold GroupsBackup.upload_attempt. one_attempt. Qed.
End AttemptBounds.

Lemma snd_bind_for_in {X A St B} (xs : list X) (st : St)
    (body : X -> St -> M (ctl A St)) (k : ctl A St -> M B) w :
  (forall c w', snd (k c w') = w') ->
  snd (bind (for_in xs st body) k w) = snd (for_in xs st body w).
Proof.
  intros Hk. unfold bind.
  destruct (for_in xs st body w) as [[c|e|] w1]; cbn [snd]; auto.
Qed.

(** X10.  Whatever the remote service answers, and whatever errors it
    raises, a fetch or an upload never issues more remote calls than its
    attempt bound, and never sleeps more often than that:
    [get_forwarding_settings] and [get_group_members] at most [retries]
    times, [get_group_settings] at most 3 times, [upload_file_to_drive]
    at most [retries] times. *)
Theorem attempts_never_exceed_bound :
  forall (srv : Server) w,
    (forall user_email retries delay,
       let w' := snd (UsersForwarding.get_forwarding_settings srv user_email
                        retries delay w) in
       count_calls (trace w') <= count_calls (trace w) + retries /\
       length (sleeps (trace w')) <= length (sleeps (trace w)) + retries)
    /\ (forall group_email,
       let w' := snd (GgSettingsBackup.get_group_settings srv group_email w) in
       count_calls (trace w') <= count_calls (trace w) + 3 /\
       length (sleeps (trace w')) <= length (sleeps (trace w)) + 3)
    /\ (forall group_email retries delay,
       let w' := snd (GroupsBackup.get_group_members srv group_email
                        retries delay w) in
       count_calls (trace w') <= count_calls (trace w) + retries /\
       length (sleeps (trace w')) <= length (sleeps (trace w)) + retries)
    /\ (forall csv_file filename F retries delay,
       let w' := snd (GroupsBackup.upload_file_to_drive srv csv_file filename F
                        retries delay w) in
       count_calls (trace w') <= count_calls (trace w) + retries /\
       length (sleeps (trace w')) <= length (sleeps (trace w)) + retries).
Proof.
  intros srv w. split; [|split; [|split]].
  - intros user_email retries delay. cbv zeta.
    unfold UsersForwarding.get_forwarding_settings.
    rewrite snd_bind_for_in by (intros [?|?] ?; reflexivity).
    pose proof (for_in_bound (fun w => count_calls (trace w)) _ (range retries)
                  (fwd_attempt_calls srv user_email) delay w) as H1.
    pose proof (for_in_bound (fun w => length (sleeps (trace w))) _ (range retries)
                  (fwd_attempt_sleeps srv user_email) delay w) as H2.
    unfold range in *. rewrite length_seq in *. cbv beta in *. split; assumption.
  - intros group_email. cbv zeta.
    unfold GgSettingsBackup.get_group_settings,
      GgSettingsBackup.get_group_settings_with.
    rewrite snd_bind_for_in by (intros [?|?] ?; reflexivity).
    pose proof (for_in_bound (fun w => count_calls (trace w)) _ (range 3)
                  (settings_attempt_calls srv 3 group_email) tt w) as H1.
    pose proof (for_in_bound (fun w => length (sleeps (trace w))) _ (range 3)
                  (settings_attempt_sleeps srv 3 group_email) tt w) as H2.
    unfold range in *. rewrite length_seq in *. cbv beta in *. split; assumption.
  - intros group_email retries delay. cbv zeta.
    unfold GroupsBackup.get_group_members.
    rewrite snd_bind_for_in by (intros [?|?] ?; reflexivity).
    pose proof (for_in_bound (fun w => count_calls (trace w)) _ (range retries)
                  (members_attempt_calls srv group_email retries delay) tt w) as H1.
    pose proof (for_in_bound (fun w => length (sleeps (trace w))) _ (range retries)
                  (members_attempt_sleeps srv group_email retries delay) tt w) as H2.
    unfold range in *. rewrite length_seq in *. cbv beta in *. split; assumption.
  - intros csv_file filename F retries delay. cbv zeta.
    unfold GroupsBackup.upload_file_to_drive. unfold bind at 1 3, read_file.
    destruct (disk w !! csv_file) as [media|]; [|cbn [snd]; lia].
    rewrite snd_bind_for_in by (intros [?|?] ?; reflexivity).
    pose proof (for_in_bound (fun w => count_calls (trace w)) _ (range retries)
                  (upload_attempt_calls srv filename F media retries delay) tt w)
      as H1.
    pose proof (for_in_bound (fun w => length (sleeps (trace w))) _ (range retries)
                  (upload_attempt_sleeps srv filename F media retries delay) tt w)
      as H2.
    unfold range in *. rewrite length_seq in *. cbv beta in *. split; assumption.
Qed.

(** ** Errors the upload does not retry *)

Lemma upload_attempt_raise (srv : Server) filename F media retries delay a w e :
  ~ upload_retryable e ->
  srv (count_calls (trace w)) (FilesCreate filename F None media) = Fail e ->
  GroupsBackup.upload_attempt srv filename F media retries delay a tt w =
  (Raise e, log (Call (FilesCreate filename F None media)) w).
Proof.
  intros He H. unfold GroupsBackup.upload_attempt, try_except, bind.
  rewrite (execute_fail _ _ _ _ H).
  destruct e; try reflexivity; exfalso; apply He; unfold upload_retryable; eauto.
Qed.

(** X11.  [upload_file_to_drive] retries [SSLEOFError] and [HttpError]
    only: an attempt that fails with any other exception (a timeout, for
    one) ends the upload in that exception at once, after [n - 1]
    retried attempts and with no sleep after the failed one; on the first
    attempt that is a single call and no sleep at all. *)
Theorem upload_propagates_other_errors :
  forall (srv : Server) csv_file filename F retries delay w media n e,
    disk w !! csv_file = Some media ->
    1 <= n <= retries ->
    fails_until srv (FilesCreate filename F None media) upload_retryable
      (count_calls (trace w)) (n - 1) ->
    srv (count_calls (trace w) + (n - 1)) (FilesCreate filename F None media)
    = Fail e ->
    ~ upload_retryable e ->
    GroupsBackup.upload_file_to_drive srv csv_file filename F retries delay w =
    (Raise e,
     log (Call (FilesCreate filename F None media))
       (retried (FilesCreate filename F None media) (repeat delay (n - 1)) w)).
Proof.
  intros srv csv_file filename F retries delay w media n e Hd Hn Hf He Hne.
  unfold GroupsBackup.upload_file_to_drive, range, bind, read_file. rewrite Hd.
  replace retries with ((n - 1) + S (retries - n)) at 1 by lia.
  rewrite seq_app, for_in_app.
  rewrite upload_attempts_fail by (lia || exact Hf).
  cbn [seq for_in]. unfold bind.
  rewrite (upload_attempt_raise srv filename F media _ _ _ _ e Hne); [reflexivity|].
  rewrite count_calls_retried, repeat_length. exact He.
Qed.

Lemma srv_upload_timeout_no_failure_before :
  fails_until srv_upload_timeout
    (FilesCreate "report.csv" "folder" None [["Group Email"]]) upload_retryable
    (count_calls (trace world_with_file)) (1 - 1).
Proof. intros k Hk. simpl in Hk. lia. Defined.

(** The first upload attempt times out: one call, no sleep, no retry. *)
Lemma upload_propagates_other_errors_witness :
  GroupsBackup.upload_file_to_drive srv_upload_timeout "/tmp/report.csv"
    "report.csv" "folder" 3 5 world_with_file =
  (Raise TimeoutError,
   log (Call (FilesCreate "report.csv" "folder" None [["Group Email"]]))
     world_with_file).
Proof.
  assert (Hd : disk world_with_file !! "/tmp/report.csv" = Some [["Group Email"]])
    by (vm_compute; reflexivity).
  assert (Hne : ~ upload_retryable TimeoutError).
  { intros [H|[status H]]; discriminate H. }
  exact (upload_propagates_other_errors srv_upload_timeout "/tmp/report.csv"
           "report.csv" "folder" 3 5%Z world_with_file [["Group Email"]] 1
           TimeoutError Hd ltac:(lia) srv_upload_timeout_no_failure_before
           eq_refl Hne).
Defined.

(** ** Every record has as many fields as the header *)

Lemma grows_by_records_refl path n w : grows_by_records path n w w.
Proof.
  intros rows H. exists []. rewrite app_nil_r. split; [exact H|constructor].
Qed.

Lemma grows_by_records_trans path n w1 w2 w3 :
  grows_by_records path n w1 w2 -> grows_by_records path n w2 w3 ->
  grows_by_records path n w1 w3.
Proof.
  intros H12 H23 rows H.
  destruct (H12 rows H) as (more1 & H1 & F1).
  destruct (H23 _ H1) as (more2 & H2 & F2).
  exists (more1 ++ more2). rewrite app_assoc. split; [exact H2|].
  apply Forall_app. now split.
Qed.

Lemma respects_same_disk_grows path n {A} (m : M A) :
  respects same_disk m -> respects (grows_by_records path n) m.
Proof.
  intros Hm w rows H. exists []. rewrite app_nil_r.
  split; [|constructor]. now rewrite (Hm w).
Qed.

Lemma grows_writerow path n row :
  length row = n -> respects (grows_by_records path n) (writerow path row).
Proof.
  intros Hrow w rows H. exists [row]. split.
  - cbn [writerow snd disk]. now rewrite lookup_alter_eq, H.
  - now repeat constructor.
Qed.

Ltac grows_auto path n :=
  repeat respects_step (grows_by_records_refl path n)
                       (grows_by_records_trans path n).

Section RecordsInvariant.
Variable srv : Server.
Variable ts : string.

Lemma get_group_members_same_disk group_email retries delay :
  respects same_disk (GroupsBackup.get_group_members srv group_email retries delay).
Proof.
  unfold GroupsBackup.get_group_members. same_disk_auto.
  unfold GroupsBackup.get_group_members_attempt. same_disk_auto.
Qed.

Lemma get_group_settings_same_disk group_email :
  respects same_disk (GgSettingsBackup.get_group_settings srv group_email).
Proof.
  unfold GgSettingsBackup.get_group_settings,
    GgSettingsBackup.get_group_settings_with.
  same_disk_auto.
  unfold GgSettingsBackup.get_group_settings_attempt. same_disk_auto.
Qed.

Lemma get_forwarding_settings_same_disk user_email retries delay :
  respects same_disk
    (UsersForwarding.get_forwarding_settings srv user_email retries delay).
Proof.
  unfold UsersForwarding.get_forwarding_settings. same_disk_auto.
  unfold UsersForwarding.get_forwarding_settings_attempt. same_disk_auto.
Qed.

Lemma export_group_grows g :
  respects (grows_by_records (GroupsBackup.csv_file ts) 4)
    (GroupsBackup.export_group srv ts g).
Proof.
  unfold GroupsBackup.export_group.
  grows_auto (GroupsBackup.csv_file ts) 4.
  - apply respects_same_disk_grows, get_group_members_same_disk.
  - now apply grows_writerow.
Qed.

Lemma export_group_settings_grows g :
  respects (grows_by_records (GgSettingsBackup.csv_file ts) 65)
    (GgSettingsBackup.export_group_settings srv ts g).
Proof.
  unfold GgSettingsBackup.export_group_settings. cbv zeta.
  grows_auto (GgSettingsBackup.csv_file ts) 65.
  - apply respects_same_disk_grows, get_group_settings_same_disk.
  - apply grows_writerow. now rewrite length_map.
Qed.

Lemma groups_export_tail_grows groups F :
  respects (grows_by_records (GroupsBackup.csv_file ts) 4)
    (for_each groups (GroupsBackup.export_group srv ts) ;;;
     GroupsBackup.upload_file_to_drive srv (GroupsBackup.csv_file ts)
       (GroupsBackup.filename ts) F 3 5 ;;;
     ret tt).
Proof.
  grows_auto (GroupsBackup.csv_file ts) 4.
  - apply export_group_grows.
  - apply respects_same_disk_grows, upload_file_to_drive_same_disk.
Qed.

Lemma settings_export_tail_grows groups F :
  respects (grows_by_records (GgSettingsBackup.csv_file ts) 65)
    (for_each groups (GgSettingsBackup.export_group_settings srv ts) ;;;
     GgSettingsBackup.upload_file_to_drive srv (GgSettingsBackup.csv_file ts)
       (GgSettingsBackup.filename ts) F 3 5 ;;;
     ret tt).
Proof.
  grows_auto (GgSettingsBackup.csv_file ts) 65.
  - apply export_group_settings_grows.
  - apply respects_same_disk_grows. rewrite upload_file_to_drive_same.
    apply upload_file_to_drive_same_disk.
Qed.
End RecordsInvariant.

(** X12.  Whatever the remote service answers or raises, and whether the
    export ends normally or in an exception, the file that
    [export_groups_to_csv] leaves on disk starts with the header row and
    every record after it has exactly 4 fields; the file that
    [export_groups_settings_to_csv] leaves starts with its header and
    every record after it has exactly 65 fields, as many as the header.
    What the file held before the run is gone. *)
Theorem exported_file_is_a_table :
  forall (srv : Server) ts groups F w,
    (exists records,
       disk (snd (GroupsBackup.export_groups_to_csv srv ts groups F w))
         !! GroupsBackup.csv_file ts = Some (GroupsBackup.header :: records) /\
       Forall (fun row : Row => length row = length GroupsBackup.header) records)
    /\ (exists records,
       disk (snd (GgSettingsBackup.export_groups_settings_to_csv srv ts groups F w))
         !! GgSettingsBackup.csv_file ts = Some (GgSettingsBackup.fields :: records) /\
       Forall (fun row : Row => length row = length GgSettingsBackup.fields) records).
Proof.
  intros srv ts groups F w. split.
  - set (w0 := {| trace := trace w;
                  disk := alter (fun rows => rows ++ [GroupsBackup.header])
                            (GroupsBackup.csv_file ts)
                            (<[GroupsBackup.csv_file ts := []]> (disk w)) |}).
    assert (H0 : disk w0 !! GroupsBackup.csv_file ts = Some [GroupsBackup.header]).
    { cbn [w0 disk]. now rewrite lookup_alter_eq, lookup_insert_eq. }
    destruct (groups_export_tail_grows srv ts groups F w0 _ H0)
      as (more & Hm & HF).
    exists more. split; [exact Hm|exact HF].
  - set (w0 := {| trace := trace w;
                  disk := alter (fun rows => rows ++ [GgSettingsBackup.fields])
                            (GgSettingsBackup.csv_file ts)
                            (<[GgSettingsBackup.csv_file ts := []]> (disk w)) |}).
    assert (H0 : disk w0 !! GgSettingsBackup.csv_file ts
                 = Some [GgSettingsBackup.fields]).
    { cbn [w0 disk]. now rewrite lookup_alter_eq, lookup_insert_eq. }
    destruct (settings_export_tail_grows srv ts groups F w0 _ H0)
      as (more & Hm & HF).
    exists more. split; [exact Hm|exact HF].
Qed.

(** ** The forwarding report *)

Lemma forwarding_upload_same :
  UsersForwarding.upload_to_drive = SharedDrivesAcls.upload_to_drive.
Proof. reflexivity. Qed.

Lemma forwarding_rows_loop (srv : Server) (detail : string -> AutoForwarding)
    path users :
  (forall k user_email, srv k (GetAutoForwarding user_email)
                        = Reply (detail user_email)) ->
  forall w,
    for_each users (fun user =>
      fd <- UsersForwarding.get_forwarding_settings srv (primaryEmail user) 5 30 ;;
      let (forwarding_email, disposition) := fd in
      if truthy forwarding_email then
        writerow path
          [primaryEmail user; fullName user;
           default EmptyString forwarding_email;
           default EmptyString disposition]
      else ret tt) w =
    (Ok tt,
     appended path
       (omap (fun user => user_row user (detail (primaryEmail user))) users)
       (called (map (fun user => GetAutoForwarding (primaryEmail user)) users) w)).
Proof.
  intros Hsrv. induction users as [|user users IH]; intros w.
  - cbn [for_each omap map called fold_left]. now rewrite appended_nil.
  - cbn [for_each map]. rewrite called_cons.
    unfold bind at 1. unfold bind at 1.
    rewrite (get_forwarding_settings_retry_ok srv (primaryEmail user) 5 30 w 1
               (detail (primaryEmail user)));
      [|lia|intros k Hk; simpl in Hk; lia|apply Hsrv].
    change (exp_delays 30 (1 - 1)) with (@nil Z).
    change (retried ?rq [] ?w0) with w0.
    assert (Ho : omap (fun user0 => user_row user0 (detail (primaryEmail user0)))
                   (user :: users)
                 = match user_row user (detail (primaryEmail user)) with
                   | Some row => [row]
                   | None => []
                   end
                   ++ omap (fun user0 => user_row user0 (detail (primaryEmail user0)))
                        users).
    { cbn [omap list_omap].
      destruct (user_row user (detail (primaryEmail user))); reflexivity. }
    rewrite Ho. unfold user_row at 1, UsersForwarding.forwarding_of.
    destruct (detail (primaryEmail user)) as [on address disp].
    cbn [enabled emailAddress disposition].
    destruct on; [destruct address as [[|c address]|]|];
      cbn [truthy default from_option id String.eqb negb]; cbv iota beta.
    + unfold ret at 1. cbv iota beta. rewrite IH. reflexivity.
    + change (writerow path ?row ?w0) with (Ok tt, appended path [row] w0).
      cbv iota beta. rewrite IH, appended_called, appended_app. reflexivity.
    + change (writerow path ?row ?w0) with (Ok tt, appended path [row] w0).
      cbv iota beta. rewrite IH, appended_called, appended_app. reflexivity.
    + unfold ret at 1. cbv iota beta. rewrite IH. reflexivity.
Qed.

(** X13.  When every forwarding request is answered at once,
    [export_users_with_forwarding_to_csv] issues one request per user, in
    the order of the list, and writes the headers followed by one record
    for each user whose forwarding is enabled and whose address is not
    the empty string, in the same order: primary e-mail, full name,
    forwarding address and disposition, [N/A] standing for an address or
    disposition the answer lacks.  A user whose forwarding is disabled
    gets no record, whatever address the answer carries.  The upload
    request that follows carries exactly that file. *)
Theorem forwarding_report_content :
  forall (srv : Server) (detail : string -> AutoForwarding) ts users F w,
    (forall k user_email, srv k (GetAutoForwarding user_email)
                          = Reply (detail user_email)) ->
    let out := UsersForwarding.export_users_with_forwarding_to_csv srv ts users F w in
    let report := UsersForwarding.headers
                  :: omap (fun user => user_row user (detail (primaryEmail user)))
                       users in
    disk (snd out) !! UsersForwarding.filename ts = Some report /\
    calls (trace (snd out)) =
      calls (trace w)
      ++ map (fun user => GetAutoForwarding (primaryEmail user)) users
      ++ [FilesCreate (UsersForwarding.filename ts) F
            (Some "application/vnd.google-apps.spreadsheet") report].
Proof.
  intros srv detail ts users F w Hsrv.
  set (rows := omap (fun user => user_row user (detail (primaryEmail user))) users).
  set (w0 := {| trace := trace w;
                disk := alter (fun old => old ++ [UsersForwarding.headers])
                          (UsersForwarding.filename ts)
                          (<[UsersForwarding.filename ts := []]> (disk w)) |}).
  set (w1 := appended (UsersForwarding.filename ts) rows
               (called (map (fun user => GetAutoForwarding (primaryEmail user))
                          users) w0)).
  assert (H1 : disk w1 !! UsersForwarding.filename ts
               = Some (UsersForwarding.headers :: rows)).
  { unfold w1. rewrite (appended_lookup _ _ _ [UsersForwarding.headers]);
      [reflexivity|].
    rewrite disk_called. cbn [w0 disk].
    now rewrite lookup_alter_eq, lookup_insert_eq. }
  assert (E : snd (UsersForwarding.export_users_with_forwarding_to_csv
                     srv ts users F w)
              = snd (SharedDrivesAcls.upload_to_drive srv
                       (UsersForwarding.filename ts) F w1)).
  { unfold UsersForwarding.export_users_with_forwarding_to_csv.
    unfold bind at 1, open_w. unfold bind at 1, writerow. fold w0.
    rewrite (bind_ok _ _ _ _ _
               (forwarding_rows_loop srv detail (UsersForwarding.filename ts)
                  users Hsrv w0)).
    reflexivity. }
  cbv zeta. rewrite E.
  rewrite (shared_drives_upload_world srv _ F w1 _ H1).
  cbn [log disk trace]. split; [exact H1|].
  rewrite calls_call. unfold w1. cbn [appended trace].
  rewrite calls_called. cbn [w0 trace]. now rewrite <- app_assoc.
Qed.

Lemma srv_forwarding_answers k user_email :
  srv_forwarding k (GetAutoForwarding user_email)
  = Reply (forwarding_detail user_email).
Proof. reflexivity. Defined.

(** Three users: [alice] forwards, [carol] does not, [dave] has
    forwarding enabled without an address. *)
Lemma forwarding_report_content_witness :
  let out := UsersForwarding.export_users_with_forwarding_to_csv srv_forwarding
               "20240909-000000" [alice; carol; dave] "folder" world0 in
  disk (snd out) !! UsersForwarding.filename "20240909-000000" =
    Some [["Primary Email"; "Full Name"; "Forwarding Email Address"; "Disposition"];
          ["alice@example.org"; "Alice"; "elsewhere@example.org"; "archive"];
          ["dave@example.org"; "Dave"; "N/A"; "N/A"]] /\
  length (calls (trace (snd out))) = 4.
Proof.
  cbv zeta.
  destruct (forwarding_report_content srv_forwarding forwarding_detail
              "20240909-000000" [alice; carol; dave] "folder" world0
              srv_forwarding_answers) as [Hd Hc].
  split.
  - rewrite Hd. vm_compute. reflexivity.
  - rewrite Hc. reflexivity.
Defined.

(** ** Listing the shared drives *)

Lemma list_shared_drives_pages (srv : Server) pages :
  forall fuel token drives w,
    serves_drives srv (count_calls (trace w)) token pages ->
    length pages <= fuel ->
    SharedDrivesAcls.list_shared_drives srv fuel token drives w =
    (Ok (drives ++ drives_of pages), called (drives_requests token pages) w).
Proof.
  induction pages as [|page rest IH]; intros fuel token drives w Hs Hfuel;
    [destruct Hs|].
  destruct Hs as [Hpage Hrest].
  destruct fuel as [|fuel]; [simpl in Hfuel; lia|].
  cbn [SharedDrivesAcls.list_shared_drives].
  rewrite (bind_ok _ _ _ _ _ (execute_reply _ _ _ _ Hpage)).
  unfold drives_of. cbn [map concat drives_requests]. rewrite called_cons.
  destruct rest as [|page' rest'].
  - rewrite Hrest. cbn [negb map concat called fold_left].
    rewrite app_nil_r. reflexivity.
  - destruct Hrest as [Htok Hrest]. rewrite Htok. cbn [negb].
    rewrite (IH fuel (dp_nextPageToken page)); [|exact Hrest|simpl in *; lia].
    unfold drives_of. now rewrite app_assoc.
Qed.

Lemma drives_cursor_after_cons token page rest :
  drives_cursor_after token (page :: rest)
  = drives_cursor_after (dp_nextPageToken page) rest.
Proof.
  unfold drives_cursor_after. cbn [map]. rewrite last_cons.
  destruct (last (map dp_nextPageToken rest)); reflexivity.
Qed.

Lemma list_shared_drives_break (srv : Server) e pages :
  forall fuel token drives w,
    drives_break srv (count_calls (trace w)) token pages e ->
    length pages < fuel ->
    SharedDrivesAcls.list_shared_drives srv fuel token drives w =
    (Raise e,
     called (drives_requests token pages
             ++ [DrivesList (drives_cursor_after token pages)]) w).
Proof.
  induction pages as [|page rest IH]; intros fuel token drives w Hs Hfuel.
  - destruct fuel as [|fuel]; [simpl in Hfuel; lia|].
    cbn [SharedDrivesAcls.list_shared_drives].
    now rewrite (bind_raise _ _ _ _ _ (execute_fail _ _ _ _ Hs)).
  - destruct Hs as (Hpage & Htok & Hrest).
    destruct fuel as [|fuel]; [simpl in Hfuel; lia|].
    cbn [SharedDrivesAcls.list_shared_drives].
    rewrite (bind_ok _ _ _ _ _ (execute_reply _ _ _ _ Hpage)).
    rewrite Htok. cbn [negb].
    rewrite (IH fuel (dp_nextPageToken page)); [|exact Hrest|simpl in *; lia].
    now rewrite drives_cursor_after_cons.
Qed.

(** X14.  When the shared drives are served as a finite run of pages,
    the listing loop of [export_shared_drive_acls] gathers the drives of
    all pages in page and response order, with one request per page that
    carries the cursor of the page before it; a page whose cursor is
    missing or the empty string ends the listing. *)
Theorem list_shared_drives_collects_all_pages :
  forall (srv : Server) fuel w pages,
    serves_drives srv (count_calls (trace w)) None pages ->
    length pages <= fuel ->
    SharedDrivesAcls.list_shared_drives srv fuel None [] w =
    (Ok (drives_of pages), called (drives_requests None pages) w).
Proof.
  intros srv fuel w pages Hs Hfuel.
  now rewrite (list_shared_drives_pages srv pages fuel None [] w).
Qed.

Lemma srv_paged_drives_serves :
  serves_drives srv_paged_drives (count_calls (trace world0)) None
    [drives_page_1; drives_page_2].
Proof. simpl. repeat split; reflexivity. Defined.

(** Two pages, two drives; the empty cursor of the second page ends the
    listing. *)
Lemma list_shared_drives_collects_all_pages_witness :
  SharedDrivesAcls.list_shared_drives srv_paged_drives 2 None [] world0 =
  (Ok [drive_1; {[ "id" := "d2"; "name" := "Drive 2" ]}],
   called [DrivesList None; DrivesList (Some "d-2")] world0).
Proof.
  exact (list_shared_drives_collects_all_pages srv_paged_drives 2 world0
           [drives_page_1; drives_page_2] srv_paged_drives_serves
           ltac:(simpl; lia)).
Defined.

(** X15.  In [export_shared_drive_acls] a drive-listing request that
    fails with an [HttpError], on the first page or a later one, is
    absorbed by the outer [except HttpError]: the function returns
    normally after the listing requests up to the failed one, having
    written no file and attempted no upload; the drives of the pages
    fetched before are dropped.  A failure of another exception class
    leaves the function as that exception, after the same calls. *)
Theorem drive_listing_failure_ends_export :
  forall (srv : Server) ts fuel F w pages e,
    drives_break srv (count_calls (trace w)) None pages e ->
    length pages < fuel ->
    SharedDrivesAcls.export_shared_drive_acls srv ts fuel F w =
    (match e with HttpError _ => Ok tt | _ => Raise e end,
     called (drives_requests None pages
             ++ [DrivesList (drives_cursor_after None pages)]) w).
Proof.
  intros srv ts fuel F w pages e Hs Hfuel.
  unfold SharedDrivesAcls.export_shared_drive_acls, try_except.
  rewrite (bind_raise _ _ _ _ _
             (list_shared_drives_break srv e pages fuel None [] w Hs Hfuel)).
  destruct e; reflexivity.
Qed.

Lemma srv_drives_listing_breaks_after_one :
  drives_break srv_drives_listing_breaks (count_calls (trace world0)) None
    [drives_page_1] (HttpError 403).
Proof. simpl. repeat split; reflexivity. Defined.

(** The second page of the listing is refused: the export ends normally
    after two listing requests, with an empty disk. *)
Lemma drive_listing_failure_ends_export_witness :
  let out := SharedDrivesAcls.export_shared_drive_acls srv_drives_listing_breaks
               "20240910-000000" 5 "folder" world0 in
  out = (Ok tt, called [DrivesList None; DrivesList (Some "d-2")] world0) /\
  disk (snd out) = ∅.
Proof.
  cbv zeta.
  rewrite (drive_listing_failure_ends_export srv_drives_listing_breaks
             "20240910-000000" 5 "folder" world0 [drives_page_1] (HttpError 403)
             srv_drives_listing_breaks_after_one ltac:(simpl; lia)).
  split; reflexivity.
Defined.

Lemma get_active_users_filters_all_pages_aux (srv : Server) fuel customer w pages :
  serves_users srv (count_calls (trace w)) customer None pages ->
  length pages <= fuel ->
  UsersForwarding.get_active_users srv fuel customer w =
  (Ok (active_users_of pages), called (users_requests customer None pages) w).
Proof.
  intros Hs Hfuel. unfold UsersForwarding.get_active_users.
  rewrite (bind_ok _ _ _ _ _
             (get_active_users_pages_serves srv customer pages fuel None [] w
                Hs Hfuel)).
  reflexivity.
Qed.

(** ** Member fetches that fail without being retried *)

(** X16.  In [export_groups_to_csv], a member fetch whose first error is
    an [HttpError] other than 503 skips the group after that single call:
    no record, no sleep, and the loop goes on.  A member fetch whose
    first error is no [HttpError] at all (a timeout, a broken
    connection) is caught nowhere: the export ends in that exception at
    this group, with the records written so far on disk, no further
    fetch and no upload. *)
Theorem member_fetch_errors_skip_or_abort :
  (forall (srv : Server) ts g group_email w status,
     g !! "email" = Some group_email ->
     status <> 503%Z ->
     srv (count_calls (trace w)) (MembersList group_email)
     = Fail (HttpError status) ->
     GroupsBackup.export_group srv ts g w =
     (Ok tt, log (Call (MembersList group_email)) w))
  /\ (forall (srv : Server) ts before g group_email after F w w1 e,
     GroupsBackup.write_groups_csv srv ts before w = (Ok tt, w1) ->
     g !! "email" = Some group_email ->
     (forall status, e <> HttpError status) ->
     srv (count_calls (trace w1)) (MembersList group_email) = Fail e ->
     GroupsBackup.export_groups_to_csv srv ts (before ++ g :: after) F w =
     (Raise e, log (Call (MembersList group_email)) w1)).
Proof.
  split.
  - intros srv ts g group_email w status Hg Hs H.
    unfold GroupsBackup.export_group. rewrite Hg. unfold try_except.
    rewrite (bind_raise _ _ _ _ _
               (get_group_members_raise srv group_email 3 5 w (HttpError status)
                  ltac:(lia) ltac:(congruence) H)).
    reflexivity.
  - intros srv ts before g group_email after F w w1 e Hb Hg He H.
    unfold GroupsBackup.export_groups_to_csv.
    apply bind_raise. rewrite write_groups_csv_eq in *.
    rewrite for_each_app, Hb. cbn [for_each]. apply bind_raise.
    unfold GroupsBackup.export_group. rewrite Hg. unfold try_except.
    rewrite (bind_raise _ _ _ _ _
               (get_group_members_raise srv group_email 3 5 w1 e
                  ltac:(lia) (He 503%Z) H)).
    destruct e; try reflexivity. now destruct (He status).
Qed.

(** A timeout on the member list of the first group ends the export. *)
Lemma member_fetch_errors_skip_or_abort_witness :
  GroupsBackup.export_groups_to_csv srv_members_timeout "20240828-000000"
    ([] ++ {[ "email" := "g1@example.org" ]} :: drop 1 ten_groups) "folder" world0 =
  (Raise TimeoutError,
   log (Call (MembersList "g1@example.org"))
     (snd (GroupsBackup.write_groups_csv srv_members_timeout "20240828-000000"
             [] world0))).
Proof.
  assert (Hg : ({[ "email" := "g1@example.org" ]} : Dict) !! "email"
               = Some "g1@example.org") by (vm_compute; reflexivity).
  assert (He : forall status, TimeoutError <> HttpError status)
    by (intros status; discriminate).
  exact (proj2 member_fetch_errors_skip_or_abort srv_members_timeout
           "20240828-000000" [] {[ "email" := "g1@example.org" ]}
           "g1@example.org" (drop 1 ten_groups) "folder" world0 _ TimeoutError
           eq_refl Hg He eq_refl).
Defined.

(** ** Runs of the forwarding script that export nothing *)

(** X17.  The [__main__] block of the forwarding script exports nothing,
    and still ends normally, when no active user comes back: when the
    first listing request fails, whatever the exception, the run is that
    single call; when the listing is served in full and all its users
    are suspended, the run is the listing requests.  In both cases no
    file is written, no settings are fetched and nothing is uploaded.
    Without a [CUSTOMER_ID], or with an empty one, the run raises
    [ValueError] before any remote call. *)
Theorem forwarding_run_without_active_users :
  forall (srv : Server) ts fuel F w,
    (forall customer e,
       truthy (Some customer) = true ->
       1 <= fuel ->
       srv (count_calls (trace w)) (UsersList customer None) = Fail e ->
       UsersForwarding.main srv ts fuel (Some customer) F w =
       (Ok tt, log (Call (UsersList customer None)) w))
    /\ (forall customer pages,
       truthy (Some customer) = true ->
       serves_users srv (count_calls (trace w)) customer None pages ->
       length pages <= fuel ->
       active_users_of pages = [] ->
       UsersForwarding.main srv ts fuel (Some customer) F w =
       (Ok tt, called (users_requests customer None pages) w))
    /\ UsersForwarding.main srv ts fuel None F w = (Raise ValueError, w)
    /\ UsersForwarding.main srv ts fuel (Some EmptyString) F w
       = (Raise ValueError, w).
Proof.
  intros srv ts fuel F w. split; [|split; [|split; reflexivity]].
  - intros customer e Hc Hfuel H.
    unfold UsersForwarding.main. rewrite Hc. cbn [negb].
    destruct fuel as [|fuel]; [lia|].
    unfold UsersForwarding.get_active_users.
    cbn [UsersForwarding.get_active_users_pages].
    unfold bind, try_except. rewrite (execute_fail _ _ _ _ H). reflexivity.
  - intros customer pages Hc Hs Hfuel Hnone.
    unfold UsersForwarding.main. rewrite Hc. cbn [negb].
    rewrite (bind_ok _ _ _ _ _
               (get_active_users_filters_all_pages_aux srv fuel customer w pages
                  Hs Hfuel)).
    rewrite Hnone. reflexivity.
Qed.

(** The listing is answered 500: one call, a normal end, an empty disk. *)
Lemma forwarding_run_without_active_users_witness :
  UsersForwarding.main srv_users_down "20240909-000000" 5 (Some "C0") "folder"
    world0 =
  (Ok tt, log (Call (UsersList "C0" None)) world0).
Proof.
  exact (proj1 (forwarding_run_without_active_users srv_users_down
                  "20240909-000000" 5 "folder" world0)
           "C0" (HttpError 500) eq_refl ltac:(lia) eq_refl).
Defined.

(** ** The single-attempt upload *)

(** X18.  [upload_to_drive] of the forwarding and of the shared-drive
    script makes exactly one create call, carrying the file as it is on
    disk, and never sleeps: it ends normally when the call is answered
    and also when it raises an [HttpError], and it ends in the exception
    when the call raises anything else. *)
Theorem upload_to_drive_single_attempt :
  forall (srv : Server) filename F w media,
    disk w !! filename = Some media ->
    let rq := FilesCreate filename F
                (Some "application/vnd.google-apps.spreadsheet") media in
    let outcome := match srv (count_calls (trace w)) rq with
                   | Reply _ => Ok tt
                   | Fail (HttpError _) => Ok tt
                   | Fail e => Raise e
                   end in
    UsersForwarding.upload_to_drive srv filename F w = (outcome, log (Call rq) w)
    /\ SharedDrivesAcls.upload_to_drive srv filename F w
       = (outcome, log (Call rq) w).
Proof.
  intros srv filename F w media Hd. cbv zeta.
  rewrite forwarding_upload_same. split;
    unfold SharedDrivesAcls.upload_to_drive, try_except, bind, read_file, execute;
    rewrite Hd; destruct (srv _ _) as [file|[]]; reflexivity.
Qed.

Lemma world_with_file_has_report :
  disk world_with_file !! "/tmp/report.csv" = Some [["Group Email"]].
Proof. vm_compute. reflexivity. Defined.

(** An upload answered 503 ends normally after its single call. *)
Lemma upload_to_drive_single_attempt_witness :
  UsersForwarding.upload_to_drive srv_upload_down "/tmp/report.csv" "folder"
    world_with_file =
  (Ok tt,
   log (Call (FilesCreate "/tmp/report.csv" "folder"
                (Some "application/vnd.google-apps.spreadsheet")
                [["Group Email"]])) world_with_file).
Proof.
  exact (proj1 (upload_to_drive_single_attempt srv_upload_down "/tmp/report.csv"
                  "folder" world_with_file [["Group Email"]]
                  world_with_file_has_report)).
Defined.

(** ** Whole runs *)

Lemma for_each_export_drive_answered (srv : Server) ts fuel
    (perms : string -> PermissionsPage) drives :
  1 <= fuel ->
  (forall k drive_id,
     srv k (PermissionsList drive_id None) = Reply (perms drive_id) /\
     truthy (pp_nextPageToken (perms drive_id)) = false) ->
  Forall (fun d : Dict => is_Some (d !! "id") /\ is_Some (d !! "name")) drives ->
  forall w,
    for_each drives (SharedDrivesAcls.export_drive srv ts fuel) w =
    (Ok tt,
     appended (SharedDrivesAcls.filename ts)
       (concat (map (drive_rows perms) drives))
       (called (map drive_request drives) w)).
Proof.
  intros Hfuel Hp. induction 1 as [|d drives [[drive_id Hid] [drive_name Hname]] _ IH];
    intros w.
  - cbn [for_each map concat called fold_left]. now rewrite appended_nil.
  - cbn [for_each map concat]. rewrite called_cons.
    assert (E : SharedDrivesAcls.export_drive srv ts fuel d w =
                (Ok tt,
                 appended (SharedDrivesAcls.filename ts) (drive_rows perms d)
                   (log (Call (drive_request d)) w))).
    { unfold SharedDrivesAcls.export_drive, drive_rows, drive_request.
      rewrite Hid, Hname. unfold try_except.
      rewrite (write_drive_acls_pages srv _ drive_name drive_id [perms drive_id]
                 fuel None w);
        [|exact (Hp (count_calls (trace w)) drive_id)|simpl; lia].
      unfold acl_rows. cbn [map concat permissions_requests called fold_left].
      rewrite app_nil_r. reflexivity. }
    rewrite (bind_ok _ _ _ _ _ E), IH, appended_called, appended_app. reflexivity.
Qed.

(** X19.  A run of [export_shared_drive_acls] in which the drive listing
    is served in full, every listed drive has an id and a name and every
    permissions request is answered at once with a single page.  When
    the listing holds at least one drive, the requests are the listing
    requests, then one permissions request per drive in listing order,
    then one create call; the report holds the header followed by the
    records of each drive's permissions, drive after drive in listing
    order, and the create call carries exactly that report.  When the
    listing holds no drive, the run ends normally after the listing
    requests: no report is written and no create call is made. *)
Theorem shared_drives_report_content :
  forall (srv : Server) (perms : string -> PermissionsPage) ts fuel F w pages,
    serves_drives srv (count_calls (trace w)) None pages ->
    length pages <= fuel ->
    Forall (fun d : Dict => is_Some (d !! "id") /\ is_Some (d !! "name"))
      (drives_of pages) ->
    (forall k drive_id,
       srv k (PermissionsList drive_id None) = Reply (perms drive_id) /\
       truthy (pp_nextPageToken (perms drive_id)) = false) ->
    let out := SharedDrivesAcls.export_shared_drive_acls srv ts fuel F w in
    let report := SharedDrivesAcls.header
                  :: concat (map (drive_rows perms) (drives_of pages)) in
    (drives_of pages <> [] ->
     disk (snd out) !! SharedDrivesAcls.filename ts = Some report /\
     calls (trace (snd out)) =
       calls (trace w) ++ drives_requests None pages
       ++ map drive_request (drives_of pages)
       ++ [FilesCreate (SharedDrivesAcls.filename ts) F
             (Some "application/vnd.google-apps.spreadsheet") report])
    /\ (drives_of pages = [] ->
        out = (Ok tt, called (drives_requests None pages) w)).
Proof.
  intros srv perms ts fuel F w pages Hs Hfuel Hd Hp.
  assert (Hfuel1 : 1 <= fuel).
  { destruct pages; [destruct Hs|simpl in Hfuel; lia]. }
  pose proof (list_shared_drives_pages srv pages fuel None [] w Hs Hfuel) as Hl.
  cbn [app] in Hl. cbv zeta. split; [intros Hne|]; cycle 1.
  { intros Hnil. rewrite Hnil in Hl.
    unfold SharedDrivesAcls.export_shared_drive_acls, try_except.
    rewrite (bind_ok _ _ _ _ _ Hl). reflexivity. }
  destruct (drives_of pages) as [|d ds]; [congruence|].
  set (drives := d :: ds) in *.
  set (rows := concat (map (drive_rows perms) drives)).
  set (w1 := called (drives_requests None pages) w) in *.
  set (w2 := {| trace := trace w1;
                disk := alter (fun old => old ++ [SharedDrivesAcls.header])
                          (SharedDrivesAcls.filename ts)
                          (<[SharedDrivesAcls.filename ts := []]> (disk w1)) |}).
  set (w3 := appended (SharedDrivesAcls.filename ts) rows
               (called (map drive_request drives) w2)).
  assert (H3 : disk w3 !! SharedDrivesAcls.filename ts
               = Some (SharedDrivesAcls.header :: rows)).
  { unfold w3. rewrite (appended_lookup _ _ _ [SharedDrivesAcls.header]);
      [reflexivity|].
    rewrite disk_called. cbn [w2 disk].
    now rewrite lookup_alter_eq, lookup_insert_eq. }
  pose proof (for_each_export_drive_answered srv ts fuel perms drives Hfuel1
                Hp Hd w2) as Hloop.
  fold rows in Hloop. fold w3 in Hloop.
  assert (E : snd (SharedDrivesAcls.export_shared_drive_acls srv ts fuel F w)
              = snd (SharedDrivesAcls.upload_to_drive srv
                       (SharedDrivesAcls.filename ts) F w3)).
  { unfold SharedDrivesAcls.export_shared_drive_acls. unfold try_except at 1.
    rewrite (bind_ok _ _ _ _ _ Hl). unfold drives at 1.
    unfold bind at 1, open_w. unfold bind at 1, writerow. fold w2.
    rewrite (bind_ok _ _ _ _ _ Hloop).
    destruct (SharedDrivesAcls.upload_to_drive srv _ F w3) as [[[]|err|] w4];
      try reflexivity.
    destruct err; reflexivity. }
  rewrite E.
  rewrite (shared_drives_upload_world srv _ F w3 _ H3).
  cbn [log disk trace]. split; [exact H3|].
  rewrite calls_call. unfold w3. cbn [appended trace].
  rewrite calls_called. cbn [w2 trace]. unfold w1. rewrite calls_called.
  now rewrite <- !app_assoc.
Qed.

Lemma srv_happy_serves_drives :
  serves_drives srv_happy (count_calls (trace world0)) None
    [drives_page_1; drives_page_2].
Proof. simpl. repeat split; reflexivity. Defined.

Lemma srv_happy_drives_have_id_and_name :
  Forall (fun d : Dict => is_Some (d !! "id") /\ is_Some (d !! "name"))
    (drives_of [drives_page_1; drives_page_2]).
Proof.
  repeat (constructor; [split; eexists; vm_compute; reflexivity|]). constructor.
Defined.

Lemma srv_happy_permissions k drive_id :
  srv_happy k (PermissionsList drive_id None) = Reply (permissions_detail drive_id) /\
  truthy (pp_nextPageToken (permissions_detail drive_id)) = false.
Proof. split; reflexivity. Defined.

Lemma quiet_serves_no_drive :
  serves_drives quiet (count_calls (trace world0)) None [no_drives_page].
Proof. simpl. split; reflexivity. Defined.

Lemma quiet_permissions k drive_id :
  quiet k (PermissionsList drive_id None)
  = Reply {| pp_permissions := None; pp_nextPageToken := None |} /\
  truthy (pp_nextPageToken {| pp_permissions := None; pp_nextPageToken := None |})
  = false.
Proof. split; reflexivity. Defined.

(** Two drives on two pages, one permission each: the report holds the
    header and one record per drive.  A listing without any drive: one
    listing request, and no file. *)
Lemma shared_drives_report_content_witness :
  (let out := SharedDrivesAcls.export_shared_drive_acls srv_happy "20240910-000000"
                5 "folder" world0 in
   disk (snd out) !! SharedDrivesAcls.filename "20240910-000000" =
     Some [SharedDrivesAcls.header;
           ["Drive 1"; "d1"; "admin@example.org"; "organizer"; "user"; "N/A"];
           ["Drive 2"; "d2"; "admin@example.org"; "organizer"; "user"; "N/A"]] /\
   calls (trace (snd out)) =
     [DrivesList None; DrivesList (Some "d-2");
      PermissionsList "d1" None; PermissionsList "d2" None;
      FilesCreate "shared_drive_acls_20240910-000000.csv" "folder"
        (Some "application/vnd.google-apps.spreadsheet")
        [SharedDrivesAcls.header;
         ["Drive 1"; "d1"; "admin@example.org"; "organizer"; "user"; "N/A"];
         ["Drive 2"; "d2"; "admin@example.org"; "organizer"; "user"; "N/A"]]])
  /\ SharedDrivesAcls.export_shared_drive_acls quiet "20240910-000000" 5 "folder"
       world0
     = (Ok tt, {| trace := [Call (DrivesList None)]; disk := ∅ |}).
Proof.
  cbv zeta. split.
  - assert (Hne : drives_of [drives_page_1; drives_page_2] <> []) by discriminate.
    destruct (proj1 (shared_drives_report_content srv_happy permissions_detail
                "20240910-000000" 5 "folder" world0 [drives_page_1; drives_page_2]
                srv_happy_serves_drives ltac:(simpl; lia)
                srv_happy_drives_have_id_and_name srv_happy_permissions) Hne)
      as [Hd Hc].
    split.
    + rewrite Hd. vm_compute. reflexivity.
    + rewrite Hc. vm_compute. reflexivity.
  - exact (proj2 (shared_drives_report_content quiet
                    (fun _ => {| pp_permissions := None; pp_nextPageToken := None |})
                    "20240910-000000" 5 "folder" world0 [no_drives_page]
                    quiet_serves_no_drive ltac:(simpl; lia)
                    (Forall_nil_2 _) quiet_permissions) eq_refl).
Defined.

Lemma for_each_export_group_answered (srv : Server) ts
    (members : string -> MembersPage) groups :
  (forall k group_email,
     srv k (MembersList group_email) = Reply (members group_email)) ->
  Forall (fun g : Dict => is_Some (g !! "email")) groups ->
  forall w,
    for_each groups (GroupsBackup.export_group srv ts) w =
    (Ok tt,
     appended (GroupsBackup.csv_file ts)
       (concat (map (group_rows members) groups))
       (called (map group_request groups) w)).
Proof.
  intros Hm. induction 1 as [|g groups [group_email Hg] _ IH]; intros w.
  - cbn [for_each map concat called fold_left]. now rewrite appended_nil.
  - cbn [for_each map concat]. rewrite called_cons.
    assert (E : GroupsBackup.export_group srv ts g w =
                (Ok tt,
                 appended (GroupsBackup.csv_file ts) (group_rows members g)
                   (log (Call (group_request g)) w))).
    { unfold GroupsBackup.export_group, group_rows, group_request.
      rewrite Hg. unfold try_except.
      rewrite (bind_ok _ _ _ _ _
                 (get_group_members_retry_ok srv group_email 3 5 w 1
                    (members group_email) ltac:(lia)
                    ltac:(intros k Hk; simpl in Hk; lia) (Hm _ _))).
      now rewrite (for_each_writerow (GroupsBackup.csv_file ts)
                     (member_row group_email)). }
    rewrite (bind_ok _ _ _ _ _ E), IH, appended_called, appended_app. reflexivity.
Qed.

(** X20.  A run of [main] of the groups script in which nothing fails:
    the probe is answered, the group listing is served in full, every
    listed group has an address, and every member request and the upload
    are answered at once.  The run ends normally; its remote calls are
    the probe, the listing requests, one member request per group in
    listing order and one create call; the report holds the header
    followed by the member records of each group, group after group in
    listing order, and the create call carries exactly that report. *)
Theorem groups_backup_run_content :
  forall (srv : Server) (members : string -> MembersPage) ts fuel F w
         probe pages file,
    srv (count_calls (trace w)) (FilesList F) = Reply probe ->
    serves_groups srv 200 (S (count_calls (trace w))) None pages ->
    length pages <= fuel ->
    Forall (fun g : Dict => is_Some (g !! "email")) (groups_of pages) ->
    (forall k group_email,
       srv k (MembersList group_email) = Reply (members group_email)) ->
    (forall k media,
       srv k (FilesCreate (GroupsBackup.filename ts) F None media) = Reply file) ->
    let out := GroupsBackup.main srv ts fuel F w in
    let report := GroupsBackup.header
                  :: concat (map (group_rows members) (groups_of pages)) in
    fst out = Ok tt /\
    disk (snd out) !! GroupsBackup.csv_file ts = Some report /\
    calls (trace (snd out)) =
      calls (trace w) ++ FilesList F :: groups_requests 200 None pages
      ++ map group_request (groups_of pages)
      ++ [FilesCreate (GroupsBackup.filename ts) F None report].
Proof.
  intros srv members ts fuel F w probe pages file Hprobe Hs Hfuel Hg Hm Hu.
  set (groups := groups_of pages) in *.
  set (rows := concat (map (group_rows members) groups)).
  set (w1 := log (Call (FilesList F)) w).
  set (w2 := called (groups_requests 200 None pages) w1).
  set (w2' := {| trace := trace w2;
                 disk := alter (fun old => old ++ [GroupsBackup.header])
                           (GroupsBackup.csv_file ts)
                           (<[GroupsBackup.csv_file ts := []]> (disk w2)) |}).
  set (w3 := appended (GroupsBackup.csv_file ts) rows
               (called (map group_request groups) w2')).
  assert (H3 : disk w3 !! GroupsBackup.csv_file ts
               = Some (GroupsBackup.header :: rows)).
  { unfold w3. rewrite (appended_lookup _ _ _ [GroupsBackup.header]);
      [reflexivity|].
    rewrite disk_called. cbn [w2' disk].
    now rewrite lookup_alter_eq, lookup_insert_eq. }
  pose proof (groups_get_google_groups_from_pages srv pages fuel None [] w1
                Hs Hfuel) as Hl.
  cbn [app] in Hl. fold groups in Hl. fold w2 in Hl.
  pose proof (for_each_export_group_answered srv ts members groups Hm Hg w2')
    as Hloop.
  fold rows in Hloop. fold w3 in Hloop.
  pose proof (upload_file_to_drive_retry_ok srv (GroupsBackup.filename ts) F
                (GroupsBackup.header :: rows) (GroupsBackup.csv_file ts) 3 5 w3 1
                file H3 ltac:(lia) ltac:(intros k Hk; simpl in Hk; lia) (Hu _ _))
    as Hup.
  change (retried ?rq (repeat 5%Z (1 - 1)) w3) with w3 in Hup.
  assert (E : GroupsBackup.main srv ts fuel F w =
              (Ok tt,
               log (Call (FilesCreate (GroupsBackup.filename ts) F None
                            (GroupsBackup.header :: rows))) w3)).
  { unfold GroupsBackup.main. unfold bind at 1.
    rewrite check_folder_exists_eval, Hprobe. fold w1.
    unfold GroupsBackup.get_google_groups. rewrite (bind_ok _ _ _ _ _ Hl).
    unfold GroupsBackup.export_groups_to_csv.
    assert (Hw : GroupsBackup.write_groups_csv srv ts groups w2 = (Ok tt, w3))
      by (rewrite write_groups_csv_eq; exact Hloop).
    rewrite (bind_ok _ _ _ _ _ Hw), (bind_ok _ _ _ _ _ Hup). reflexivity. }
  cbv zeta. rewrite E. cbn [fst snd log disk trace].
  split; [reflexivity|]. split; [exact H3|].
  rewrite calls_call. unfold w3. cbn [appended trace].
  rewrite calls_called. cbn [w2' trace]. unfold w2. rewrite calls_called.
  unfold w1. cbn [log trace]. rewrite calls_call.
  rewrite <- !app_assoc. reflexivity.
Qed.

Lemma srv_happy_serves_groups :
  serves_groups srv_happy 200 (S (count_calls (trace world0))) None
    [groups_page_1; groups_page_2].
Proof. simpl. repeat split; reflexivity. Defined.

Lemma srv_happy_groups_have_email :
  Forall (fun g : Dict => is_Some (g !! "email"))
    (groups_of [groups_page_1; groups_page_2]).
Proof.
  repeat (constructor; [eexists; vm_compute; reflexivity|]). constructor.
Defined.

(** Three groups on two pages, one member each. *)
Lemma groups_backup_run_content_witness :
  let out := GroupsBackup.main srv_happy "20240828-000000" 5 "folder" world0 in
  fst out = Ok tt /\
  disk (snd out) !! GroupsBackup.csv_file "20240828-000000" =
    Some [GroupsBackup.header;
          ["g1@example.org"; "owner-of-g1@example.org"; "OWNER"; "N/A"];
          ["g2@example.org"; "owner-of-g2@example.org"; "OWNER"; "N/A"];
          ["g3@example.org"; "owner-of-g3@example.org"; "OWNER"; "N/A"]] /\
  length (calls (trace (snd out))) = 7.
Proof.
  cbv zeta.
  destruct (groups_backup_run_content srv_happy members_detail "20240828-000000"
              5 "folder" world0 {| fp_files := Some [] |}
              [groups_page_1; groups_page_2] {[ "id" := "file-1" ]}
              eq_refl srv_happy_serves_groups ltac:(simpl; lia)
              srv_happy_groups_have_email (fun _ _ => eq_refl)
              (fun _ _ => eq_refl)) as (Hr & Hd & Hc).
  split; [exact Hr|]. split.
  - rewrite Hd. vm_compute. reflexivity.
  - rewrite Hc. reflexivity.
Defined.

(** ** Collection: groups whose detail fetch fails *)

(** The world after a fetch of [m] attempts that appended [rows]. *)
Lemma fetched_world rq m path rows ds w :
  1 <= m -> length ds = m - 1 ->
  let w' := appended path rows (log (Call rq) (retried rq ds w)) in
  count_calls (trace w') = count_calls (trace w) + m /\
  calls (trace w') = calls (trace w) ++ repeat rq m /\
  (forall old, disk w !! path = Some old ->
     disk w' !! path = Some (old ++ rows)).
Proof.
  intros Hm Hl. cbv zeta. split; [|split].
  - cbn [appended trace log]. rewrite count_calls_call, count_calls_retried. lia.
  - cbn [appended trace]. rewrite calls_retried_then_call, Hl.
    replace (S (m - 1)) with m by lia. reflexivity.
  - intros old Hold. apply appended_lookup. cbn [log disk].
    now rewrite disk_retried.
Qed.

Lemma export_group_served (srv : Server) ts g o w :
  members_served srv (count_calls (trace w)) [(g, o)] ->
  exists w',
    GroupsBackup.export_group srv ts g w = (Ok tt, w') /\
    count_calls (trace w') = count_calls (trace w) + members_attempts o /\
    calls (trace w') = calls (trace w) ++ members_fetches (g, o) /\
    (forall old, disk w !! GroupsBackup.csv_file ts = Some old ->
       disk w' !! GroupsBackup.csv_file ts = Some (old ++ members_records (g, o))).
Proof.
  cbn [members_served]. unfold members_records, members_fetches, group_request.
  cbn [fst snd].
  destruct (g !! "email") as [group_email|] eqn:Hg; [|intros [[] _]].
  cbn [default from_option id].
  intros [Ho _].
  destruct o as [n page| |n status]; cbn [members_attempts].
  - destruct Ho as (Hn & Hf & Hok).
    eexists. split; [|apply fetched_world with (ds := repeat 5%Z (n - 1));
                      [lia|apply repeat_length]].
    unfold GroupsBackup.export_group. rewrite Hg. unfold try_except.
    rewrite (bind_ok _ _ _ _ _
               (get_group_members_retry_ok srv group_email 3 5 w n page Hn
                  (fails_until_eq _ _ (HttpError 503) _ _ Hf) Hok)).
    now rewrite (for_each_writerow (GroupsBackup.csv_file ts)
                   (member_row group_email)).
  - eexists. split; [|apply fetched_world with (ds := [5; 5]%Z);
                      [lia|reflexivity]].
    rewrite appended_nil.
    now apply (export_group_exhausted srv ts g group_email).
  - destruct Ho as (Hn & Hs & Hf & Hfail).
    eexists. split; [|apply fetched_world with (ds := repeat 5%Z (n - 1));
                      [lia|apply repeat_length]].
    rewrite appended_nil.
    unfold GroupsBackup.export_group. rewrite Hg. unfold try_except.
    rewrite (bind_raise _ _ _ _ _
               (get_group_members_retry_raise srv group_email 3 5 w n
                  (HttpError status) Hn
                  (fails_until_eq _ _ (HttpError 503) _ _ Hf) Hfail
                  ltac:(congruence))).
    reflexivity.
Qed.

Lemma for_each_export_group_served (srv : Server) ts plan : forall w,
  members_served srv (count_calls (trace w)) plan ->
  exists w',
    for_each (map fst plan) (GroupsBackup.export_group srv ts) w = (Ok tt, w') /\
    count_calls (trace w') = count_calls (trace w) + members_calls plan /\
    calls (trace w') = calls (trace w) ++ concat (map members_fetches plan) /\
    (forall old, disk w !! GroupsBackup.csv_file ts = Some old ->
       disk w' !! GroupsBackup.csv_file ts
       = Some (old ++ concat (map members_records plan))).
Proof.
  unfold members_calls.
  induction plan as [|[g o] plan IH]; intros w Hp.
  - exists w. cbn [map concat for_each length]. rewrite !app_nil_r.
    repeat split; [lia|].
    intros old Hold. now rewrite app_nil_r.
  - assert (H1 : members_served srv (count_calls (trace w)) [(g, o)]).
    { cbn [members_served] in *. destruct (g !! "email"); [|destruct Hp as [[] _]].
      split; [apply Hp|exact I]. }
    destruct (export_group_served srv ts g o w H1) as (w1 & E1 & C1 & K1 & D1).
    assert (H2 : members_served srv (count_calls (trace w1)) plan).
    { rewrite C1. cbn [members_served] in Hp. apply Hp. }
    destruct (IH w1 H2) as (w2 & E2 & C2 & K2 & D2).
    exists w2. cbn [map fst concat for_each].
    rewrite (bind_ok _ _ _ _ _ E1). split; [exact E2|].
    split; [|split].
    + rewrite C2, C1, length_app. unfold members_fetches at 2.
      cbn [fst snd]. rewrite repeat_length. lia.
    + rewrite K2, K1, <- app_assoc. reflexivity.
    + intros old Hold. rewrite (D2 _ (D1 _ Hold)), <- app_assoc. reflexivity.
Qed.

Lemma get_group_settings_with_retry_raise (srv : Server) group_email w n e :
  1 <= n <= 3 ->
  fails_until srv (GroupsSettingsGet group_email) settings_retryable
    (count_calls (trace w)) (n - 1) ->
  srv (count_calls (trace w) + (n - 1)) (GroupsSettingsGet group_email) = Fail e ->
  ~ settings_retryable e ->
  GgSettingsBackup.get_group_settings_with srv 3 group_email w =
  (Raise e,
   log (Call (GroupsSettingsGet group_email))
     (retried (GroupsSettingsGet group_email) (linear_delays (n - 1)) w)).
Proof.
  intros Hn Hfail He Hne.
  unfold GgSettingsBackup.get_group_settings_with, range, bind.
  replace 3 with ((n - 1) + S (3 - n)) at 1 by lia.
  rewrite seq_app, for_in_app.
  rewrite settings_attempts_fail by (lia || exact Hfail).
  cbn [seq for_in]. unfold bind.
  rewrite (settings_attempt_raise _ _ _ _ _ e); [reflexivity|assumption|].
  rewrite count_calls_retried, length_linear_delays. exact He.
Qed.

Lemma export_group_settings_served (srv : Server) ts g o w :
  settings_served srv (count_calls (trace w)) [(g, o)] ->
  exists w',
    GgSettingsBackup.export_group_settings srv ts g w = (Ok tt, w') /\
    count_calls (trace w') = count_calls (trace w) + settings_attempts o /\
    calls (trace w') = calls (trace w) ++ settings_fetches (g, o) /\
    (forall old, disk w !! GgSettingsBackup.csv_file ts = Some old ->
       disk w' !! GgSettingsBackup.csv_file ts
       = Some (old ++ settings_records (g, o))).
Proof.
  cbn [settings_served]. unfold settings_records, settings_fetches.
  cbn [fst snd]. intros (_ & Ho & _).
  destruct o as [n settings|]; cbn [settings_attempts].
  - destruct Ho as (Hn & Hf & Hok).
    eexists. split; [|apply fetched_world with (ds := linear_delays (n - 1));
                      [lia|apply length_linear_delays]].
    unfold GgSettingsBackup.export_group_settings. cbv zeta.
    unfold GgSettingsBackup.get_group_settings.
    rewrite (bind_ok _ _ _ _ _
               (get_group_settings_with_retry_ok srv (g !! "email") 3 w n settings
                  Hn Hf Hok)).
    unfold GgSettingsBackup.settings_truthy.
    repeat case_decide; try contradiction.
    + unfold ret. now rewrite appended_nil.
    + reflexivity.
  - eexists. split; [|apply fetched_world with (ds := [5; 10]%Z);
                      [lia|reflexivity]].
    rewrite appended_nil. now apply export_group_settings_exhausted.
Qed.

Lemma for_each_export_group_settings_served (srv : Server) ts plan : forall w,
  settings_served srv (count_calls (trace w)) plan ->
  exists w',
    for_each (map fst plan) (GgSettingsBackup.export_group_settings srv ts) w
    = (Ok tt, w') /\
    count_calls (trace w') = count_calls (trace w) + settings_calls plan /\
    calls (trace w') = calls (trace w) ++ concat (map settings_fetches plan) /\
    (forall old, disk w !! GgSettingsBackup.csv_file ts = Some old ->
       disk w' !! GgSettingsBackup.csv_file ts
       = Some (old ++ concat (map settings_records plan))).
Proof.
  unfold settings_calls.
  induction plan as [|[g o] plan IH]; intros w Hp.
  - exists w. cbn [map concat for_each length]. rewrite !app_nil_r.
    repeat split; [lia|].
    intros old Hold. now rewrite app_nil_r.
  - assert (H1 : settings_served srv (count_calls (trace w)) [(g, o)]).
    { cbn [settings_served] in *. destruct Hp as (He & Ho & _).
      repeat split; assumption. }
    destruct (export_group_settings_served srv ts g o w H1)
      as (w1 & E1 & C1 & K1 & D1).
    assert (H2 : settings_served srv (count_calls (trace w1)) plan).
    { rewrite C1. cbn [settings_served] in Hp. apply Hp. }
    destruct (IH w1 H2) as (w2 & E2 & C2 & K2 & D2).
    exists w2. cbn [map fst concat for_each].
    rewrite (bind_ok _ _ _ _ _ E1). split; [exact E2|].
    split; [|split].
    + rewrite C2, C1, length_app. unfold settings_fetches at 2.
      cbn [fst snd]. rewrite repeat_length. lia.
    + rewrite K2, K1, <- app_assoc. reflexivity.
    + intros old Hold. rewrite (D2 _ (D1 _ Hold)), <- app_assoc. reflexivity.
Qed.

Lemma calls_app t1 t2 : calls (t1 ++ t2) = calls t2 ++ calls t1.
Proof. unfold calls. now rewrite rev_app_distr, omap_app. Qed.

(** After the collection, the uploader leaves the report as it is and
    its first call is the create call that carries it. *)
Lemma upload_after_collection (srv : Server) csv_file filename F w report :
  disk w !! csv_file = Some report ->
  let w' := snd (GroupsBackup.upload_file_to_drive srv csv_file filename F 3 5 w) in
  disk w' !! csv_file = Some report /\
  exists later,
    calls (trace w') = calls (trace w) ++ FilesCreate filename F None report :: later.
Proof.
  intros Hd. cbv zeta. split.
  - rewrite (upload_file_to_drive_same_disk srv _ _ F 3 5 w). exact Hd.
  - destruct (upload_file_to_drive_first_call srv csv_file filename F 3 5 w
                report ltac:(lia) Hd) as [t Ht].
    exists (calls t). rewrite Ht.
    change (t ++ Call (FilesCreate filename F None report) :: trace w)
      with (t ++ [Call (FilesCreate filename F None report)] ++ trace w).
    rewrite !calls_app. cbn [app]. rewrite <- app_assoc. reflexivity.
Qed.

Lemma write_groups_csv_served (srv : Server) ts plan w :
  members_served srv (count_calls (trace w)) plan ->
  exists w',
    for_each (map fst plan) (GroupsBackup.export_group srv ts)
      {| trace := trace w;
         disk := alter (fun rows => rows ++ [GroupsBackup.header])
                   (GroupsBackup.csv_file ts)
                   (<[GroupsBackup.csv_file ts := []]> (disk w)) |}
    = (Ok tt, w') /\
    count_calls (trace w') = count_calls (trace w) + members_calls plan /\
    calls (trace w') = calls (trace w) ++ concat (map members_fetches plan) /\
    disk w' !! GroupsBackup.csv_file ts
    = Some (GroupsBackup.header :: concat (map members_records plan)).
Proof.
  intros Hp.
  destruct (for_each_export_group_served srv ts plan
              {| trace := trace w;
                 disk := alter (fun rows => rows ++ [GroupsBackup.header])
                           (GroupsBackup.csv_file ts)
                           (<[GroupsBackup.csv_file ts := []]> (disk w)) |} Hp)
    as (w1 & E & C & K & D).
  exists w1. repeat split; [exact E|exact C|exact K|].
  apply (D [GroupsBackup.header]). cbn [disk].
  now rewrite lookup_alter_eq, lookup_insert_eq.
Qed.

Lemma write_settings_csv_eq srv ts groups w :
  GgSettingsBackup.write_settings_csv srv ts groups w =
  for_each groups (GgSettingsBackup.export_group_settings srv ts)
    {| trace := trace w;
       disk := alter (fun rows => rows ++ [GgSettingsBackup.fields])
                 (GgSettingsBackup.csv_file ts)
                 (<[GgSettingsBackup.csv_file ts := []]> (disk w)) |}.
Proof. reflexivity. Qed.

Lemma write_settings_csv_served (srv : Server) ts plan w :
  settings_served srv (count_calls (trace w)) plan ->
  exists w',
    for_each (map fst plan) (GgSettingsBackup.export_group_settings srv ts)
      {| trace := trace w;
         disk := alter (fun rows => rows ++ [GgSettingsBackup.fields])
                   (GgSettingsBackup.csv_file ts)
                   (<[GgSettingsBackup.csv_file ts := []]> (disk w)) |}
    = (Ok tt, w') /\
    count_calls (trace w') = count_calls (trace w) + settings_calls plan /\
    calls (trace w') = calls (trace w) ++ concat (map settings_fetches plan) /\
    disk w' !! GgSettingsBackup.csv_file ts
    = Some (GgSettingsBackup.fields :: concat (map settings_records plan)).
Proof.
  intros Hp.
  destruct (for_each_export_group_settings_served srv ts plan
              {| trace := trace w;
                 disk := alter (fun rows => rows ++ [GgSettingsBackup.fields])
                           (GgSettingsBackup.csv_file ts)
                           (<[GgSettingsBackup.csv_file ts := []]> (disk w)) |} Hp)
    as (w1 & E & C & K & D).
  exists w1. repeat split; [exact E|exact C|exact K|].
  apply (D [GgSettingsBackup.fields]). cbn [disk].
  now rewrite lookup_alter_eq, lookup_insert_eq.
Qed.

(** C2, as the code has it.  The collection of [export_groups_to_csv]
    and of [export_groups_settings_to_csv] over groups that all have an
    address.  A group whose detail fetch fails with an error its fetcher
    handles is skipped and the collection goes on with the groups after
    it, in the order of the list: in the groups script such a failure is
    503 on all three attempts or, after fewer attempts answered 503, an
    [HttpError] of another status; in the settings script it is an
    [HttpError] or a [TimeoutError] on all three attempts.  The report
    then holds the header followed by the records of the groups that
    were answered, in list order, the requests are those of the groups
    in list order, failed ones included, and the create call that
    follows carries exactly that report.  A failure of another class is
    not absorbed: it ends the function at that group, with the report
    holding the records of the groups before it, no request for the
    groups after it and no create call. *)
Theorem failed_resource_skipped_collection_continues :
  (forall (srv : Server) ts plan F w,
     members_served srv (count_calls (trace w)) plan ->
     let out := GroupsBackup.export_groups_to_csv srv ts (map fst plan) F w in
     let report := GroupsBackup.header :: concat (map members_records plan) in
     disk (snd out) !! GroupsBackup.csv_file ts = Some report /\
     exists later,
       calls (trace (snd out)) =
       calls (trace w) ++ concat (map members_fetches plan)
       ++ FilesCreate (GroupsBackup.filename ts) F None report :: later)
  /\ (forall (srv : Server) ts plan F w,
     settings_served srv (count_calls (trace w)) plan ->
     let out := GgSettingsBackup.export_groups_settings_to_csv srv ts
                  (map fst plan) F w in
     let report := GgSettingsBackup.fields
                   :: concat (map settings_records plan) in
     disk (snd out) !! GgSettingsBackup.csv_file ts = Some report /\
     exists later,
       calls (trace (snd out)) =
       calls (trace w) ++ concat (map settings_fetches plan)
       ++ FilesCreate (GgSettingsBackup.filename ts) F None report :: later)
  /\ (forall (srv : Server) ts plan g group_email after n e F w,
     members_served srv (count_calls (trace w)) plan ->
     g !! "email" = Some group_email ->
     1 <= n <= 3 ->
     fails_until srv (MembersList group_email) unavailable
       (count_calls (trace w) + members_calls plan) (n - 1) ->
     srv (count_calls (trace w) + members_calls plan + (n - 1))
       (MembersList group_email) = Fail e ->
     (forall status, e <> HttpError status) ->
     let out := GroupsBackup.export_groups_to_csv srv ts
                  (map fst plan ++ g :: after) F w in
     fst out = Raise e /\
     disk (snd out) !! GroupsBackup.csv_file ts
     = Some (GroupsBackup.header :: concat (map members_records plan)) /\
     calls (trace (snd out)) =
       calls (trace w) ++ concat (map members_fetches plan)
       ++ repeat (MembersList group_email) n)
  /\ (forall (srv : Server) ts plan g after n e F w,
     settings_served srv (count_calls (trace w)) plan ->
     1 <= n <= 3 ->
     fails_until srv (GroupsSettingsGet (g !! "email")) settings_retryable
       (count_calls (trace w) + settings_calls plan) (n - 1) ->
     srv (count_calls (trace w) + settings_calls plan + (n - 1))
       (GroupsSettingsGet (g !! "email")) = Fail e ->
     ~ settings_retryable e ->
     let out := GgSettingsBackup.export_groups_settings_to_csv srv ts
                  (map fst plan ++ g :: after) F w in
     fst out = Raise e /\
     disk (snd out) !! GgSettingsBackup.csv_file ts
     = Some (GgSettingsBackup.fields :: concat (map settings_records plan)) /\
     calls (trace (snd out)) =
       calls (trace w) ++ concat (map settings_fetches plan)
       ++ repeat (GroupsSettingsGet (g !! "email")) n).
Proof.
  split; [|split; [|split]].
  - intros srv ts plan F w Hp.
    destruct (write_groups_csv_served srv ts plan w Hp) as (w1 & E & _ & K & D).
    assert (Eo : snd (GroupsBackup.export_groups_to_csv srv ts (map fst plan) F w)
                 = snd (GroupsBackup.upload_file_to_drive srv
                          (GroupsBackup.csv_file ts) (GroupsBackup.filename ts)
                          F 3 5 w1)).
    { unfold GroupsBackup.export_groups_to_csv.
      rewrite (bind_ok _ _ _ _ w1 (eq_trans (write_groups_csv_eq _ _ _ _) E)).
      unfold bind.
      destruct (GroupsBackup.upload_file_to_drive srv _ _ F 3 5 w1)
        as [[a|e|] w2]; reflexivity. }
    cbv zeta. rewrite Eo.
    destruct (upload_after_collection srv _ (GroupsBackup.filename ts) F w1 _ D)
      as [Hd [later Hc]].
    split; [exact Hd|]. exists later. rewrite Hc, K, <- app_assoc. reflexivity.
  - intros srv ts plan F w Hp.
    destruct (write_settings_csv_served srv ts plan w Hp)
      as (w1 & E & _ & K & D).
    assert (Eo : snd (GgSettingsBackup.export_groups_settings_to_csv srv ts
                        (map fst plan) F w)
                 = snd (GroupsBackup.upload_file_to_drive srv
                          (GgSettingsBackup.csv_file ts)
                          (GgSettingsBackup.filename ts) F 3 5 w1)).
    { unfold GgSettingsBackup.export_groups_settings_to_csv.
      rewrite (bind_ok _ _ _ _ w1 (eq_trans (write_settings_csv_eq _ _ _ _) E)).
      rewrite upload_file_to_drive_same. unfold bind.
      destruct (GroupsBackup.upload_file_to_drive srv _ _ F 3 5 w1)
        as [[a|e|] w2]; reflexivity. }
    cbv zeta. rewrite Eo.
    destruct (upload_after_collection srv _ (GgSettingsBackup.filename ts) F w1 _ D)
      as [Hd [later Hc]].
    split; [exact Hd|]. exists later. rewrite Hc, K, <- app_assoc. reflexivity.
  - intros srv ts plan g group_email after n e F w Hp Hg Hn Hf Hfail He.
    destruct (write_groups_csv_served srv ts plan w Hp) as (w1 & E & C & K & D).
    assert (Eg : GroupsBackup.export_group srv ts g w1 =
                 (Raise e,
                  log (Call (MembersList group_email))
                    (retried (MembersList group_email) (repeat 5%Z (n - 1)) w1))).
    { unfold GroupsBackup.export_group. rewrite Hg. unfold try_except.
      rewrite (bind_raise _ _ _ _ _
                 (get_group_members_retry_raise srv group_email 3 5 w1 n e Hn
                    ltac:(rewrite C; exact (fails_until_eq _ _ (HttpError 503) _ _ Hf))
                    ltac:(rewrite C; exact Hfail) (He 503%Z))).
      destruct e; try reflexivity. now destruct (He status). }
    assert (Eo : GroupsBackup.export_groups_to_csv srv ts
                   (map fst plan ++ g :: after) F w =
                 (Raise e,
                  log (Call (MembersList group_email))
                    (retried (MembersList group_email) (repeat 5%Z (n - 1)) w1))).
    { unfold GroupsBackup.export_groups_to_csv. apply bind_raise.
      rewrite write_groups_csv_eq, for_each_app, E. cbn [for_each].
      now apply bind_raise. }
    cbv zeta. rewrite Eo. cbn [fst snd]. split; [reflexivity|]. split.
    + cbn [log disk]. now rewrite disk_retried.
    + rewrite calls_retried_then_call, repeat_length, K, <- app_assoc.
      replace (S (n - 1)) with n by lia. reflexivity.
  - intros srv ts plan g after n e F w Hp Hn Hf Hfail He.
    destruct (write_settings_csv_served srv ts plan w Hp)
      as (w1 & E & C & K & D).
    assert (Eg : GgSettingsBackup.export_group_settings srv ts g w1 =
                 (Raise e,
                  log (Call (GroupsSettingsGet (g !! "email")))
                    (retried (GroupsSettingsGet (g !! "email"))
                       (linear_delays (n - 1)) w1))).
    { unfold GgSettingsBackup.export_group_settings. cbv zeta.
      unfold GgSettingsBackup.get_group_settings. cbv zeta.
      apply bind_raise.
      apply get_group_settings_with_retry_raise;
        [exact Hn|rewrite C; exact Hf|rewrite C; exact Hfail|exact He]. }
    assert (Eo : GgSettingsBackup.export_groups_settings_to_csv srv ts
                   (map fst plan ++ g :: after) F w =
                 (Raise e,
                  log (Call (GroupsSettingsGet (g !! "email")))
                    (retried (GroupsSettingsGet (g !! "email"))
                       (linear_delays (n - 1)) w1))).
    { unfold GgSettingsBackup.export_groups_settings_to_csv. apply bind_raise.
      rewrite write_settings_csv_eq, for_each_app, E. cbn [for_each].
      now apply bind_raise. }
    cbv zeta. rewrite Eo. cbn [fst snd]. split; [reflexivity|]. split.
    + cbn [log disk]. now rewrite disk_retried.
    + rewrite calls_retried_then_call, length_linear_delays, K, <- app_assoc.
      replace (S (n - 1)) with n by lia. reflexivity.
Qed.

Lemma srv_ten_members_served :
  members_served srv_ten (count_calls (trace world0)) ten_members_plan.
Proof.
  assert (Hu : forall c, fails_until srv_ten (MembersList "g4@example.org")
                           unavailable c 3).
  { intros c k Hk. exists (HttpError 503). split; reflexivity. }
  assert (Ha : forall c group_email,
            group_email <> "g4@example.org" ->
            1 <= 1 <= 3 /\
            fails_until srv_ten (MembersList group_email) unavailable c (1 - 1) /\
            srv_ten (c + (1 - 1)) (MembersList group_email) = Reply one_member_page).
  { intros c group_email Hne. split; [lia|]. split.
    - intros k Hk. simpl in Hk. lia.
    - cbn [srv_ten]. now case_decide. }
  unfold ten_members_plan, ten_groups.
  cbn [map replicate app zip zip_with members_served members_attempts].
  rewrite !lookup_singleton_eq. cbn [String.append].
  repeat (split; [first [apply Hu | apply Ha; discriminate]|]). exact I.
Defined.

Lemma srv_ten_settings_served :
  settings_served srv_ten (count_calls (trace world0)) ten_settings_plan.
Proof.
  assert (Hu : forall c, fails_until srv_ten
                           (GroupsSettingsGet (Some "g4@example.org"))
                           settings_retryable c 3).
  { intros c k Hk. exists (HttpError 503). split; [reflexivity|].
    right. exists 503%Z. reflexivity. }
  assert (Ha : forall c group_email,
            group_email <> "g4@example.org" ->
            1 <= 1 <= 3 /\
            fails_until srv_ten (GroupsSettingsGet (Some group_email))
              settings_retryable c (1 - 1) /\
            srv_ten (c + (1 - 1)) (GroupsSettingsGet (Some group_email))
            = Reply {[ "email" := group_email; "name" := "A group" ]}).
  { intros c group_email Hne. split; [lia|]. split.
    - intros k Hk. simpl in Hk. lia.
    - cbn [srv_ten]. case_decide; [congruence|reflexivity]. }
  unfold ten_settings_plan, ten_groups, ten_settings.
  cbn [map take drop app settings_served settings_attempts].
  rewrite !lookup_singleton_eq. cbn [default from_option id String.append].
  repeat (split; [eexists; reflexivity|
                  split; [first [apply Hu | apply Ha; discriminate]|]]).
  exact I.
Defined.

Lemma srv_ten_broken_members_served :
  members_served srv_ten_broken (count_calls (trace world0))
    (take 3 ten_members_plan).
Proof.
  assert (Ha : forall c group_email,
            group_email <> "g4@example.org" ->
            1 <= 1 <= 3 /\
            fails_until srv_ten_broken (MembersList group_email) unavailable c
              (1 - 1) /\
            srv_ten_broken (c + (1 - 1)) (MembersList group_email)
            = Reply one_member_page).
  { intros c group_email Hne. split; [lia|]. split.
    - intros k Hk. simpl in Hk. lia.
    - cbn [srv_ten_broken srv_ten]. now repeat case_decide. }
  unfold ten_members_plan, ten_groups.
  cbn [map replicate app zip zip_with take members_served members_attempts].
  rewrite !lookup_singleton_eq. cbn [String.append].
  repeat (split; [apply Ha; discriminate|]). exact I.
Defined.

Lemma srv_ten_broken_settings_served :
  settings_served srv_ten_broken (count_calls (trace world0))
    (take 3 ten_settings_plan).
Proof.
  assert (Ha : forall c group_email,
            group_email <> "g4@example.org" ->
            1 <= 1 <= 3 /\
            fails_until srv_ten_broken (GroupsSettingsGet (Some group_email))
              settings_retryable c (1 - 1) /\
            srv_ten_broken (c + (1 - 1)) (GroupsSettingsGet (Some group_email))
            = Reply {[ "email" := group_email; "name" := "A group" ]}).
  { intros c group_email Hne. split; [lia|]. split.
    - intros k Hk. simpl in Hk. lia.
    - cbn [srv_ten_broken srv_ten].
      repeat case_decide; congruence || reflexivity. }
  unfold ten_settings_plan, ten_groups, ten_settings.
  cbn [map take drop app settings_served settings_attempts].
  rewrite !lookup_singleton_eq. cbn [default from_option id String.append].
  repeat (split; [eexists; reflexivity|split; [apply Ha; discriminate|]]).
  exact I.
Defined.

(** Ten groups of which the fourth always fails.  With failures of a
    handled class (503 in both scripts) the report holds the header and
    the records of the nine other groups, in list order, after three
    requests for the fourth group and one for each of the others, and it
    is handed to the uploader.  With a failure of another class (a
    timeout of the member list, an SSL end-of-file of the settings
    request) the function ends in that error at the fourth group: the
    report holds the records of the first three groups only. *)
Lemma failed_resource_skipped_collection_continues_witness :
  (let out := GroupsBackup.export_groups_to_csv srv_ten "20240828-000000"
                ten_groups "folder" world0 in
   fst out = Ok tt /\
   disk (snd out) !! "/tmp/gg_backup_20240828-000000.csv" =
     Some (["Group Email"; "Member Email"; "Role"; "Status"]
           :: map (fun n => ["g" +:+ n +:+ "@example.org"; "x@y.com"; "MEMBER";
                             "ACTIVE"])
                ["1"; "2"; "3"; "5"; "6"; "7"; "8"; "9"; "10"]) /\
   calls (trace (snd out)) =
     map MembersList
       ["g1@example.org"; "g2@example.org"; "g3@example.org";
        "g4@example.org"; "g4@example.org"; "g4@example.org";
        "g5@example.org"; "g6@example.org"; "g7@example.org";
        "g8@example.org"; "g9@example.org"; "g10@example.org"]
     ++ [FilesCreate "gg_backup_20240828-000000.csv" "folder" None
           (["Group Email"; "Member Email"; "Role"; "Status"]
            :: map (fun n => ["g" +:+ n +:+ "@example.org"; "x@y.com";
                              "MEMBER"; "ACTIVE"])
                 ["1"; "2"; "3"; "5"; "6"; "7"; "8"; "9"; "10"])])
  /\ (let out := GgSettingsBackup.export_groups_settings_to_csv srv_ten
                   "20240829-000000" ten_groups "folder" world0 in
      fst out = Ok tt /\
      first_column <$>
        (disk (snd out) !! "/tmp/gg_settings_backup_20240829-000000.csv")
      = Some ["email"; "g1@example.org"; "g2@example.org"; "g3@example.org";
              "g5@example.org"; "g6@example.org"; "g7@example.org";
              "g8@example.org"; "g9@example.org"; "g10@example.org"])
  /\ (let out := GroupsBackup.export_groups_to_csv srv_ten_broken
                   "20240828-000000" ten_groups "folder" world0 in
      fst out = Raise TimeoutError /\
      disk (snd out) !! "/tmp/gg_backup_20240828-000000.csv" =
        Some (["Group Email"; "Member Email"; "Role"; "Status"]
              :: map (fun n => ["g" +:+ n +:+ "@example.org"; "x@y.com";
                                "MEMBER"; "ACTIVE"])
                   ["1"; "2"; "3"]) /\
      calls (trace (snd out)) =
        [MembersList "g1@example.org"; MembersList "g2@example.org";
         MembersList "g3@example.org"; MembersList "g4@example.org"])
  /\ (let out := GgSettingsBackup.export_groups_settings_to_csv srv_ten_broken
                   "20240829-000000" ten_groups "folder" world0 in
      fst out = Raise SSLEOFError /\
      first_column <$>
        (disk (snd out) !! "/tmp/gg_settings_backup_20240829-000000.csv")
      = Some ["email"; "g1@example.org"; "g2@example.org"; "g3@example.org"] /\
      calls (trace (snd out)) =
        [GroupsSettingsGet (Some "g1@example.org");
         GroupsSettingsGet (Some "g2@example.org");
         GroupsSettingsGet (Some "g3@example.org");
         GroupsSettingsGet (Some "g4@example.org")]).
Proof.
  cbv zeta. split; [|split; [|split]].
  - pose proof (proj1 failed_resource_skipped_collection_continues srv_ten
                  "20240828-000000" ten_members_plan "folder" world0
                  srv_ten_members_served) as H.
    change (map fst ten_members_plan) with ten_groups in H.
    cbv zeta in H. destruct H as [Hd _].
    split; [vm_compute; reflexivity|]. split.
    + refine (eq_trans Hd _). vm_compute. reflexivity.
    + vm_compute. reflexivity.
  - pose proof (proj1 (proj2 failed_resource_skipped_collection_continues)
                  srv_ten "20240829-000000" ten_settings_plan "folder" world0
                  srv_ten_settings_served) as H.
    change (map fst ten_settings_plan) with ten_groups in H.
    cbv zeta in H. destruct H as [Hd _].
    split; [vm_compute; reflexivity|].
    refine (eq_trans (f_equal (fmap first_column) Hd) _). vm_compute. reflexivity.
  - assert (Hg : ({[ "email" := "g4@example.org" ]} : Dict) !! "email"
                 = Some "g4@example.org") by (vm_compute; reflexivity).
    assert (Hf : fails_until srv_ten_broken (MembersList "g4@example.org")
                   unavailable
                   (count_calls (trace world0)
                    + members_calls (take 3 ten_members_plan)) (1 - 1))
      by (intros k Hk; simpl in Hk; lia).
    assert (He : forall status, TimeoutError <> HttpError status)
      by (intros status; discriminate).
    pose proof (proj1 (proj2 (proj2 failed_resource_skipped_collection_continues))
                  srv_ten_broken "20240828-000000" (take 3 ten_members_plan)
                  {[ "email" := "g4@example.org" ]} "g4@example.org"
                  (drop 4 ten_groups) 1 TimeoutError "folder" world0
                  srv_ten_broken_members_served Hg ltac:(lia) Hf eq_refl He)
      as H.
    change (map fst (take 3 ten_members_plan)
            ++ {[ "email" := "g4@example.org" ]} :: drop 4 ten_groups)
      with ten_groups in H.
    cbv zeta in H. destruct H as (Hr & Hd & Hc).
    split; [exact Hr|]. split.
    + refine (eq_trans Hd _). vm_compute. reflexivity.
    + rewrite Hc. vm_compute. reflexivity.
  - assert (Hf : fails_until srv_ten_broken
                   (GroupsSettingsGet
                      (({[ "email" := "g4@example.org" ]} : Dict) !! "email"))
                   settings_retryable
                   (count_calls (trace world0)
                    + settings_calls (take 3 ten_settings_plan)) (1 - 1))
      by (intros k Hk; simpl in Hk; lia).
    assert (He : ~ settings_retryable SSLEOFError).
    { intros [H|[status H]]; discriminate. }
    assert (Hfail : srv_ten_broken
                      (count_calls (trace world0)
                       + settings_calls (take 3 ten_settings_plan) + (1 - 1))
                      (GroupsSettingsGet
                         (({[ "email" := "g4@example.org" ]} : Dict) !! "email"))
                    = Fail SSLEOFError) by (vm_compute; reflexivity).
    pose proof (proj2 (proj2 (proj2 failed_resource_skipped_collection_continues))
                  srv_ten_broken "20240829-000000" (take 3 ten_settings_plan)
                  {[ "email" := "g4@example.org" ]}
                  (drop 4 ten_groups) 1 SSLEOFError "folder" world0
                  srv_ten_broken_settings_served ltac:(lia) Hf Hfail He)
      as H.
    change (map fst (take 3 ten_settings_plan)
            ++ {[ "email" := "g4@example.org" ]} :: drop 4 ten_groups)
      with ten_groups in H.
    cbv zeta in H. destruct H as (Hr & Hd & Hc).
    split; [exact Hr|]. split.
    + refine (eq_trans (f_equal (fmap first_column) Hd) _).
      vm_compute. reflexivity.
    + rewrite Hc. vm_compute. reflexivity.
Defined.

(** C2 as stated does not hold: ten groups are listed and only the
    detail fetch of the fourth fails, on every call.  In the groups
    script the failure is a [TimeoutError], which neither
    [get_group_members] nor the collection loop handles: the run ends in
    that error after the single request for the fourth group, groups
    five to ten are never fetched, the report holds the records of three
    groups and nothing is uploaded.  The settings script does the same
    on an SSL end-of-file, which [get_group_settings] does not handle. *)
Lemma unhandled_fetch_error_ends_run :
  (forall k, srv_ten_broken k (MembersList "g4@example.org") = Fail TimeoutError) /\
  (forall k, srv_ten_broken k (MembersList "g5@example.org")
             = Reply one_member_page) /\
  (let out := GroupsBackup.main srv_ten_broken "20240828-000000" 5 "folder"
                world0 in
   fst out = Raise TimeoutError /\
   disk (snd out) !! "/tmp/gg_backup_20240828-000000.csv" =
     Some [["Group Email"; "Member Email"; "Role"; "Status"];
           ["g1@example.org"; "x@y.com"; "MEMBER"; "ACTIVE"];
           ["g2@example.org"; "x@y.com"; "MEMBER"; "ACTIVE"];
           ["g3@example.org"; "x@y.com"; "MEMBER"; "ACTIVE"]] /\
   calls (trace (snd out)) =
     [FilesList "folder"; GroupsList 200 None;
      MembersList "g1@example.org"; MembersList "g2@example.org";
      MembersList "g3@example.org"; MembersList "g4@example.org"] /\
   sleeps (trace (snd out)) = []) /\
  (forall k, srv_ten_broken k (GroupsSettingsGet (Some "g4@example.org"))
             = Fail SSLEOFError) /\
  (let out := GgSettingsBackup.main srv_ten_broken "20240829-000000" 5 "folder"
                world0 in
   fst out = Raise SSLEOFError /\
   first_column <$>
     (disk (snd out) !! "/tmp/gg_settings_backup_20240829-000000.csv")
   = Some ["email"; "g1@example.org"; "g2@example.org"; "g3@example.org"] /\
   calls (trace (snd out)) =
     [FilesList "folder"; GroupsList 50 None;
      GroupsSettingsGet (Some "g1@example.org");
      GroupsSettingsGet (Some "g2@example.org");
      GroupsSettingsGet (Some "g3@example.org");
      GroupsSettingsGet (Some "g4@example.org")] /\
   sleeps (trace (snd out)) = []).
Proof.
  cbv zeta.
  split; [intros k; reflexivity|].
  split; [intros k; reflexivity|].
  split; [repeat split; vm_compute; reflexivity|].
  split; [intros k; reflexivity|].
  repeat split; vm_compute; reflexivity.
Qed.
